(** * Stock alerts: price cache, rate limiter, alert status, push fan-out

    A shallow embedding of the stock-alerts application:

    - [src/lib/yahoo_finance.ts]: the in-memory rate limiter, symbol
      normalisation and validation, the cached price lookup, the batch
      lookup, the symbol search and the clean-up of the cache;
    - the price API route: its validation schemas and its GET and POST
      handlers;
    - [src/lib/db.ts]: the error wrapper and the connection probes;
    - the Prisma schema and the alerts route: its POST, PUT and DELETE
      handlers;
    - the notifications route: the registration of a device token;
    - [src/components/AlertCard.tsx] and
      [src/components/TriggeredAlertCard.tsx]: the status shown for an alert
      against the current price, and the age shown for a triggered alert;
    - the Firebase helpers of the server side: single and bulk push dispatch.

    Left out: the listing handlers (GET of the alerts and the notifications
    routes), whose paging goes through [parseInt] and the query semantics of
    the database client; the helpers that run in the browser; the alert
    form, which parses and formats floating-point numbers.

    Conventions.  Times are milliseconds since the epoch, in [Z].  Prices and
    targets are JavaScript numbers that are only stored, compared and tested
    for truthiness, never computed with; a price is modelled by the rational
    it denotes ([Q]), so that comparisons are exact; NaN and the infinities
    are not represented, and no binary64 arithmetic is done on a [Q].  Strings are sequences of 8-bit
    characters; the embedding follows JavaScript on the ASCII range and
    carries characters above it as opaque, caseless, non-blank characters
    (JavaScript trims a few of them and maps a few to ASCII capitals).
    Console output is not modelled. *)

From Stdlib Require Import ZArith QArith Lia Bool List Ascii String DecimalString.
From Stdlib Require PrimFloat.
From stdpp Require Import base gmap strings list.
Import ListNotations.

Local Open Scope string_scope.
Local Open Scope Z_scope.

(** ** JavaScript strings: the operations the sources use *)

Module JsString.

(** White space and line terminators of the ASCII range, as removed by
    [String.prototype.trim]: TAB, LF, VT, FF, CR and SPACE. *)
Definition isWhiteSpace (c : ascii) : bool :=
  let n := N_of_ascii c in
  ((9 <=? n) && (n <=? 13) || (n =? 32))%N.

Definition isLower (c : ascii) : bool :=
  let n := N_of_ascii c in ((97 <=? n) && (n <=? 122))%N.

Definition isUpper (c : ascii) : bool :=
  let n := N_of_ascii c in ((65 <=? n) && (n <=? 90))%N.

Definition upperChar (c : ascii) : ascii :=
  if isLower c then ascii_of_N (N_of_ascii c - 32) else c.

(** [s.toUpperCase()] on the ASCII range: the small letters a to z become
    their capitals, every other character stays. *)
Fixpoint toUpperCase (s : string) : string :=
  match s with
  | EmptyString => EmptyString
  | String c s' => String (upperChar c) (toUpperCase s')
  end.

Fixpoint trimStart (s : string) : string :=
  match s with
  | EmptyString => EmptyString
  | String c s' => if isWhiteSpace c then trimStart s' else s
  end.

Fixpoint trimEnd (s : string) : string :=
  match s with
  | EmptyString => EmptyString
  | String c s' =>
      match trimEnd s' with
      | EmptyString => if isWhiteSpace c then EmptyString else String c EmptyString
      | t => String c t
      end
  end.

(** [s.trim()] on the ASCII range: the blanks above are removed from the two
    ends. *)
Definition trim (s : string) : string := trimEnd (trimStart s).

Fixpoint all (p : ascii -> bool) (s : string) : bool :=
  match s with
  | EmptyString => true
  | String c s' => p c && all p s'
  end.

(** [hay.includes(needle)] *)
Fixpoint includes (needle hay : string) : bool :=
  String.prefix needle hay
  || match hay with
     | EmptyString => false
     | String _ hay' => includes needle hay'
     end.

(** [s.split(',')]: the pieces between the separators, at least one. *)
Fixpoint split (sep : ascii) (s : string) : list string :=
  match s with
  | EmptyString => [EmptyString]
  | String c s' =>
      if Ascii.eqb c sep then EmptyString :: split sep s'
      else match split sep s' with
           | piece :: rest => String c piece :: rest
           | [] => [String c EmptyString]
           end
  end.

(** [xs.join(sep)] *)
Fixpoint join (sep : string) (xs : list string) : string :=
  match xs with
  | [] => EmptyString
  | [x] => x
  | x :: rest => x ++ sep ++ join sep rest
  end.

(** A string is truthy when it is not empty: [filter(Boolean)], [if (s)]. *)
Definition truthy (s : string) : bool :=
  match s with EmptyString => false | _ => true end.

(** Empty, or starting with a character [trim] keeps. *)
Definition noLeadingSpace (s : string) : Prop :=
  match s with
  | EmptyString => True
  | String c _ => isWhiteSpace c = false
  end.

End JsString.

(** ** JavaScript numbers that may be [undefined] *)

Module JsNumber.

(** A number is truthy when it is present and not zero. *)
Definition truthy (x : option Q) : bool :=
  match x with
  | Some q => negb (Qeq_bool q 0)
  | None => false
  end.

(** [a || b] *)
Definition or (a b : option Q) : option Q :=
  if truthy a then a else b.

(** [a >= b] and [a <= b] on numbers *)
Definition geq (a b : Q) : bool := Qle_bool b a.
Definition leq (a b : Q) : bool := Qle_bool a b.

End JsNumber.

(** ** Symbols ([src/lib/yahoo_finance.ts]) *)

(** [/^[A-Z]{1,5}$/.test(s)] *)
Definition symbolRegex_test (s : string) : bool :=
  (1 <=? String.length s)%nat && (String.length s <=? 5)%nat
  && JsString.all JsString.isUpper s.

Definition isValidStockSymbol (symbol : string) : bool :=
  symbolRegex_test (JsString.toUpperCase symbol).

Definition normalizeSymbol (symbol : string) : string :=
  JsString.toUpperCase (JsString.trim symbol).

(** ** Errors, outcomes and a small effect monad

    Asynchronous functions are modelled in direct style: a computation takes
    the process-local mutable state and returns the outcome of the promise
    (resolved with a value or rejected with an error), the state afterwards
    and the external operations it issued, in order. *)

Record JsError := {
  message : string;
  isAxiosError : bool;
  response_status : option Z;   (* error.response?.status *)
  code : option string          (* error.code *)
}.

(** [new Error(msg)] *)
Definition Error (msg : string) : JsError :=
  {| message := msg; isAxiosError := false; response_status := None; code := None |}.

Inductive outcome (A : Type) : Type :=
| Resolved (a : A)
| Rejected (e : JsError).
Arguments Resolved {A} a.
Arguments Rejected {A} e.

(** The answer of an external service to one request: a value, or the error
    its client raises. *)
Inductive Reply (A : Type) : Type :=
| Ok (a : A)
| Fails (e : JsError).
Arguments Ok {A} a.
Arguments Fails {A} e.

Section Effects.
Context {State Event : Type}.

Definition M (A : Type) : Type := State -> outcome A * State * list Event.

Definition ret {A} (a : A) : M A := fun s => (Resolved a, s, []).

Definition throw {A} (e : JsError) : M A := fun s => (Rejected e, s, []).

Definition emit (ev : Event) : M unit := fun s => (Resolved tt, s, [ev]).

Definition bind {A B} (m : M A) (k : A -> M B) : M B :=
  fun s =>
    match m s with
    | (Resolved a, s1, t1) => let '(r, s2, t2) := k a s1 in (r, s2, (t1 ++ t2)%list)
    | (Rejected e, s1, t1) => (Rejected e, s1, t1)
    end.

(** [try { m } catch (error) { handler(error) }] *)
Definition try_catch {A} (m : M A) (handler : JsError -> M A) : M A :=
  fun s =>
    match m s with
    | (Resolved a, s1, t1) => (Resolved a, s1, t1)
    | (Rejected e, s1, t1) => let '(r, s2, t2) := handler e s1 in (r, s2, (t1 ++ t2)%list)
    end.

(** [Promise.all(ps)] on promises already started, as [xs.map(f)] leaves
    them: every one of them runs, whatever becomes of the others; the result
    resolves with all the values, or is rejected with the error of a rejected
    promise (here the first in the list). *)
Fixpoint promise_all {A} (ps : list (M A)) : M (list A) :=
  fun s =>
    match ps with
    | [] => (Resolved [], s, [])
    | p :: rest =>
        let '(r, s1, t1) := p s in
        let '(rs, s2, t2) := promise_all rest s1 in
        (match r, rs with
         | Resolved a, Resolved l => Resolved (a :: l)
         | Rejected e, _ => Rejected e
         | Resolved _, Rejected e => Rejected e
         end, s2, (t1 ++ t2)%list)
    end.
End Effects.

Arguments M : clear implicits.

Notation "'let*' x ':=' m 'in' k" := (bind m (fun x => k))
  (at level 10, x name, m at level 100, k at level 200, only parsing).
Notation "m ';;' k" := (bind m (fun _ => k))
  (at level 100, k at level 200, right associativity, only parsing).

Definition result_of {S E A} (r : outcome A * S * list E) : outcome A := r.1.1.
Definition state_of {S E A} (r : outcome A * S * list E) : S := r.1.2.
Definition trace_of {S E A} (r : outcome A * S * list E) : list E := r.2.

(** ** Price cache and rate limiter ([src/lib/yahoo_finance.ts]) *)

Module YahooFinance.

(** Cache duration in minutes *)
Definition CACHE_DURATION : Z := 5.
Definition RATE_LIMIT_REQUESTS : Z := 100.
Definition RATE_LIMIT_WINDOW : Z := 60 * 1000.

Record RateRecord := { count : Z; resetTime : Z }.

(** [rateLimitStore]: the in-memory [Map] from key to record. *)
Abbreviation RateLimitStore := (gmap string RateRecord).

(** [StockPrice] as the functions below build it.  The optional [change] and
    [changePercent] are floating-point quotients no function reads back;
    they are left out.  [error] is the property the batch lookup adds to the
    entry of a failed symbol. *)
Record StockPrice := {
  symbol : string;
  price : Q;
  timestamp : Z;
  error : option string
}.

(** A row of the [stock_prices] table ([symbol] is unique). *)
Record StockPriceRow := {
  row_symbol : string;
  row_price : Q;
  row_updatedAt : Z
}.

(** [response.data] of the chart endpoint, as far as the code inspects it. *)
Record Meta := {
  regularMarketPrice : option Q;
  previousClose : option Q
}.
Record ChartResult := { meta : option Meta }.
Record ChartData := { chart_result0 : option ChartResult }.  (* data.chart?.result?.[0] *)

(** What one lookup observes of the world outside the process: the clock at
    each place the code reads it, the contents of the cache table when its
    query runs (or the error the database client raises), the reply of the
    quote endpoint, and whether its upsert goes through. *)
Record Env := {
  t_limit : Z;                              (* Date.now() in checkRateLimit *)
  db_read : Reply (list StockPriceRow);     (* prisma.stockPrice.findUnique *)
  t_cache : Z;                              (* new Date() in isCacheValid *)
  http : Reply ChartData;                   (* axios.get *)
  t_fetch : Z;                              (* new Date() for the timestamp *)
  db_upsert : Reply unit;                   (* prisma.stockPrice.upsert *)
  t_upsert : Z;                             (* updatedAt written by the upsert *)
  t_error : Z                               (* new Date() in the batch catch *)
}.

Inductive Event :=
| RateLimitCheck (key : string)
| DbFindUnique (symbol : string)
| HttpGet (symbol : string)
| DbUpsert (symbol : string) (price : Q) (updatedAt : Z).

Abbreviation Async := (M RateLimitStore Event).

(** *** Rate limiter *)

Section RateLimiter.
(** The budget and the window, constants of the module in the source. *)
Variables (requests window : Z).

Definition checkRateLimitWith (now : Z) (key : string) (store : RateLimitStore)
  : bool * RateLimitStore :=
  match store !! key with
  | None =>
      (true, <[key := {| count := 1; resetTime := now + window |}]> store)
  | Some record =>
      if now >? resetTime record then
        (true, <[key := {| count := 1; resetTime := now + window |}]> store)
      else if count record >=? requests then
        (false, store)
      else
        (* record.count++ on the object the map holds *)
        (true, <[key := {| count := count record + 1;
                           resetTime := resetTime record |}]> store)
  end.

(** The calls of one key at the given times, in order. *)
Fixpoint allowMany (times : list Z) (key : string) (store : RateLimitStore)
  : list bool * RateLimitStore :=
  match times with
  | [] => ([], store)
  | now :: rest =>
      let '(b, store1) := checkRateLimitWith now key store in
      let '(bs, store2) := allowMany rest key store1 in
      (b :: bs, store2)
  end.
End RateLimiter.

Definition checkRateLimit (now : Z) (key : string) : Async bool :=
  fun store =>
    let '(allowed, store') :=
      checkRateLimitWith RATE_LIMIT_REQUESTS RATE_LIMIT_WINDOW now key store in
    (Resolved allowed, store', [RateLimitCheck key]).

(** *** Cache *)

Definition isCacheValid (now updatedAt : Z) : bool :=
  let cacheExpiry := updatedAt + CACHE_DURATION * 60 * 1000 in
  now <? cacheExpiry.

(** [findUnique({ where: { symbol } })] on the rows of the table. *)
Definition findUnique (table : list StockPriceRow) (sym : string)
  : option StockPriceRow :=
  List.find (fun row => String.eqb (row_symbol row) sym) table.

(** The table after [upsert({ where: { symbol }, update, create })]. *)
Fixpoint upsert (table : list StockPriceRow) (sym : string) (p : Q) (now : Z)
  : list StockPriceRow :=
  match table with
  | [] => [{| row_symbol := sym; row_price := p; row_updatedAt := now |}]
  | row :: rest =>
      if String.eqb (row_symbol row) sym
      then {| row_symbol := sym; row_price := p; row_updatedAt := now |} :: rest
      else row :: upsert rest sym p now
  end.

Definition prisma_stockPrice_findUnique (env : Env) (sym : string)
  : Async (option StockPriceRow) :=
  emit (DbFindUnique sym);;
  match db_read env with
  | Ok table => ret (findUnique table sym)
  | Fails e => throw e
  end.

Definition prisma_stockPrice_upsert (env : Env) (sym : string) (p : Q)
  : Async unit :=
  emit (DbUpsert sym p (t_upsert env));;
  match db_upsert env with
  | Ok _ => ret tt
  | Fails e => throw e
  end.

Definition getCachedPrice (env : Env) (symbol : string) : Async (option StockPrice) :=
  try_catch
    (let* cached := prisma_stockPrice_findUnique env (normalizeSymbol symbol) in
     match cached with
     | Some cached =>
         if isCacheValid (t_cache env) (row_updatedAt cached) then
           ret (Some {| symbol := row_symbol cached;
                        price := row_price cached;
                        timestamp := row_updatedAt cached;
                        error := None |})
         else ret None
     | None => ret None
     end)
    (fun _ => ret None).

Definition updatePriceCache (env : Env) (symbol : string) (p : Q) : Async unit :=
  try_catch
    (prisma_stockPrice_upsert env (normalizeSymbol symbol) p)
    (fun _ => ret tt).

(** *** Fetching *)

Definition axios_get (env : Env) (sym : string) : Async ChartData :=
  emit (HttpGet sym);;
  match http env with
  | Ok data => ret data
  | Fails e => throw e
  end.

Definition fetchPriceFromAPI (env : Env) (symbol : string) : Async StockPrice :=
  let normalizedSymbol := normalizeSymbol symbol in
  try_catch
    (let* data := axios_get env normalizedSymbol in
     match chart_result0 data with
     | None => throw (Error ("No data found for symbol: " ++ normalizedSymbol))
     | Some result =>
         match meta result with
         | None => throw (Error "Cannot read properties of undefined")
         | Some meta =>
             match JsNumber.or (regularMarketPrice meta) (previousClose meta) with
             | Some currentPrice =>
                 if negb (Qeq_bool currentPrice 0) then
                   let stockPrice := {| symbol := normalizedSymbol;
                                        price := currentPrice;
                                        timestamp := t_fetch env;
                                        error := None |} in
                   updatePriceCache env normalizedSymbol currentPrice;;
                   ret stockPrice
                 else
                   throw (Error ("No price data available for symbol: "
                                 ++ normalizedSymbol))
             | None =>
                 throw (Error ("No price data available for symbol: "
                               ++ normalizedSymbol))
             end
         end
     end)
    (fun error =>
       if isAxiosError error
          && bool_decide (response_status error = Some 404) then
         throw (Error ("Stock symbol not found: " ++ normalizedSymbol))
       else if isAxiosError error
               && bool_decide (code error = Some "ECONNABORTED") then
         throw (Error "Request timeout - Yahoo Finance API is not responding")
       else
         throw (Error ("Failed to fetch price for " ++ normalizedSymbol))).

Definition getStockPrice (env : Env) (symbol : string) (useCache : bool)
  : Async StockPrice :=
  let normalizedSymbol := normalizeSymbol symbol in
  (* Validate symbol format *)
  if negb (isValidStockSymbol normalizedSymbol) then
    throw (Error ("Invalid stock symbol format: " ++ symbol))
  else
    (* Check rate limit *)
    let* allowed := checkRateLimit (t_limit env) "default" in
    if negb allowed then
      throw (Error "Rate limit exceeded. Please try again later.")
    else
      (* Try to get from cache first *)
      let* cachedPrice :=
        (if useCache then getCachedPrice env normalizedSymbol else ret None) in
      match cachedPrice with
      | Some cachedPrice => ret cachedPrice
      | None =>
          (* Fetch from API *)
          fetchPriceFromAPI env normalizedSymbol
      end.

(** The lookups of a batch are started in the order of the list, each with
    its own view of the outside world; [envs i] is the view of the lookup at
    position [i].  The rate limiter is consulted in the synchronous prefix
    of each lookup, hence in list order.  The events of different lookups
    may interleave at run time; the trace lists them lookup by lookup. *)
Definition getMultipleStockPrices (envs : nat -> Env) (symbols : list string)
    (useCache : bool) : Async (list StockPrice) :=
  let promises :=
    imap (fun i symbol =>
            try_catch (getStockPrice (envs i) symbol useCache)
              (fun error =>
                 ret {| symbol := normalizeSymbol symbol;
                        price := 0;
                        timestamp := t_error (envs i);
                        error := Some (message error) |}))
         symbols in
  promise_all promises.

End YahooFinance.

(** ** The price API route: validation schemas and batch branches *)

Module PricesRoute.
Import YahooFinance.

Record ApiResponse := {
  success : bool;
  data : option (list StockPrice);
  api_error : option string;
  api_message : option string
}.

(** [NextResponse.json(body, { status })] *)
Record NextResponse := { status : Z; body : ApiResponse }.

(** [z.string().min(1).max(10)]; the schema counts UTF-16 code units, which
    [String.length] gives for a string of the ASCII range. *)
Definition symbolSchema (s : string) : bool :=
  (1 <=? String.length s)%nat && (String.length s <=? 10)%nat.

(** [multiplePricesSchema.safeParse({ symbols, useCache }).success]:
    [z.array(z.string().min(1).max(10)).min(1).max(20)] *)
Definition multiplePricesSchema (symbols : list string) : bool :=
  forallb symbolSchema symbols
  && (1 <=? List.length symbols)%nat && (List.length symbols <=? 20)%nat.

Definition failure (st : Z) (err : string) (msg : option string) : NextResponse :=
  {| status := st;
     body := {| success := false; data := None;
                api_error := Some err; api_message := msg |} |}.

(** The [catch] block shared by the handlers. *)
Definition onError (error : JsError) : NextResponse :=
  let errorMessage := message error in
  let statusCode :=
    if JsString.includes "Rate limit exceeded" errorMessage then 429
    else if JsString.includes "not found" errorMessage then 404
    else if JsString.includes "Invalid" errorMessage then 400
    else 500 in
  failure statusCode errorMessage None.

Definition invalidSymbols (symbols : list string) : list string :=
  List.filter (fun s => negb (isValidStockSymbol (normalizeSymbol s))) symbols.

(** [symbols.split(',').map(s => s.trim()).filter(Boolean)] *)
Definition symbolArrayOf (symbols : string) : list string :=
  List.filter JsString.truthy
    (List.map JsString.trim (JsString.split "," symbols)).

(** The branch of [GET] taken when the request carries [symbols] and neither
    [search] nor [symbol]; [symbols] is the raw query parameter. *)
Definition GET_symbols (envs : nat -> Env) (symbols : string) (useCache : bool)
  : Async NextResponse :=
  try_catch
    (let symbolArray := symbolArrayOf symbols in
     if negb (multiplePricesSchema symbolArray) then
       ret (failure 400 "Invalid symbols parameter"
              (Some "Provide 1-20 valid symbols separated by commas"))
     else
       (* Validate each symbol format *)
       match invalidSymbols symbolArray with
       | (_ :: _) as invalid =>
           ret (failure 400
                  ("Invalid stock symbol format: " ++ JsString.join ", " invalid)
                  None)
       | [] =>
           let* stockPrices := getMultipleStockPrices envs symbolArray useCache in
           ret {| status := 200;
                  body := {| success := true; data := Some stockPrices;
                             api_error := None; api_message := None |} |}
       end)
    (fun error => ret (onError error)).

(** The branch of [POST] taken when the body carries an array [symbols] and
    no [symbol]; the refresh bypasses the cache. *)
Definition POST_symbols (envs : nat -> Env) (symbols : list string)
  : Async NextResponse :=
  try_catch
    (if negb (multiplePricesSchema symbols) then
       ret (failure 400 "Invalid symbols parameter"
              (Some "Provide 1-20 valid symbols in an array"))
     else
       match invalidSymbols symbols with
       | (_ :: _) as invalid =>
           ret (failure 400
                  ("Invalid stock symbol format: " ++ JsString.join ", " invalid)
                  None)
       | [] =>
           let* stockPrices := getMultipleStockPrices envs symbols false in
           ret {| status := 200;
                  body := {| success := true; data := Some stockPrices;
                             api_error := None;
                             api_message := Some "Prices refreshed successfully" |} |}
       end)
    (fun error => ret (onError error)).

End PricesRoute.

(** ** Records of the application (the type definitions and the Prisma schema) *)

Inductive AlertCondition := ABOVE | BELOW.

Record Alert := {
  alert_id : string;
  alert_symbol : string;
  targetPrice : Q;
  condition : AlertCondition;
  isActive : bool;
  alert_createdAt : Z;
  alert_updatedAt : Z
}.

Record TriggeredAlert := {
  triggered_id : string;
  alertId : string;               (* references Alert.id, onDelete: Cascade *)
  triggered_symbol : string;
  triggered_targetPrice : Q;
  actualPrice : Q;
  triggered_condition : AlertCondition;
  triggeredAt : Z;
  isRead : bool
}.

(** A device token as the push dispatch sees it; the time stamps of its row
    are in [NotificationsApi.DeviceTokenRow]. *)
Record DeviceToken := {
  device_id : string;
  token : string;
  userId : option string;
  device_isActive : bool
}.

(** ** The alert card ([src/components/AlertCard.tsx]) *)

Module AlertCard.

Definition isAboveTarget (alert : Alert) : bool :=
  match condition alert with ABOVE => true | BELOW => false end.

Definition getStatusColor (alert : Alert) (currentPrice : option Q) : string :=
  if negb (isActive alert) then "bg-gray-100 border-gray-300"
  else
    match currentPrice with
    | None => "bg-yellow-50 border-yellow-200"
    | Some p =>
        if negb (JsNumber.truthy currentPrice) then "bg-yellow-50 border-yellow-200"
        else if isAboveTarget alert then
          if JsNumber.geq p (targetPrice alert)
          then "bg-green-50 border-green-200"
          else "bg-blue-50 border-blue-200"
        else
          if JsNumber.leq p (targetPrice alert)
          then "bg-red-50 border-red-200"
          else "bg-blue-50 border-blue-200"
    end.

Definition getStatusText (alert : Alert) (currentPrice : option Q) : string :=
  if negb (isActive alert) then "Inactive"
  else
    match currentPrice with
    | None => "Loading price..."
    | Some p =>
        if negb (JsNumber.truthy currentPrice) then "Loading price..."
        else if isAboveTarget alert then
          if JsNumber.geq p (targetPrice alert)
          then "Target Reached!" else "Monitoring..."
        else
          if JsNumber.leq p (targetPrice alert)
          then "Target Reached!" else "Monitoring..."
    end.

(** The card shows an alert as crossed when its status text says so. *)
Definition crossed (alert : Alert) (currentPrice : option Q) : bool :=
  String.eqb (getStatusText alert currentPrice) "Target Reached!".

End AlertCard.

(** ** The alerts route: DELETE, and the cascade of the schema *)

Module AlertsRoute.

(** The two tables the handler can reach. *)
Record Db := {
  alerts : list Alert;
  triggered_alerts : list TriggeredAlert
}.

Inductive Event :=
| AlertDeleteMany (ids : list string).

Abbreviation Handler := (M Db Event).

Record DeleteResponse := {
  status : Z;
  success : bool;
  deletedCount : option Z;
  api_error : option string;
  api_message : option string
}.

Definition memberOf (ids : list string) (x : string) : bool :=
  existsb (String.eqb x) ids.

(** [prisma.alert.deleteMany({ where: { id: { in: ids } } })] on the tables:
    the matching alerts go, and with each of them, by the referential action
    [onDelete: Cascade] of [TriggeredAlert.alert], the triggered alerts that
    reference it.  The count is the number of alerts deleted. *)
Definition deleteMany (ids : list string) (db : Db) : Z * Db :=
  let deleted := List.filter (fun a => memberOf ids (alert_id a)) (alerts db) in
  let kept := List.filter (fun a => negb (memberOf ids (alert_id a))) (alerts db) in
  let orphaned (t : TriggeredAlert) :=
    existsb (fun a => String.eqb (alert_id a) (alertId t)) deleted in
  (Z.of_nat (List.length deleted),
   {| alerts := kept;
      triggered_alerts := List.filter (fun t => negb (orphaned t)) (triggered_alerts db) |}).

(** [db_reply] is what the database client answers: the statement runs, or
    the client raises. *)
Definition prisma_alert_deleteMany (db_reply : Reply unit)
    (ids : list string) : Handler Z :=
  emit (AlertDeleteMany ids);;
  match db_reply with
  | Ok _ => fun db => let '(n, db') := deleteMany ids db in (Resolved n, db', [])
  | Fails e => throw e
  end.

(** [withDbErrorHandling] of [src/lib/db.ts] *)
Definition withDbErrorHandling {A} (operation : Handler A) : Handler A :=
  try_catch operation
    (fun error =>
       if JsString.includes "P2002" (message error) then
         throw (Error "A record with this data already exists")
       else if JsString.includes "P2025" (message error) then
         throw (Error "Record not found")
       else if JsString.includes "P2003" (message error) then
         throw (Error "Foreign key constraint failed")
       else throw (Error "Database operation failed")).

Definition failure (st : Z) (err : string) : DeleteResponse :=
  {| status := st; success := false; deletedCount := None;
     api_error := Some err; api_message := None |}.

Definition param_truthy (p : option string) : bool :=
  match p with Some s => JsString.truthy s | None => false end.

Definition decimal (n : Z) : string :=
  NilZero.string_of_int (Z.to_int n).

(** [DELETE]: [singleId] and [bulkIds] are [searchParams.get('id')] and
    [searchParams.get('ids')]. *)
Definition DELETE (db_reply : Reply unit)
    (singleId bulkIds : option string) : Handler DeleteResponse :=
  try_catch
    (if negb (param_truthy singleId) && negb (param_truthy bulkIds) then
       ret (failure 400 "Either id or ids parameter is required")
     else
       let alertIds :=
         if param_truthy singleId then [default "" singleId]
         else List.filter JsString.truthy
                (List.map JsString.trim (JsString.split "," (default "" bulkIds))) in
       if (List.length alertIds =? 0)%nat then
         ret (failure 400 "No valid alert IDs provided")
       else
         (* Delete alerts (this will also cascade delete triggered alerts) *)
         let* count := withDbErrorHandling (prisma_alert_deleteMany db_reply alertIds) in
         ret {| status := 200; success := true; deletedCount := Some count;
                api_error := None;
                api_message := Some (decimal count ++ " alert(s) deleted successfully") |})
    (fun error => ret (failure 500 (message error))).

End AlertsRoute.

(** ** Push notifications (the Firebase helpers, server side) *)

Module Firebase.

Record PayloadData := {
  data_alertId : string;
  data_symbol : string;
  data_price : string
}.

Record NotificationPayload := {
  title : string;
  body : string;
  data : option PayloadData
}.

(** The message handed to the gateway; the icon, badge, tag and link of its
    [webpush] part are constants. *)
Record Message := {
  notification_title : string;
  notification_body : string;
  message_data : option PayloadData;
  webpush_title : string;
  webpush_body : string
}.

(** One element of [response.results]. *)
Record SendResult := { send_error : option string }.   (* result.error: its code *)

(** What a dispatch observes: whether it runs in a browser, whether the
    Admin SDK can be loaded and initialised, and what the gateway answers
    to the one bulk request. *)
Record Env := {
  window_defined : bool;                              (* typeof window !== 'undefined' *)
  admin_init : Reply unit;                            (* require + initializeApp *)
  sendToDevice : list string -> Message -> Reply (list SendResult)
}.

(** The state a dispatch runs in: the [adminApp] singleton of the module and
    the [device_tokens] table of the database. *)
Record World := {
  adminApp : bool;                                    (* adminApp !== null *)
  deviceTokens : list DeviceToken
}.

Inductive Event :=
| AdminInit
| SendToDevice (tokens : list string) (message : Message).

Abbreviation Async := (M World Event).

Definition getFirebaseAdmin (env : Env) : Async unit :=
  if window_defined env then
    throw (Error "Firebase Admin SDK should only be used on the server side")
  else fun w =>
    if adminApp w then (Resolved tt, w, [])
    else
      try_catch
        (emit AdminInit;;
         match admin_init env with
         | Ok _ => fun w' => (Resolved tt,
                              {| adminApp := true; deviceTokens := deviceTokens w' |}, [])
         | Fails e => throw e
         end)
        (fun error => throw error) w.

Definition messaging_sendToDevice (env : Env) (tokens : list string)
    (message : Message) : Async (list SendResult) :=
  emit (SendToDevice tokens message);;
  match sendToDevice env tokens message with
  | Ok results => ret results
  | Fails e => throw e
  end.

(** The [forEach] over [response.results]. *)
Definition countSuccesses (results : list SendResult) : Z :=
  fold_left (fun successCount result =>
               match send_error result with
               | Some _ => successCount
               | None => successCount + 1
               end) results 0.

Definition sendBulkPushNotifications (env : Env) (tokens : list string)
    (payload : NotificationPayload) : Async Z :=
  if window_defined env then
    throw (Error "sendBulkPushNotifications should only be called on the server side")
  else if (List.length tokens =? 0)%nat then ret 0
  else
    try_catch
      (getFirebaseAdmin env;;
       let message := {| notification_title := title payload;
                         notification_body := body payload;
                         message_data := data payload;
                         webpush_title := title payload;
                         webpush_body := body payload |} in
       let* results := messaging_sendToDevice env tokens message in
       ret (countSuccesses results))
      (fun _ => ret 0).

End Firebase.

(** ** Auxiliary definitions for the statements *)

Module Statements.
Import YahooFinance.

(** The same view of the world, with another answer of the cache table. *)
Definition with_db_read (r : Reply (list StockPriceRow)) (env : Env) : Env :=
  {| t_limit := t_limit env; db_read := r; t_cache := t_cache env;
     http := http env; t_fetch := t_fetch env; db_upsert := db_upsert env;
     t_upsert := t_upsert env; t_error := t_error env |}.

Definition with_db_upsert (r : Reply unit) (env : Env) : Env :=
  {| t_limit := t_limit env; db_read := db_read env; t_cache := t_cache env;
     http := http env; t_fetch := t_fetch env; db_upsert := r;
     t_upsert := t_upsert env; t_error := t_error env |}.

(** The entry the cache yields for a row. *)
Definition cachedEntry (row : StockPriceRow) : StockPrice :=
  {| symbol := row_symbol row; price := row_price row;
     timestamp := row_updatedAt row; error := None |}.

(** The entry of one symbol of a batch, from the outcome of its own lookup:
    the price when the lookup resolved, an error entry for that symbol when
    it was rejected. *)
Definition entryOf (env : Env) (symbol : string) (r : outcome StockPrice)
  : StockPrice :=
  match r with
  | Resolved sp => sp
  | Rejected e => {| symbol := normalizeSymbol symbol; price := 0;
                     timestamp := t_error env; error := Some (message e) |}
  end.

(** One entry per requested symbol, in order: the symbol at position [i] is
    looked up by [getStockPrice] with the rate limiter as its predecessors
    left it, whatever became of them. *)
Fixpoint perSymbolEntries (envs : nat -> Env) (symbols : list string)
    (useCache : bool) (store : RateLimitStore) : list StockPrice :=
  match symbols with
  | [] => []
  | symbol :: rest =>
      let r := getStockPrice (envs 0%nat) symbol useCache store in
      entryOf (envs 0%nat) symbol (result_of r)
        :: perSymbolEntries (fun i => envs (S i)) rest useCache (state_of r)
  end.

(** The number of results that carry an error. *)
Definition failures (results : list Firebase.SendResult) : Z :=
  Z.of_nat (List.length
              (List.filter (fun r => bool_decide (is_Some (Firebase.send_error r)))
                 results)).

(** The message a dispatch builds from its payload. *)
Definition messageOf (payload : Firebase.NotificationPayload) : Firebase.Message :=
  {| Firebase.notification_title := Firebase.title payload;
     Firebase.notification_body := Firebase.body payload;
     Firebase.message_data := Firebase.data payload;
     Firebase.webpush_title := Firebase.title payload;
     Firebase.webpush_body := Firebase.body payload |}.

(** The Admin SDK is at hand: already initialised, or initialising works. *)
Definition adminAvailable (env : Firebase.Env) (w : Firebase.World) : Prop :=
  Firebase.adminApp w = true \/ Firebase.admin_init env = Ok tt.

(** The device with the given token, if registered. *)
Definition deviceOf (w : Firebase.World) (tok : string) : option DeviceToken :=
  List.find (fun d => String.eqb (token d) tok) (Firebase.deviceTokens w).

End Statements.

(** ** Concrete inputs *)

Module Examples.
Import YahooFinance.

Definition aapl_row : StockPriceRow :=
  {| row_symbol := "AAPL"; row_price := 150 # 1; row_updatedAt := 1000 |}.

Definition quote (p : Q) : ChartData :=
  {| chart_result0 :=
       Some {| meta := Some {| regularMarketPrice := Some p;
                               previousClose := Some (149 # 1) |} |} |}.

(** A lookup one second after the cached row was written; the endpoint
    would answer 151. *)
Definition env0 : Env :=
  {| t_limit := 2000; db_read := Ok [aapl_row]; t_cache := 2001;
     http := Ok (quote (151 # 1)); t_fetch := 2002;
     db_upsert := Ok tt; t_upsert := 2003; t_error := 2004 |}.

Definition db_down : JsError := Error "Can't reach database server".

(** The budget of the current window is used up. *)
Definition exhausted : RateLimitStore :=
  <["default" := {| count := 100; resetTime := 5000 |}]> ∅.

Definition symbols21 : list string := List.repeat "A" 21.
Definition query21 : string := "A,A,A,A,A,A,A,A,A,A,A,A,A,A,A,A,A,A,A,A,A".

Definition alert_above (active : bool) : Alert :=
  {| alert_id := "a1"; alert_symbol := "AAPL"; targetPrice := 100 # 1;
     condition := ABOVE; isActive := active;
     alert_createdAt := 0; alert_updatedAt := 0 |}.

(** An active ABOVE alert with the target 1e15. *)
Definition alert_large : Alert :=
  {| alert_id := "a3"; alert_symbol := "AAPL";
     targetPrice := 1000000000000000 # 1;
     condition := ABOVE; isActive := true;
     alert_createdAt := 0; alert_updatedAt := 0 |}.

Definition alert_below : Alert :=
  {| alert_id := "a2"; alert_symbol := "AAPL"; targetPrice := 5 # 1;
     condition := BELOW; isActive := true;
     alert_createdAt := 0; alert_updatedAt := 0 |}.

Definition device (n tok : string) : DeviceToken :=
  {| device_id := n; token := tok; userId := None; device_isActive := true |}.

Definition world3 : Firebase.World :=
  {| Firebase.adminApp := true;
     Firebase.deviceTokens := [device "d1" "t1"; device "d2" "t2"; device "d3" "t3"] |}.

Definition payload0 : Firebase.NotificationPayload :=
  {| Firebase.title := "AAPL"; Firebase.body := "AAPL above 100";
     Firebase.data := None |}.

(** The gateway delivers to the first and third token and reports the second
    as not registered. *)
Definition gateway_second_invalid : Firebase.Env :=
  {| Firebase.window_defined := false;
     Firebase.admin_init := Ok tt;
     Firebase.sendToDevice := fun _ _ =>
       Ok [ {| Firebase.send_error := None |};
            {| Firebase.send_error := Some "messaging/registration-token-not-registered" |};
            {| Firebase.send_error := None |} ] |}.

Definition triggered (tid aid : string) : TriggeredAlert :=
  {| triggered_id := tid; alertId := aid; triggered_symbol := "AAPL";
     triggered_targetPrice := 100 # 1; actualPrice := 101 # 1;
     triggered_condition := ABOVE; triggeredAt := 10; isRead := false |}.

Definition db2 : AlertsRoute.Db :=
  {| AlertsRoute.alerts := [alert_above true; alert_below];
     AlertsRoute.triggered_alerts :=
       [triggered "t1" "a1"; triggered "t2" "a2"; triggered "t3" "a1"] |}.

End Examples.

(** ** Further operations of [src/lib/yahoo_finance.ts] *)

(** The same computation, its events renamed. *)
Definition mapEvents {S E E' A} (f : E -> E') (m : M S E A) : M S E' A :=
  fun s => let '(r, s', t) := m s in (r, s', List.map f t).

Module YahooFinanceAux.
Import YahooFinance.

(** One element of [response.data.quotes], as far as the code reads it. *)
Record SearchQuote := {
  typeDisp : option string;
  quote_symbol : option string
}.

(** [response.data] of the search endpoint; [quotes] may be missing. *)
Record SearchData := { quotes : option (list SearchQuote) }.

(** What one search observes: the clock and the reply of the endpoint. *)
Record SearchEnv := {
  t_search : Z;                       (* Date.now() in checkRateLimit *)
  search_http : Reply SearchData      (* axios.get *)
}.

Inductive Event :=
| Lookup (e : YahooFinance.Event)
| HttpSearch (query : string)
| DbDeleteExpired (expiredTime : Z).

Definition axios_search (env : SearchEnv) (query : string)
  : M RateLimitStore Event SearchData :=
  emit (HttpSearch query);;
  match search_http env with
  | Ok data => ret data
  | Fails e => throw e
  end.

(** [quote.typeDisp === 'Equity' && quote.symbol] *)
Definition isEquity (quote : SearchQuote) : bool :=
  bool_decide (typeDisp quote = Some "Equity")
  && match quote_symbol quote with
     | Some s => JsString.truthy s
     | None => false
     end.

Definition searchStockSymbols (env : SearchEnv) (query : string)
  : M RateLimitStore Event (list string) :=
  try_catch
    ((* Check rate limit *)
     let* allowed := mapEvents Lookup (checkRateLimit (t_search env) "search") in
     if negb allowed then
       throw (Error "Search rate limit exceeded")
     else
       let* data := axios_search env query in
       let quotes := default [] (quotes data) in
       ret (firstn 10
              (List.map (fun quote => default "" (quote_symbol quote))
                 (List.filter isEquity quotes))))
    (fun _ => ret []).

(** [deleteMany({ where: { updatedAt: { lt: expiredTime } } })] on the rows. *)
Definition deleteExpired (expiredTime : Z) (table : list StockPriceRow)
  : list StockPriceRow :=
  List.filter (fun row => negb (row_updatedAt row <? expiredTime)) table.

Definition prisma_stockPrice_deleteMany (db_reply : Reply unit) (expiredTime : Z)
  : M (list StockPriceRow) Event unit :=
  emit (DbDeleteExpired expiredTime);;
  match db_reply with
  | Ok _ => fun table => (Resolved tt, deleteExpired expiredTime table, [])
  | Fails e => throw e
  end.

(** [clearExpiredCache]; the state is the [stock_prices] table, [now] is
    [Date.now()] and [db_reply] what the database client answers. *)
Definition clearExpiredCache (now : Z) (db_reply : Reply unit)
  : M (list StockPriceRow) Event unit :=
  try_catch
    (let expiredTime := now - CACHE_DURATION * 60 * 1000 in
     prisma_stockPrice_deleteMany db_reply expiredTime)
    (fun _ => ret tt).

End YahooFinanceAux.

(** ** The price API route: the handlers *)

Module PricesApi.
Import YahooFinance.

Inductive Data :=
| OnePrice (stockPrice : StockPrice)
| ManyPrices (stockPrices : list StockPrice)
| Symbols (searchResults : list string).

Record ApiResponse := {
  success : bool;
  data : option Data;
  api_error : option string;
  api_message : option string
}.

Record NextResponse := { status : Z; body : ApiResponse }.

(** The batch branches answer with the same body, the prices as [data]. *)
Definition ofBatch (r : PricesRoute.NextResponse) : NextResponse :=
  {| status := PricesRoute.status r;
     body := {| success := PricesRoute.success (PricesRoute.body r);
                data := option_map ManyPrices (PricesRoute.data (PricesRoute.body r));
                api_error := PricesRoute.api_error (PricesRoute.body r);
                api_message := PricesRoute.api_message (PricesRoute.body r) |} |}.

Definition failure (st : Z) (err : string) (msg : option string) : NextResponse :=
  ofBatch (PricesRoute.failure st err msg).

Definition succeed (d : Data) (msg : option string) : NextResponse :=
  {| status := 200;
     body := {| success := true; data := Some d;
                api_error := None; api_message := msg |} |}.

(** [singlePriceSchema]: [z.string().min(1).max(10)] *)
Definition singlePriceSchema (symbol : string) : bool :=
  PricesRoute.symbolSchema symbol.

(** [searchSchema]: [z.string().min(1).max(50)].  The schema counts UTF-16
    code units; [String.length] is their number for a string of the ASCII
    range. *)
Definition searchSchema (query : string) : bool :=
  (1 <=? String.length query)%nat && (String.length query <=? 50)%nat.

(** What a request observes: the view of each price lookup it makes, by
    position, and the view of the search it makes. *)
Record Env := {
  lookups : nat -> YahooFinance.Env;
  search : YahooFinanceAux.SearchEnv
}.

Abbreviation Handler := (M RateLimitStore YahooFinanceAux.Event).

Definition param_truthy (p : option string) : bool :=
  match p with Some s => JsString.truthy s | None => false end.

(** The single-symbol branch, shared in shape by [GET] and [POST]. *)
Definition singleSymbol (env : Env) (symbol : string) (useCache : bool)
    (msg : option string) : Handler NextResponse :=
  if negb (singlePriceSchema symbol) then
    ret (failure 400 "Invalid symbol parameter" None)
  else
    let normalizedSymbol := normalizeSymbol symbol in
    if negb (isValidStockSymbol normalizedSymbol) then
      ret (failure 400 ("Invalid stock symbol format: " ++ symbol) None)
    else
      let* stockPrice :=
        mapEvents YahooFinanceAux.Lookup
          (getStockPrice (lookups env 0%nat) normalizedSymbol useCache) in
      ret (succeed (OnePrice stockPrice) msg).

(** [GET]: [search], [symbol], [symbols] and [useCache] are the query
    parameters of the request, [None] when absent. *)
Definition GET (env : Env) (search symbol symbols useCache : option string)
  : Handler NextResponse :=
  let useCache := negb (bool_decide (useCache = Some "false")) in
  try_catch
    (if param_truthy search then
       (* Handle symbol search *)
       let query := default "" search in
       if negb (searchSchema query) then
         ret (failure 400 "Invalid search query" None)
       else
         let* searchResults :=
           YahooFinanceAux.searchStockSymbols (PricesApi.search env) query in
         ret (succeed (Symbols searchResults) None)
     else if param_truthy symbol then
       (* Handle single symbol price request *)
       singleSymbol env (default "" symbol) useCache None
     else if param_truthy symbols then
       (* Handle multiple symbols price request *)
       let* r := mapEvents YahooFinanceAux.Lookup
                   (PricesRoute.GET_symbols (lookups env) (default "" symbols) useCache) in
       ret (ofBatch r)
     else
       ret (failure 400 "Missing required parameters"
              (Some "Provide either symbol, symbols, or search parameter")))
    (fun error => ret (ofBatch (PricesRoute.onError error))).

(** The body of a [POST] request, as far as the handler reads it. *)
Record Body := {
  body_symbol : option string;
  body_symbols : option (list string)
}.

(** [POST]: refresh, with the cache bypassed. *)
Definition POST (env : Env) (body : Body) : Handler NextResponse :=
  try_catch
    (if param_truthy (body_symbol body) then
       (* Handle single symbol refresh *)
       singleSymbol env (default "" (body_symbol body)) false
         (Some "Price refreshed successfully")
     else
       match body_symbols body with
       | Some symbols =>
           (* Handle multiple symbols refresh *)
           let* r := mapEvents YahooFinanceAux.Lookup
                       (PricesRoute.POST_symbols (lookups env) symbols) in
           ret (ofBatch r)
       | None =>
           ret (failure 400 "Invalid request body"
                  (Some "Provide either symbol (string) or symbols (array)"))
       end)
    (fun error => ret (ofBatch (PricesRoute.onError error))).

End PricesApi.

(** [await request.json()]: the body read from the request, [None] when it
    has not the shape the handler expects; the read itself fails on a body
    that is not JSON. *)
Definition request_json {S E A} (body : Reply A) : M S E A :=
  match body with
  | Ok b => ret b
  | Fails e => throw e
  end.

(** ** The database helpers ([src/lib/db.ts]) *)

Module DbLib.

Section ErrorHandling.
Context {State Event : Type}.

(** [withDbErrorHandling], for any operation. *)
Definition withDbErrorHandling {A} (operation : M State Event A) : M State Event A :=
  try_catch operation
    (fun error =>
       (* Handle specific Prisma errors *)
       if JsString.includes "P2002" (message error) then
         throw (Error "A record with this data already exists")
       else if JsString.includes "P2025" (message error) then
         throw (Error "Record not found")
       else if JsString.includes "P2003" (message error) then
         throw (Error "Foreign key constraint failed")
       else throw (Error "Database operation failed")).
End ErrorHandling.

(** What a health probe observes: the answer to [SELECT 1] and the clock
    before the query, after it and when the report is stamped. *)
Record Env := {
  select1 : Reply unit;
  t_start : Z;
  t_end : Z;
  t_stamp : Z
}.

Inductive Event := QueryRaw.

(** The helpers keep no state of their own. *)
Abbreviation Async := (M unit Event).

Definition prisma_queryRaw (env : Env) : Async unit :=
  emit QueryRaw;;
  match select1 env with
  | Ok _ => ret tt
  | Fails e => throw e
  end.

Definition testDbConnection (env : Env) : Async bool :=
  try_catch
    (prisma_queryRaw env;; ret true)
    (fun _ => ret false).

(** The report of [getDbHealth]; [health_timestamp] is the instant that the
    source renders with [toISOString]. *)
Record Health := {
  health_status : string;
  responseTime : option Z;
  health_error : option string;
  health_timestamp : Z
}.

Definition getDbHealth (env : Env) : Async Health :=
  try_catch
    (let startTime := t_start env in
     prisma_queryRaw env;;
     let responseTime := t_end env - startTime in
     ret {| health_status := "healthy"; responseTime := Some responseTime;
            health_error := None; health_timestamp := t_stamp env |})
    (fun error =>
       ret {| health_status := "unhealthy"; responseTime := None;
              health_error := Some (message error);
              health_timestamp := t_stamp env |}).

Definition initializeDatabase (env : Env) : Async unit :=
  try_catch
    ((* Test connection first *)
     let* isConnected := testDbConnection env in
     if negb isConnected then throw (Error "Cannot connect to database")
     else ret tt)
    (fun error => throw error).

End DbLib.

(** ** The alerts route: POST and PUT *)

Module AlertsApi.
Import AlertsRoute.

(** [CreateAlertForm] *)
Record CreateAlertForm := {
  form_symbol : string;
  form_targetPrice : Q;
  form_condition : AlertCondition
}.

(** [UpdateAlertForm]: every field but [id] is optional. *)
Record UpdateAlertForm := {
  update_id : string;
  update_symbol : option string;
  update_targetPrice : option Q;
  update_condition : option AlertCondition;
  update_isActive : option bool
}.

(** The [message] of a response: a text of the handler, or the issues the
    schema reports, whose wording belongs to the validation library. *)
Inductive Message :=
| Text (s : string)
| ValidationIssues.

Record Response := {
  status : Z;
  success : bool;
  data : option Alert;
  api_error : option string;
  api_message : option Message
}.

Definition failure (st : Z) (err : string) (msg : option Message) : Response :=
  {| status := st; success := false; data := None;
     api_error := Some err; api_message := msg |}.

(** What one request observes: what the database client answers to each
    statement, the id and the time the database gives a new row, the time a
    write is stamped with, and the error the client raises when the row to
    update is missing. *)
Record Env := {
  find_reply : Reply unit;      (* findFirst, findUnique *)
  write_reply : Reply unit;     (* create, update *)
  new_id : string;              (* cuid() *)
  t_created : Z;                (* now() *)
  t_write : Z;                  (* @updatedAt *)
  not_found : JsError           (* raised by update when no row has the id *)
}.

Inductive Event :=
| AlertFindFirst (symbol : string) (targetPrice : Q) (condition : AlertCondition)
| AlertCreate (symbol : string) (targetPrice : Q) (condition : AlertCondition)
| AlertFindUnique (id : string)
| AlertUpdate (form : UpdateAlertForm).

Abbreviation Handler := (M Db Event).

(** [createAlertSchema.safeParse(body)] *)
Definition createAlertSchema (body : option CreateAlertForm) : option CreateAlertForm :=
  match body with
  | Some form =>
      if PricesRoute.symbolSchema (form_symbol form)
         && negb (Qle_bool (form_targetPrice form) 0)
      then Some form else None
  | None => None
  end.

(** [updateAlertSchema.safeParse(body)] *)
Definition updateAlertSchema (body : option UpdateAlertForm) : option UpdateAlertForm :=
  match body with
  | Some form =>
      if match update_symbol form with
         | Some s => PricesRoute.symbolSchema s
         | None => true
         end
         && match update_targetPrice form with
            | Some p => negb (Qle_bool p 0)
            | None => true
            end
      then Some form else None
  | None => None
  end.

Definition condition_eqb (a b : AlertCondition) : bool :=
  match a, b with
  | ABOVE, ABOVE | BELOW, BELOW => true
  | _, _ => false
  end.

(** [findFirst({ where: { symbol, targetPrice, condition, isActive: true } })] *)
Definition findFirst (sym : string) (p : Q) (c : AlertCondition) (db : Db)
  : option Alert :=
  List.find (fun a => String.eqb (alert_symbol a) sym
                      && Qeq_bool (targetPrice a) p
                      && condition_eqb (condition a) c
                      && isActive a)
    (alerts db).

Definition prisma_alert_findFirst (env : Env) (sym : string) (p : Q)
    (c : AlertCondition) : Handler (option Alert) :=
  emit (AlertFindFirst sym p c);;
  match find_reply env with
  | Ok _ => fun db => (Resolved (findFirst sym p c db), db, [])
  | Fails e => throw e
  end.

(** The row [create({ data: { symbol, targetPrice, condition } })] inserts:
    the defaults of the schema fill the other columns. *)
Definition created (env : Env) (sym : string) (p : Q) (c : AlertCondition) : Alert :=
  {| alert_id := new_id env; alert_symbol := sym; targetPrice := p;
     condition := c; isActive := true;
     alert_createdAt := t_created env; alert_updatedAt := t_write env |}.

Definition prisma_alert_create (env : Env) (sym : string) (p : Q)
    (c : AlertCondition) : Handler Alert :=
  emit (AlertCreate sym p c);;
  match write_reply env with
  | Ok _ => fun db =>
      (Resolved (created env sym p c),
       {| alerts := (alerts db ++ [created env sym p c])%list;
          triggered_alerts := triggered_alerts db |}, [])
  | Fails e => throw e
  end.

Definition POST (env : Env) (body : Reply (option CreateAlertForm))
  : Handler Response :=
  try_catch
    (let* body := request_json body in
     (* Validate request body *)
     match createAlertSchema body with
     | None => ret (failure 400 "Invalid request data" (Some ValidationIssues))
     | Some form =>
         let symbol := form_symbol form in
         let targetPrice := form_targetPrice form in
         let condition := form_condition form in
         let normalizedSymbol := normalizeSymbol symbol in
         (* Validate stock symbol format *)
         if negb (isValidStockSymbol normalizedSymbol) then
           ret (failure 400 ("Invalid stock symbol format: " ++ symbol) None)
         else
           (* Check if alert already exists for this symbol and price *)
           let* existingAlert :=
             prisma_alert_findFirst env normalizedSymbol targetPrice condition in
           match existingAlert with
           | Some _ =>
               ret (failure 409
                      "An active alert with the same parameters already exists" None)
           | None =>
               (* Create new alert *)
               let* newAlert :=
                 DbLib.withDbErrorHandling
                   (prisma_alert_create env normalizedSymbol targetPrice condition) in
               ret {| status := 201; success := true; data := Some newAlert;
                      api_error := None;
                      api_message := Some (Text "Alert created successfully") |}
           end
     end)
    (fun error => ret (failure 500 (message error) None)).

(** [findUnique({ where: { id } })] *)
Definition findUnique (id : string) (db : Db) : option Alert :=
  List.find (fun a => String.eqb (alert_id a) id) (alerts db).

Definition prisma_alert_findUnique (env : Env) (id : string)
  : Handler (option Alert) :=
  emit (AlertFindUnique id);;
  match find_reply env with
  | Ok _ => fun db => (Resolved (findUnique id db), db, [])
  | Fails e => throw e
  end.

(** The row after [update({ where: { id }, data })]: a field the data does
    not carry keeps its value. *)
Definition updated (env : Env) (data : UpdateAlertForm) (a : Alert) : Alert :=
  {| alert_id := alert_id a;
     alert_symbol := default (alert_symbol a) (update_symbol data);
     targetPrice := default (targetPrice a) (update_targetPrice data);
     condition := default (condition a) (update_condition data);
     isActive := default (isActive a) (update_isActive data);
     alert_createdAt := alert_createdAt a;
     alert_updatedAt := t_write env |}.

(** The table after the update of the row with the given id. *)
Fixpoint updateRow (env : Env) (data : UpdateAlertForm) (rows : list Alert)
  : list Alert :=
  match rows with
  | [] => []
  | a :: rest =>
      if String.eqb (alert_id a) (update_id data)
      then updated env data a :: rest
      else a :: updateRow env data rest
  end.

(** [prisma.alert.update]; the client raises when no row has the id. *)
Definition prisma_alert_update (env : Env) (data : UpdateAlertForm)
  : Handler Alert :=
  emit (AlertUpdate data);;
  match write_reply env with
  | Ok _ => fun db =>
      match findUnique (update_id data) db with
      | Some a =>
          (Resolved (updated env data a),
           {| alerts := updateRow env data (alerts db);
              triggered_alerts := triggered_alerts db |}, [])
      | None => (Rejected (not_found env), db, [])
      end
  | Fails e => throw e
  end.

(** The update data with its symbol replaced. *)
Definition with_symbol (s : option string) (form : UpdateAlertForm) : UpdateAlertForm :=
  {| update_id := update_id form; update_symbol := s;
     update_targetPrice := update_targetPrice form;
     update_condition := update_condition form;
     update_isActive := update_isActive form |}.

Definition PUT (env : Env) (body : Reply (option UpdateAlertForm))
  : Handler Response :=
  try_catch
    (let* body := request_json body in
     (* Validate request body *)
     match updateAlertSchema body with
     | None => ret (failure 400 "Invalid request data" (Some ValidationIssues))
     | Some form =>
         let id := update_id form in
         (* Normalize symbol if provided *)
         let updateData :=
           match update_symbol form with
           | Some s => if JsString.truthy s
                       then with_symbol (Some (normalizeSymbol s)) form
                       else form
           | None => form
           end in
         if match update_symbol form with
            | Some s => JsString.truthy s
                        && negb (isValidStockSymbol (normalizeSymbol s))
            | None => false
            end
         then
           (* Validate stock symbol format *)
           ret (failure 400 ("Invalid stock symbol format: "
                             ++ default "" (update_symbol updateData)) None)
         else
           (* Check if alert exists *)
           let* existingAlert := prisma_alert_findUnique env id in
           match existingAlert with
           | None => ret (failure 404 "Alert not found" None)
           | Some _ =>
               (* Update alert *)
               let* updatedAlert :=
                 DbLib.withDbErrorHandling (prisma_alert_update env updateData) in
               ret {| status := 200; success := true; data := Some updatedAlert;
                      api_error := None;
                      api_message := Some (Text "Alert updated successfully") |}
           end
     end)
    (fun error => ret (failure 500 (message error) None)).

End AlertsApi.

(** ** The notifications route: registration of a device token *)

Module NotificationsApi.

(** The body of the request. *)
Record TokenForm := {
  form_token : string;
  form_userId : option string
}.

Record Response := {
  status : Z;
  success : bool;
  data_id : option string;              (* data: { id } *)
  api_error : option string;
  api_message : option AlertsApi.Message
}.

Definition failure (st : Z) (err : string) (msg : option AlertsApi.Message) : Response :=
  {| status := st; success := false; data_id := None;
     api_error := Some err; api_message := msg |}.

(** A row of the [device_tokens] table: the device token with the two time
    stamps of the schema. *)
Record DeviceTokenRow := {
  deviceToken : DeviceToken;
  device_createdAt : Z;                 (* createdAt DateTime @default(now()) *)
  device_updatedAt : Z                  (* updatedAt DateTime @updatedAt *)
}.

(** What one registration observes: what the database client answers, the
    id and the creation time the database gives a new row, and the time the
    row is stamped with ([new Date()] in the update, [@updatedAt] in the
    create). *)
Record Env := {
  upsert_reply : Reply unit;    (* prisma.deviceToken.upsert *)
  new_id : string;              (* cuid() *)
  t_created : Z;                (* now() *)
  t_updated : Z                 (* new Date() *)
}.

Inductive Event :=
| DeviceTokenUpsert (token : string) (userId : option string).

(** The state is the [device_tokens] table. *)
Abbreviation Handler := (M (list DeviceTokenRow) Event).

(** [tokenSchema.safeParse(body)] *)
Definition tokenSchema (body : option TokenForm) : option TokenForm :=
  match body with
  | Some form => if (1 <=? String.length (form_token form))%nat then Some form else None
  | None => None
  end.

(** The table after [upsert({ where: { token }, update, create })], and the
    row written.  The update sets [isActive] and [updatedAt] and, when the
    request names one, the user: an [undefined] [userId] leaves the column
    as it is.  The create fills the other columns with their defaults. *)
Fixpoint upsert (env : Env) (form : TokenForm) (rows : list DeviceTokenRow)
  : DeviceTokenRow * list DeviceTokenRow :=
  match rows with
  | [] =>
      let row := {| deviceToken := {| device_id := new_id env; token := form_token form;
                                 userId := form_userId form;
                                 device_isActive := true |};
                    device_createdAt := t_created env;
                    device_updatedAt := t_updated env |} in
      (row, [row])
  | d :: rest =>
      if String.eqb (token (deviceToken d)) (form_token form) then
        let row := {| deviceToken := {| device_id := device_id (deviceToken d);
                                   token := token (deviceToken d);
                                   userId := match form_userId form with
                                             | Some u => Some u
                                             | None => userId (deviceToken d)
                                             end;
                                   device_isActive := true |};
                      device_createdAt := device_createdAt d;
                      device_updatedAt := t_updated env |} in
        (row, row :: rest)
      else
        let '(row, rest') := upsert env form rest in (row, d :: rest')
  end.

Definition prisma_deviceToken_upsert (env : Env) (form : TokenForm)
  : Handler DeviceTokenRow :=
  emit (DeviceTokenUpsert (form_token form) (form_userId form));;
  match upsert_reply env with
  | Ok _ => fun rows => let '(row, rows') := upsert env form rows in
                        (Resolved row, rows', [])
  | Fails e => throw e
  end.

Definition POST (env : Env) (body : Reply (option TokenForm)) : Handler Response :=
  try_catch
    (let* body := request_json body in
     (* Validate request body *)
     match tokenSchema body with
     | None => ret (failure 400 "Invalid request data" (Some AlertsApi.ValidationIssues))
     | Some form =>
         (* Save or update device token *)
         let* row :=
           DbLib.withDbErrorHandling (prisma_deviceToken_upsert env form) in
         ret {| status := 200; success := true;
                data_id := Some (device_id (deviceToken row));
                api_error := None;
                api_message :=
                  Some (AlertsApi.Text "Device token registered successfully") |}
     end)
    (fun error => ret (failure 500 (message error) None)).

End NotificationsApi.

(** ** The card of a triggered alert ([src/components/TriggeredAlertCard.tsx]) *)

Module TriggeredAlertCard.

(** [getTimeAgo]: [now] and [date] are the two instants in milliseconds.
    [Math.floor] of a quotient is [Z.div], [%] is the remainder that takes
    the sign of the dividend, [Z.rem].  The quotients of the source are
    computed in binary64, where they have the same integer part as long as
    the two instants are less than 2^32 hours apart. *)
Definition getTimeAgo (now date : Z) : string :=
  let diff := now - date in
  let hours := diff / (1000 * 60 * 60) in
  let minutes := Z.rem diff (1000 * 60 * 60) / (1000 * 60) in
  if hours >? 0 then
    AlertsRoute.decimal hours ++ "h " ++ AlertsRoute.decimal minutes ++ "m ago"
  else AlertsRoute.decimal minutes ++ "m ago".

End TriggeredAlertCard.

(** ** Push notifications to one device (the Firebase helpers, server side) *)

Module FirebaseAux.
Import Firebase.

(** What a single send observes: the view of the bulk dispatch, and what the
    gateway answers to the one message.  The message is the one of the bulk
    dispatch, with the token it is addressed to. *)
Record Env := {
  base : Firebase.Env;
  send : string -> Message -> Reply unit      (* messaging.send *)
}.

Inductive Event :=
| Admin (e : Firebase.Event)
| Send (token : string) (message : Message).

Definition messaging_send (env : Env) (token : string) (message : Message)
  : M World Event unit :=
  emit (Send token message);;
  match send env token message with
  | Ok _ => ret tt
  | Fails e => throw e
  end.

Definition sendPushNotification (env : Env) (token : string)
    (payload : NotificationPayload) : M World Event bool :=
  if window_defined (base env) then
    throw (Error "sendPushNotification should only be called on the server side")
  else
    try_catch
      (mapEvents Admin (getFirebaseAdmin (base env));;
       let message := {| notification_title := title payload;
                         notification_body := body payload;
                         message_data := data payload;
                         webpush_title := title payload;
                         webpush_body := body payload |} in
       messaging_send env token message;;
       ret true)
      (fun _ => ret false).

End FirebaseAux.

(** ** Auxiliary definitions for the further statements *)

Module Reference.
Import YahooFinance.

(** Not a capital letter. *)
Definition notUpper (c : ascii) : bool := negb (JsString.isUpper c).

(** What the cache yields for a normalised symbol: the entry of its row when
    the read succeeds and the row is fresh. *)
Definition cacheLookup (env : Env) (K : string) : option StockPrice :=
  match db_read env with
  | Ok table =>
      match findUnique table K with
      | Some row =>
          if isCacheValid (t_cache env) (row_updatedAt row)
          then Some (Statements.cachedEntry row) else None
      | None => None
      end
  | Fails _ => None
  end.

(** The message a failed request to the endpoint is reported with. *)
Definition upstreamMessage (e : JsError) (K : string) : string :=
  if isAxiosError e && bool_decide (response_status e = Some 404) then
    "Stock symbol not found: " ++ K
  else if isAxiosError e && bool_decide (code e = Some "ECONNABORTED") then
    "Request timeout - Yahoo Finance API is not responding"
  else "Failed to fetch price for " ++ K.

(** The price the reply of the endpoint quotes, if it quotes one. *)
Definition quoted (data : ChartData) : option Q :=
  match chart_result0 data with
  | Some result =>
      match meta result with
      | Some m =>
          match JsNumber.or (regularMarketPrice m) (previousClose m) with
          | Some p => if Qeq_bool p 0 then None else Some p
          | None => None
          end
      | None => None
      end
  | None => None
  end.

(** The outcome of a fetch for a normalised symbol. *)
Definition fetched (env : Env) (K : string) : outcome StockPrice :=
  match http env with
  | Ok data =>
      match quoted data with
      | Some p => Resolved {| symbol := K; price := p;
                              timestamp := t_fetch env; error := None |}
      | None => Rejected (Error ("Failed to fetch price for " ++ K))
      end
  | Fails e => Rejected (Error (upstreamMessage e K))
  end.

(** The operations of a fetch: the request, and the upsert when a price came. *)
Definition fetchEvents (env : Env) (K : string) : list Event :=
  HttpGet K ::
  match fetched env K with
  | Resolved sp => [DbUpsert K (price sp) (t_upsert env)]
  | Rejected _ => []
  end.

(** The table after the operations of a lookup with the view [env], in
    order: an upsert writes its row when the database accepts it
    ([db_upsert env] answers), and leaves the table as it is when the
    database fails; the other operations do not write. *)
Definition applyEvent (env : Env) (table : list StockPriceRow) (ev : Event)
  : list StockPriceRow :=
  match ev with
  | DbUpsert K p t =>
      match db_upsert env with
      | Ok _ => upsert table K p t
      | Fails _ => table
      end
  | _ => table
  end.

Definition applyEvents (env : Env) (table : list StockPriceRow) (evs : list Event)
  : list StockPriceRow :=
  fold_left (applyEvent env) evs table.

(** The same view of the world, with another table for the cache read and
    other readings of the clock. *)
Definition later (table : list StockPriceRow) (tl tc : Z) (env : Env) : Env :=
  {| t_limit := tl; db_read := Ok table; t_cache := tc;
     http := http env; t_fetch := t_fetch env; db_upsert := db_upsert env;
     t_upsert := t_upsert env; t_error := t_error env |}.

(** Every symbol of the list is well formed once normalised. *)
Definition allValid (symbols : list string) : bool :=
  forallb (fun s => isValidStockSymbol (normalizeSymbol s)) symbols.

(** A read of the price cache. *)
Definition isCacheRead (ev : Event) : bool :=
  match ev with DbFindUnique _ => true | _ => false end.

(** A blank of the ASCII range: TAB, LF, VT, FF, CR or SPACE. *)
Definition blank (c : ascii) : bool :=
  existsb (N.eqb (N_of_ascii c)) [9; 10; 11; 12; 13; 32]%N.

(** [core] is [s] trimmed: [s] without the blanks at its two ends, and with
    no blank left at either end. *)
Definition trimmedTo (s core : string) : Prop :=
  exists l r,
    s = (l ++ core ++ r)%string
    /\ Forall (fun c => blank c = true) (list_ascii_of_string l)
    /\ Forall (fun c => blank c = true) (list_ascii_of_string r)
    /\ (forall c rest, core = String c rest -> blank c = false)
    /\ (forall front c, core = (front ++ String c EmptyString)%string -> blank c = false).

(** The capital of a small letter of the ASCII range; any other character of
    the range as it is. *)
Definition capital (c : ascii) : ascii :=
  let n := N_of_ascii c in
  if ((97 <=? n) && (n <=? 122))%N then ascii_of_N (n - 32) else c.

(** [K] is [core] uppercased, character by character. *)
Definition uppercasedTo (core K : string) : Prop :=
  list_ascii_of_string K = List.map capital (list_ascii_of_string core).


(** A letter of the ASCII range. *)
Definition isLetter (c : ascii) : bool := JsString.isLower c || JsString.isUpper c.

(** A character of the ASCII range. *)
Definition isAscii (c : ascii) : bool := (N_of_ascii c <? 128)%N.

(** The ids a DELETE request names: the [id] parameter when there is one,
    otherwise the non-blank pieces of [ids], trimmed. *)
Definition requestedIds (singleId bulkIds : option string) : list string :=
  if AlertsRoute.param_truthy singleId then [default "" singleId]
  else if AlertsRoute.param_truthy bulkIds then
    List.filter JsString.truthy
      (List.map JsString.trim (JsString.split "," (default "" bulkIds)))
  else [].

(** Every triggered alert references an alert of the table. *)
Definition referentialIntegrity (db : AlertsRoute.Db) : Prop :=
  forall t, In t (AlertsRoute.triggered_alerts db) ->
            exists a, In a (AlertsRoute.alerts db) /\ alert_id a = alertId t.

(** The messages [withDbErrorHandling] raises. *)
Definition dbMessages : list string :=
  ["A record with this data already exists"; "Record not found";
   "Foreign key constraint failed"; "Database operation failed"].

(** The update data of a request: its symbol normalised. *)
Definition updateDataOf (form : AlertsApi.UpdateAlertForm)
  : AlertsApi.UpdateAlertForm :=
  AlertsApi.with_symbol (option_map normalizeSymbol (AlertsApi.update_symbol form)) form.

(** The token of a row of the [device_tokens] table. *)
Definition tokenOf (d : NotificationsApi.DeviceTokenRow) : string :=
  token (NotificationsApi.deviceToken d).

(** The row registered under a token, if any. *)
Definition registered (tok : string) (rows : list NotificationsApi.DeviceTokenRow)
  : option NotificationsApi.DeviceTokenRow :=
  List.find (fun d => String.eqb (tokenOf d) tok) rows.

(** The row with its update time replaced when it is the row of the token. *)
Definition restamped (tok : string) (t : Z) (d : NotificationsApi.DeviceTokenRow)
  : NotificationsApi.DeviceTokenRow :=
  if String.eqb (tokenOf d) tok
  then {| NotificationsApi.deviceToken := NotificationsApi.deviceToken d;
          NotificationsApi.device_createdAt := NotificationsApi.device_createdAt d;
          NotificationsApi.device_updatedAt := t |}
  else d.

End Reference.

(** ** Further concrete inputs *)

Module MoreExamples.
(** The database answers; the next row gets the id "a3". *)
Definition alerts_env : AlertsApi.Env :=
  {| AlertsApi.find_reply := Ok tt; AlertsApi.write_reply := Ok tt;
     AlertsApi.new_id := "a3"; AlertsApi.t_created := 20; AlertsApi.t_write := 21;
     AlertsApi.not_found := Error "Record to update not found." |}.


(** An update that carries only the given fields. *)
Definition update_of (id : string) (s : option string) (active : option bool)
  : AlertsApi.UpdateAlertForm :=
  {| AlertsApi.update_id := id; AlertsApi.update_symbol := s;
     AlertsApi.update_targetPrice := None; AlertsApi.update_condition := None;
     AlertsApi.update_isActive := active |}.

(** The database answers; the next row gets the id "d4", and rows are
    stamped with the given time. *)
Definition tokens_env (t : Z) : NotificationsApi.Env :=
  {| NotificationsApi.upsert_reply := Ok tt; NotificationsApi.new_id := "d4";
     NotificationsApi.t_created := t; NotificationsApi.t_updated := t |}.

(** Three registered devices, written at time 0. *)
Definition token_rows : list NotificationsApi.DeviceTokenRow :=
  List.map (fun d => {| NotificationsApi.deviceToken := d;
                        NotificationsApi.device_createdAt := 0;
                        NotificationsApi.device_updatedAt := 0 |})
    (Firebase.deviceTokens Examples.world3).

Definition token_form (tok : string) (u : option string) : NotificationsApi.TokenForm :=
  {| NotificationsApi.form_token := tok; NotificationsApi.form_userId := u |}.
End MoreExamples.

(** * Properties *)

(** ** Strings and symbols *)

Section StringFacts.
Import JsString.

Lemma upperChar_idem c : upperChar (upperChar c) = upperChar c.
Proof. destruct c as [[] [] [] [] [] [] [] []]; reflexivity. Qed.

Lemma isWhiteSpace_upperChar c : isWhiteSpace (upperChar c) = isWhiteSpace c.
Proof. destruct c as [[] [] [] [] [] [] [] []]; reflexivity. Qed.

Lemma isUpper_upperChar c : isUpper c = true -> upperChar c = c.
Proof. destruct c as [[] [] [] [] [] [] [] []]; (reflexivity || discriminate). Qed.

Lemma toUpperCase_idem s : toUpperCase (toUpperCase s) = toUpperCase s.
Proof. induction s as [|c s IH]; simpl; [reflexivity|]. by rewrite upperChar_idem, IH. Qed.

Lemma trimStart_toUpperCase s : trimStart (toUpperCase s) = toUpperCase (trimStart s).
Proof.
  induction s as [|c s IH]; simpl; [reflexivity|].
  rewrite isWhiteSpace_upperChar. destruct (isWhiteSpace c); [exact IH | reflexivity].
Qed.

Lemma trimEnd_toUpperCase s : trimEnd (toUpperCase s) = toUpperCase (trimEnd s).
Proof.
  induction s as [|c s IH]; simpl; [reflexivity|].
  rewrite IH, isWhiteSpace_upperChar.
  destruct (trimEnd s); simpl; [destruct (isWhiteSpace c)|]; reflexivity.
Qed.

Lemma trim_toUpperCase s : trim (toUpperCase s) = toUpperCase (trim s).
Proof. unfold trim. by rewrite trimStart_toUpperCase, trimEnd_toUpperCase. Qed.


Lemma trimStart_noLeadingSpace s : noLeadingSpace (trimStart s).
Proof.
  induction s as [|c s IH]; simpl; [exact I|].
  destruct (isWhiteSpace c) eqn:E; [exact IH | exact E].
Qed.

Lemma trimStart_fixed s : noLeadingSpace s -> trimStart s = s.
Proof. destruct s as [|c s]; simpl; [reflexivity|]. by intros ->. Qed.

Lemma trimEnd_noLeadingSpace s : noLeadingSpace s -> noLeadingSpace (trimEnd s).
Proof.
  destruct s as [|c s]; simpl; [done|]. intros E.
  destruct (trimEnd s); simpl; [rewrite E|]; simpl; exact E.
Qed.

Lemma trimEnd_idem s : trimEnd (trimEnd s) = trimEnd s.
Proof.
  induction s as [|c s IH]; simpl; [reflexivity|].
  destruct (trimEnd s) as [|d t] eqn:E.
  - destruct (isWhiteSpace c) eqn:W; simpl; [reflexivity | by rewrite W].
  - simpl in *. rewrite IH. reflexivity.
Qed.

Lemma trim_idem s : trim (trim s) = trim s.
Proof.
  unfold trim.
  rewrite (trimStart_fixed (trimEnd (trimStart s))).
  - apply trimEnd_idem.
  - apply trimEnd_noLeadingSpace, trimStart_noLeadingSpace.
Qed.

Lemma all_isUpper_toUpperCase s : all isUpper s = true -> toUpperCase s = s.
Proof.
  induction s as [|c s IH]; simpl; [reflexivity|].
  intros [Hc Hs]%andb_prop. by rewrite isUpper_upperChar, IH.
Qed.
End StringFacts.

Example normalizeSymbol_aapl : normalizeSymbol "  aapl " = "AAPL".
Proof. reflexivity. Qed.

Example split_ids : JsString.split "," "a,b,,c," = ["a"; "b"; ""; "c"; ""].
Proof. reflexivity. Qed.

Lemma normalizeSymbol_idem s : normalizeSymbol (normalizeSymbol s) = normalizeSymbol s.
Proof.
  unfold normalizeSymbol.
  by rewrite trim_toUpperCase, trim_idem, toUpperCase_idem.
Qed.

Lemma isValidStockSymbol_regex s :
  isValidStockSymbol (normalizeSymbol s) = symbolRegex_test (normalizeSymbol s).
Proof. unfold isValidStockSymbol, normalizeSymbol. by rewrite toUpperCase_idem. Qed.

Section Normalisation.
Import JsString Reference.








End Normalisation.

Section PriceCache.
Import YahooFinance Statements.

Lemma findUnique_symbol table k row :
  findUnique table k = Some row -> row_symbol row = k.
Proof.
  unfold findUnique. intros H. apply find_some in H as [_ H].
  by apply String.eqb_eq.
Qed.

(** The cache read never rejects. *)
Lemma getCachedPrice_run env k store :
  getCachedPrice env k store =
    (Resolved
       match db_read env with
       | Ok table =>
           match findUnique table (normalizeSymbol k) with
           | Some row =>
               if isCacheValid (t_cache env) (row_updatedAt row)
               then Some (cachedEntry row) else None
           | None => None
           end
       | Fails _ => None
       end,
     store, [DbFindUnique (normalizeSymbol k)]).
Proof.
  unfold getCachedPrice, try_catch, prisma_stockPrice_findUnique, bind, emit, ret, throw.
  destruct (db_read env) as [table|e]; simpl; [|reflexivity].
  destruct (findUnique table (normalizeSymbol k)) as [row|]; simpl; [|reflexivity].
  destruct (isCacheValid _ _); reflexivity.
Qed.

Lemma updatePriceCache_run env k p store :
  updatePriceCache env k p store =
    (Resolved tt, store, [DbUpsert (normalizeSymbol k) p (t_upsert env)]).
Proof.
  unfold updatePriceCache, try_catch, prisma_stockPrice_upsert, bind, emit, ret, throw.
  destruct (db_upsert env); reflexivity.
Qed.

Lemma fetchPriceFromAPI_symbol env k store sp :
  result_of (fetchPriceFromAPI env k store) = Resolved sp ->
  symbol sp = normalizeSymbol k.
Proof.
  unfold result_of, fetchPriceFromAPI, try_catch, bind at 1.
  unfold axios_get, bind, emit, ret, throw.
  destruct (http env) as [data|e]; simpl.
  - destruct (chart_result0 data) as [result|]; simpl.
    + destruct (meta result) as [m|]; simpl.
      * destruct (JsNumber.or _ _) as [p|]; simpl.
        -- destruct (Qeq_bool p 0); simpl.
           ++ repeat case_match; simpl; discriminate.
           ++ rewrite updatePriceCache_run. simpl. by intros [= <-].
        -- repeat case_match; simpl; discriminate.
      * repeat case_match; simpl; discriminate.
    + repeat case_match; simpl; discriminate.
  - destruct (isAxiosError e && bool_decide (response_status e = Some 404)); simpl;
      [discriminate|].
    destruct (isAxiosError e && bool_decide (code e = Some "ECONNABORTED")); simpl;
      discriminate.
Qed.
End PriceCache.

Section PriceLookup.
Import YahooFinance Statements Examples.

Lemma isCacheValid_iff now updatedAt :
  isCacheValid now updatedAt = true <-> now - updatedAt < CACHE_DURATION * 60 * 1000.
Proof. unfold isCacheValid. rewrite Z.ltb_lt. lia. Qed.

Lemma fetchPriceFromAPI_db_read r env k :
  fetchPriceFromAPI (with_db_read r env) k = fetchPriceFromAPI env k.
Proof. reflexivity. Qed.

Lemma fetchPriceFromAPI_db_upsert r env k store :
  fetchPriceFromAPI (with_db_upsert r env) k store = fetchPriceFromAPI env k store.
Proof.
  unfold fetchPriceFromAPI, try_catch, bind, axios_get, emit, ret, throw. simpl.
  destruct (http env) as [data|e]; simpl; [|reflexivity].
  destruct (chart_result0 data) as [result|]; simpl; [|reflexivity].
  destruct (meta result) as [m|]; simpl; [|reflexivity].
  destruct (JsNumber.or _ _) as [p|]; simpl; [|reflexivity].
  destruct (Qeq_bool p 0); simpl; [reflexivity|].
  by rewrite !updatePriceCache_run.
Qed.

Lemma getStockPrice_db_upsert r env symbol useCache store :
  getStockPrice (with_db_upsert r env) symbol useCache store
  = getStockPrice env symbol useCache store.
Proof.
  unfold getStockPrice.
  destruct (negb (isValidStockSymbol (normalizeSymbol symbol))); [reflexivity|].
  unfold bind at 1 3. simpl.
  destruct (checkRateLimit _ _ _) as [[[allowed|e] store'] t]; [|reflexivity].
  destruct allowed; simpl; [|reflexivity].
  unfold bind. destruct useCache.
  - rewrite !getCachedPrice_run. simpl.
    match goal with
    | |- context [match ?c with Some _ => ret _ | None => _ end] => destruct c
    end; [reflexivity|].
    by rewrite fetchPriceFromAPI_db_upsert.
  - unfold ret. by rewrite fetchPriceFromAPI_db_upsert.
Qed.

Lemma getStockPrice_db_read_fails e env symbol useCache store :
  getStockPrice (with_db_read (Fails e) env) symbol useCache store
  = getStockPrice (with_db_read (Ok []) env) symbol useCache store.
Proof.
  unfold getStockPrice.
  destruct (negb (isValidStockSymbol (normalizeSymbol symbol))); [reflexivity|].
  unfold bind at 1 3. simpl.
  destruct (checkRateLimit _ _ _) as [[[allowed|e'] store'] t]; [|reflexivity].
  destruct allowed; simpl; [|reflexivity].
  unfold bind. destruct useCache; [|reflexivity].
  by rewrite !getCachedPrice_run.
Qed.

Lemma getStockPrice_invalid env symbol useCache store :
  isValidStockSymbol (normalizeSymbol symbol) = false ->
  getStockPrice env symbol useCache store
  = (Rejected (Error ("Invalid stock symbol format: " ++ symbol)), store, []).
Proof. unfold getStockPrice. by intros ->. Qed.

(** A resolved lookup carries the normalised symbol. *)
Lemma getStockPrice_resolved env s useCache store sp :
  result_of (getStockPrice env s useCache store) = Resolved sp ->
  isValidStockSymbol (normalizeSymbol s) = true /\ symbol sp = normalizeSymbol s.
Proof.
  unfold getStockPrice.
  destruct (isValidStockSymbol (normalizeSymbol s)) eqn:Hvalid; simpl; [|discriminate].
  unfold bind at 1.
  destruct (checkRateLimit _ _ _) as [[[allowed|e] store'] t]; [|discriminate].
  destruct allowed; simpl; [|discriminate].
  unfold bind. destruct useCache.
  - rewrite getCachedPrice_run, normalizeSymbol_idem.
    destruct (db_read env) as [table|e]; simpl.
    + destruct (findUnique table (normalizeSymbol s)) as [row|] eqn:Hrow; simpl.
      * destruct (isCacheValid _ _); simpl.
        -- unfold result_of. simpl. intros [= <-]. split; [done|].
           by apply findUnique_symbol in Hrow.
        -- destruct (fetchPriceFromAPI _ _ _) as [[r s2] t2] eqn:Hfetch.
           unfold result_of. simpl. intros ->. split; [done|].
           rewrite <- (normalizeSymbol_idem s).
           eapply fetchPriceFromAPI_symbol. by rewrite Hfetch.
      * destruct (fetchPriceFromAPI _ _ _) as [[r s2] t2] eqn:Hfetch.
        unfold result_of. simpl. intros ->. split; [done|].
        rewrite <- (normalizeSymbol_idem s).
        eapply fetchPriceFromAPI_symbol. by rewrite Hfetch.
    + destruct (fetchPriceFromAPI _ _ _) as [[r s2] t2] eqn:Hfetch.
      unfold result_of. simpl. intros ->. split; [done|].
      rewrite <- (normalizeSymbol_idem s).
      eapply fetchPriceFromAPI_symbol. by rewrite Hfetch.
  - unfold ret.
    destruct (fetchPriceFromAPI _ _ _) as [[r s2] t2] eqn:Hfetch.
    unfold result_of. simpl. intros ->. split; [done|].
    rewrite <- (normalizeSymbol_idem s).
    eapply fetchPriceFromAPI_symbol. by rewrite Hfetch.
Qed.



(** The normalised form of a padded, lower-case symbol, character by
    character. *)
Example normalizeSymbol_trimmed_and_uppercased :
  Reference.trimmedTo "  aapl " "aapl" /\ Reference.uppercasedTo "aapl" "AAPL"
  /\ normalizeSymbol "  aapl " = "AAPL".
Proof.
  split; [|split; reflexivity].
  exists "  ", " ". split; [reflexivity|].
  split; [by repeat constructor|]. split; [by repeat constructor|].
  split.
  - by intros c rest [= <- _].
  - intros front c Hcore.
    destruct front as [|c1 [|c2 [|c3 [|c4 front]]]]; simpl in Hcore;
      try discriminate.
    + by injection Hcore as _ _ _ <-.
    + injection Hcore as _ _ _ _ Hrest. by destruct front.
Qed.

Lemma getStockPrice_hit_run env symbol store table row :
  isValidStockSymbol (normalizeSymbol symbol) = true ->
  db_read env = Ok table ->
  findUnique table (normalizeSymbol symbol) = Some row ->
  isCacheValid (t_cache env) (row_updatedAt row) = true ->
  getStockPrice env symbol true store =
    let '(allowed, store') :=
      checkRateLimitWith RATE_LIMIT_REQUESTS RATE_LIMIT_WINDOW (t_limit env)
        "default" store in
    if allowed then
      (Resolved (cachedEntry row), store',
       [RateLimitCheck "default"; DbFindUnique (normalizeSymbol symbol)])
    else
      (Rejected (Error "Rate limit exceeded. Please try again later."), store',
       [RateLimitCheck "default"]).
Proof.
  intros Hvalid Hdb Hrow Hfresh.
  unfold getStockPrice. rewrite Hvalid. simpl.
  unfold bind at 1, checkRateLimit.
  destruct (checkRateLimitWith _ _ _ _ _) as [allowed store'].
  destruct allowed; simpl; [|reflexivity].
  unfold bind. rewrite getCachedPrice_run, normalizeSymbol_idem, Hdb, Hrow, Hfresh.
  reflexivity.
Qed.

(** Claim C1, amended.  For a valid symbol, a call with the cache enabled and
    a cached row for the symbol that is fresher than the TTL consults the
    rate limiter first and counts against the budget.  If the limiter
    allows the call, it returns the cached price after the one cache read,
    without calling the quote endpoint; if the limiter denies it, the call
    is rejected with the rate-limit error before the cache is read. *)
Theorem getStockPrice_cache_hit_is_metered env symbol store table row
    (Hvalid : isValidStockSymbol (normalizeSymbol symbol) = true)
    (Hdb : db_read env = Ok table)
    (Hrow : findUnique table (normalizeSymbol symbol) = Some row)
    (Hfresh : t_cache env - row_updatedAt row < CACHE_DURATION * 60 * 1000) :
  let run := getStockPrice env symbol true store in
  let limiter :=
    checkRateLimitWith RATE_LIMIT_REQUESTS RATE_LIMIT_WINDOW (t_limit env)
      "default" store in
  state_of run = limiter.2
  /\ (limiter.1 = true ->
      result_of run = Resolved (cachedEntry row)
      /\ trace_of run = [RateLimitCheck "default"; DbFindUnique (normalizeSymbol symbol)])
  /\ (limiter.1 = false ->
      result_of run = Rejected (Error "Rate limit exceeded. Please try again later.")
      /\ trace_of run = [RateLimitCheck "default"]).
Proof.
  apply isCacheValid_iff in Hfresh.
  intros run limiter. subst run limiter.
  rewrite (getStockPrice_hit_run env symbol store table row Hvalid Hdb Hrow Hfresh).
  destruct (checkRateLimitWith _ _ _ _ _) as [[] store']; simpl;
    (split; [reflexivity|]); split; intros H; try discriminate H; by split.
Qed.

Lemma getStockPrice_cache_hit_is_metered_witness :
  result_of (getStockPrice env0 "AAPL" true ∅) = Resolved (cachedEntry aapl_row)
  /\ trace_of (getStockPrice env0 "AAPL" true ∅)
     = [RateLimitCheck "default"; DbFindUnique (normalizeSymbol "AAPL")].
Proof.
  refine (proj1 (proj2 (getStockPrice_cache_hit_is_metered env0 "AAPL" ∅
                          [aapl_row] aapl_row _ _ _ _)) _);
    vm_compute; reflexivity.
Defined.

(** Claim C1 fails as stated: with a fresh cached row for AAPL and the
    budget of the window used up, the lookup is rejected by the limiter
    instead of returning the cached price; and a cache hit on an unused
    limiter consults it and is counted. *)
Lemma cache_hit_unmetered_counterexample :
  isValidStockSymbol (normalizeSymbol "AAPL") = true
  /\ findUnique [aapl_row] (normalizeSymbol "AAPL") = Some aapl_row
  /\ db_read env0 = Ok [aapl_row]
  /\ t_cache env0 - row_updatedAt aapl_row < CACHE_DURATION * 60 * 1000
  /\ result_of (getStockPrice env0 "AAPL" true exhausted)
     = Rejected (Error "Rate limit exceeded. Please try again later.")
  /\ trace_of (getStockPrice env0 "AAPL" true exhausted) = [RateLimitCheck "default"]
  /\ trace_of (getStockPrice env0 "AAPL" true ∅)
     = [RateLimitCheck "default"; DbFindUnique "AAPL"]
  /\ state_of (getStockPrice env0 "AAPL" true ∅) !! "default"
     = Some {| count := 1; resetTime := 62000 |}.
Proof. repeat split; vm_compute; reflexivity. Qed.
End PriceLookup.

(** ** Freshness of the cache *)

Section CacheFreshness.
Import YahooFinance Statements Examples.

Lemma findUnique_upsert table k p now :
  findUnique (upsert table k p now) k
  = Some {| row_symbol := k; row_price := p; row_updatedAt := now |}.
Proof.
  unfold findUnique.
  induction table as [|row rest IH]; simpl.
  - by rewrite String.eqb_refl.
  - destruct (String.eqb (row_symbol row) k) eqn:E; simpl.
    + by rewrite String.eqb_refl.
    + by rewrite E.
Qed.

Lemma findUnique_upsert_other table k k' p now :
  k <> k' -> findUnique (upsert table k p now) k' = findUnique table k'.
Proof.
  intros Hne. unfold findUnique.
  induction table as [|row rest IH]; simpl.
  - by rewrite (proj2 (String.eqb_neq k k') Hne).
  - destruct (String.eqb (row_symbol row) k) eqn:E; simpl.
    + apply String.eqb_eq in E. subst k.
      by rewrite (proj2 (String.eqb_neq _ _) Hne).
    + destruct (String.eqb (row_symbol row) k'); [done|exact IH].
Qed.

(** A lookup that reads the table as the upsert of an earlier fetch left it,
    within the TTL of that upsert, resolves with the price upserted, without
    calling the endpoint. *)
Lemma getStockPrice_hit_after_upsert env symbol store store' table p t :
  isValidStockSymbol (normalizeSymbol symbol) = true ->
  checkRateLimitWith RATE_LIMIT_REQUESTS RATE_LIMIT_WINDOW (t_limit env) "default" store
    = (true, store') ->
  db_read env = Ok (upsert table (normalizeSymbol symbol) p t) ->
  t_cache env - t < CACHE_DURATION * 60 * 1000 ->
  getStockPrice env symbol true store
  = (Resolved {| symbol := normalizeSymbol symbol; price := p; timestamp := t;
                 error := None |},
     store', [RateLimitCheck "default"; DbFindUnique (normalizeSymbol symbol)]).
Proof.
  intros Hvalid Hlimit Hdb Hfresh.
  rewrite (getStockPrice_hit_run env symbol store _ _ Hvalid Hdb
             (findUnique_upsert _ _ _ _)).
  - by rewrite Hlimit.
  - by apply isCacheValid_iff.
Qed.

(** Every fetch starts by calling the endpoint. *)
Lemma fetchPriceFromAPI_calls_endpoint env k store :
  exists t, trace_of (fetchPriceFromAPI env k store) = HttpGet (normalizeSymbol k) :: t.
Proof.
  unfold trace_of, fetchPriceFromAPI, try_catch, bind at 1.
  unfold axios_get, bind, emit, ret, throw.
  destruct (http env) as [data|e]; simpl.
  - destruct (chart_result0 data) as [result|]; simpl; [|by eexists].
    destruct (meta result) as [m|]; simpl; [|by eexists].
    destruct (JsNumber.or _ _) as [p|]; simpl; [|by eexists].
    destruct (Qeq_bool p 0); simpl; [by eexists|].
    rewrite updatePriceCache_run. simpl. by eexists.
  - destruct (isAxiosError e && bool_decide (response_status e = Some 404)); simpl;
      [by eexists|].
    destruct (isAxiosError e && bool_decide (code e = Some "ECONNABORTED")); simpl;
      by eexists.
Qed.

(** Once the TTL of the cached row has passed, an admitted lookup calls the
    endpoint again. *)
Lemma getStockPrice_stale_refetches env symbol store store' table row :
  isValidStockSymbol (normalizeSymbol symbol) = true ->
  checkRateLimitWith RATE_LIMIT_REQUESTS RATE_LIMIT_WINDOW (t_limit env) "default" store
    = (true, store') ->
  db_read env = Ok table ->
  findUnique table (normalizeSymbol symbol) = Some row ->
  CACHE_DURATION * 60 * 1000 <= t_cache env - row_updatedAt row ->
  In (HttpGet (normalizeSymbol symbol)) (trace_of (getStockPrice env symbol true store)).
Proof.
  intros Hvalid Hlimit Hdb Hrow Hstale.
  assert (Hinvalid : isCacheValid (t_cache env) (row_updatedAt row) = false).
  { apply not_true_iff_false. rewrite isCacheValid_iff. lia. }
  unfold getStockPrice. rewrite Hvalid. simpl.
  unfold bind at 1, checkRateLimit. rewrite Hlimit. simpl.
  unfold bind. rewrite getCachedPrice_run, normalizeSymbol_idem, Hdb, Hrow, Hinvalid.
  destruct (fetchPriceFromAPI_calls_endpoint env (normalizeSymbol symbol) store')
    as [t Htrace].
  destruct (fetchPriceFromAPI _ _ _) as [[r s2] t2].
  unfold trace_of in *. simpl in *. subst t2.
  rewrite normalizeSymbol_idem. right. right. by left.
Qed.
End CacheFreshness.

(** ** Failures of the cache layer *)

Section CacheFailures.
Import YahooFinance Statements Examples.

(** With both cache operations failing, a valid, admitted lookup still
    resolves with the price the endpoint quotes. *)
Lemma getStockPrice_without_cache env symbol useCache store store' e1 e2 m p :
  isValidStockSymbol (normalizeSymbol symbol) = true ->
  checkRateLimitWith RATE_LIMIT_REQUESTS RATE_LIMIT_WINDOW (t_limit env) "default" store
    = (true, store') ->
  db_read env = Fails e1 ->
  db_upsert env = Fails e2 ->
  http env = Ok {| chart_result0 := Some {| meta := Some m |} |} ->
  JsNumber.or (regularMarketPrice m) (previousClose m) = Some p ->
  Qeq_bool p 0 = false ->
  getStockPrice env symbol useCache store =
    (Resolved {| symbol := normalizeSymbol symbol; price := p;
                 timestamp := t_fetch env; error := None |},
     store',
     RateLimitCheck "default"
       :: (if useCache then [DbFindUnique (normalizeSymbol symbol)] else [])
       ++ [HttpGet (normalizeSymbol symbol);
           DbUpsert (normalizeSymbol symbol) p (t_upsert env)])%list.
Proof.
  intros Hvalid Hlimit Hread Hupsert Hhttp Hprice Hnonzero.
  assert (Hfetch : fetchPriceFromAPI env (normalizeSymbol symbol) store' =
            (Resolved {| symbol := normalizeSymbol symbol; price := p;
                         timestamp := t_fetch env; error := None |},
             store',
             [HttpGet (normalizeSymbol symbol);
              DbUpsert (normalizeSymbol symbol) p (t_upsert env)])).
  { unfold fetchPriceFromAPI, try_catch, bind at 1.
    unfold axios_get, bind, emit, ret, throw.
    rewrite Hhttp. simpl. rewrite Hprice, Hnonzero. simpl.
    rewrite updatePriceCache_run. simpl. by rewrite !normalizeSymbol_idem. }
  unfold getStockPrice. rewrite Hvalid. simpl.
  unfold bind at 1, checkRateLimit. rewrite Hlimit. simpl.
  unfold bind. destruct useCache.
  - rewrite getCachedPrice_run, Hread, Hfetch, normalizeSymbol_idem. reflexivity.
  - unfold ret. rewrite Hfetch. reflexivity.
Qed.

(** Claim C9.  Failures of the cache layer do not show at the lookup: a
    failing cache read gives the very run a cache miss gives, a failing
    upsert the very run a successful upsert gives, whatever the error; and
    with both failing, a valid lookup the limiter admits still resolves with
    the freshly quoted price, after calling the endpoint. *)
Theorem cache_failures_are_invisible env symbol useCache store e :
  getStockPrice (with_db_read (Fails e) env) symbol useCache store
    = getStockPrice (with_db_read (Ok []) env) symbol useCache store
  /\ getStockPrice (with_db_upsert (Fails e) env) symbol useCache store
    = getStockPrice (with_db_upsert (Ok tt) env) symbol useCache store
  /\ forall store' e' m p,
      isValidStockSymbol (normalizeSymbol symbol) = true ->
      checkRateLimitWith RATE_LIMIT_REQUESTS RATE_LIMIT_WINDOW (t_limit env)
        "default" store = (true, store') ->
      http env = Ok {| chart_result0 := Some {| meta := Some m |} |} ->
      JsNumber.or (regularMarketPrice m) (previousClose m) = Some p ->
      Qeq_bool p 0 = false ->
      let run := getStockPrice (with_db_read (Fails e) (with_db_upsert (Fails e') env))
                   symbol useCache store in
      result_of run = Resolved {| symbol := normalizeSymbol symbol; price := p;
                                  timestamp := t_fetch env; error := None |}
      /\ In (HttpGet (normalizeSymbol symbol)) (trace_of run).
Proof.
  split; [apply getStockPrice_db_read_fails|].
  split; [by rewrite !getStockPrice_db_upsert|].
  intros store' e' m p Hvalid Hlimit Hhttp Hprice Hnonzero run. subst run.
  rewrite (getStockPrice_without_cache _ symbol useCache store store' e e' m p);
    try done.
  split; [reflexivity|].
  unfold trace_of. simpl. right. apply in_or_app. right. by left.
Qed.

Lemma cache_failures_are_invisible_witness :
  result_of (getStockPrice (with_db_read (Fails db_down)
                              (with_db_upsert (Fails db_down) env0))
               "AAPL" true ∅)
  = Resolved {| symbol := "AAPL"; price := 151 # 1; timestamp := 2002; error := None |}.
Proof.
  refine (proj1 (proj2 (proj2 (cache_failures_are_invisible env0 "AAPL" true ∅ db_down))
                   (<["default" := {| count := 1; resetTime := 62000 |}]> ∅)
                   db_down
                   {| regularMarketPrice := Some (151 # 1);
                      previousClose := Some (149 # 1) |}
                   (151 # 1) _ _ _ _ _));
    vm_compute; reflexivity.
Defined.
End CacheFailures.

(** ** The rate limiter *)

Section RateLimiterFacts.
Import YahooFinance.
Variables (requests window : Z).

Lemma checkRateLimitWith_first now key (store : RateLimitStore) :
  store !! key = None ->
  checkRateLimitWith requests window now key store
  = (true, <[key := {| count := 1; resetTime := now + window |}]> store).
Proof. unfold checkRateLimitWith. by intros ->. Qed.

Lemma checkRateLimitWith_elapsed now key (store : RateLimitStore) record :
  store !! key = Some record -> resetTime record < now ->
  checkRateLimitWith requests window now key store
  = (true, <[key := {| count := 1; resetTime := now + window |}]> store).
Proof.
  unfold checkRateLimitWith. intros -> Hlt.
  by rewrite (proj2 (Z.gtb_lt _ _) Hlt).
Qed.

Lemma checkRateLimitWith_within now key (store : RateLimitStore) record :
  store !! key = Some record -> now <= resetTime record ->
  count record < requests ->
  checkRateLimitWith requests window now key store
  = (true, <[key := {| count := count record + 1;
                       resetTime := resetTime record |}]> store).
Proof.
  unfold checkRateLimitWith. intros -> Hle Hlt.
  destruct (now >? resetTime record) eqn:E1; [apply Z.gtb_lt in E1; lia|].
  destruct (count record >=? requests) eqn:E2; [|reflexivity].
  apply Z.geb_le in E2. lia.
Qed.

Lemma checkRateLimitWith_exhausted now key (store : RateLimitStore) record :
  store !! key = Some record -> now <= resetTime record ->
  requests <= count record ->
  checkRateLimitWith requests window now key store = (false, store).
Proof.
  unfold checkRateLimitWith. intros -> Hle Hge.
  destruct (now >? resetTime record) eqn:E1; [apply Z.gtb_lt in E1; lia|].
  destruct (count record >=? requests) eqn:E2; [reflexivity|].
  rewrite Z.geb_leb in E2. apply Z.leb_gt in E2. lia.
Qed.

(** The limiter of one key leaves the records of the other keys alone. *)
Lemma checkRateLimitWith_other now key key' (store : RateLimitStore) :
  key <> key' ->
  (checkRateLimitWith requests window now key store).2 !! key' = store !! key'.
Proof.
  intros Hne. unfold checkRateLimitWith.
  destruct (store !! key) as [record|]; simpl.
  - destruct (now >? resetTime record); simpl; [by rewrite lookup_insert_ne|].
    destruct (count record >=? requests); simpl; [done|by rewrite lookup_insert_ne].
  - by rewrite lookup_insert_ne.
Qed.

(** Within the window of a record, the call number [i] (from 0) is allowed
    exactly when the count it finds, [count record + i], is below budget. *)
Lemma allowMany_within times : forall key (store : RateLimitStore) record,
  store !! key = Some record ->
  Forall (fun t => t <= resetTime record) times ->
  (allowMany requests window times key store).1
  = imap (fun i _ => bool_decide (count record + Z.of_nat i < requests)) times.
Proof.
  induction times as [|now rest IH]; intros key store record Hrec Hall; [reflexivity|].
  apply Forall_cons in Hall as [Hnow Hrest]. simpl.
  destruct (decide (count record < requests)) as [Hlt|Hge].
  - rewrite (checkRateLimitWith_within now key store record) by done.
    specialize (IH key (<[key := {| count := count record + 1;
                                    resetTime := resetTime record |}]> store)
                  {| count := count record + 1; resetTime := resetTime record |}).
    rewrite lookup_insert_eq in IH. specialize (IH eq_refl Hrest).
    destruct (allowMany _ _ rest _ _) as [bs store2]. simpl in *.
    rewrite IH. f_equal.
    + rewrite Z.add_0_r. by rewrite bool_decide_eq_true_2.
    + apply imap_ext. intros i t _. simpl. f_equal.
      apply bool_decide_ext. lia.
  - rewrite (checkRateLimitWith_exhausted now key store record) by (done || lia).
    specialize (IH key store record Hrec Hrest).
    destruct (allowMany _ _ rest _ _) as [bs store2]. simpl in *.
    rewrite IH. f_equal.
    + rewrite Z.add_0_r. by rewrite bool_decide_eq_false_2.
    + apply imap_ext. intros i t _. simpl.
      rewrite !bool_decide_eq_false_2; [done|lia|lia].
Qed.
End RateLimiterFacts.

Section RateLimiterContract.
Import YahooFinance.

(** Claim C3.  For every key, window and budget: on the first use of the
    key, or when its reset time has passed, [allow] stores a count of 1 with
    a new reset time and returns true; within the window, while the count is
    below the budget it increments the count and returns true; once the
    count has reached the budget it returns false and leaves the store as
    it is.  With budget 2, three calls for a key within one window, the
    first on a new or lapsed window, return true, true, false. *)
Theorem checkRateLimit_contract (requests window now : Z) (key : string)
    (store : RateLimitStore) :
  let run := checkRateLimitWith requests window now key store in
  let fresh := {| count := 1; resetTime := now + window |} in
  (store !! key = None -> run = (true, <[key := fresh]> store))
  /\ (forall record, store !! key = Some record -> resetTime record < now ->
      run = (true, <[key := fresh]> store))
  /\ (forall record, store !! key = Some record -> now <= resetTime record ->
      count record < requests ->
      run = (true, <[key := {| count := count record + 1;
                                resetTime := resetTime record |}]> store))
  /\ (forall record, store !! key = Some record -> now <= resetTime record ->
      requests <= count record ->
      run = (false, store))
  /\ (forall t2 t3,
      (store !! key = None
       \/ exists record, store !! key = Some record /\ resetTime record < now) ->
      t2 <= now + window -> t3 <= now + window ->
      (allowMany 2 window [now; t2; t3] key store).1 = [true; true; false]).
Proof.
  intros run fresh. subst run fresh.
  split; [apply checkRateLimitWith_first|].
  split; [apply checkRateLimitWith_elapsed|].
  split; [apply checkRateLimitWith_within|].
  split; [apply checkRateLimitWith_exhausted|].
  intros t2 t3 Hstart H2 H3.
  assert (Hfirst : checkRateLimitWith 2 window now key store
                   = (true, <[key := {| count := 1; resetTime := now + window |}]> store)).
  { destruct Hstart as [Hnone|(record & Hsome & Hlt)].
    - by apply checkRateLimitWith_first.
    - by eapply checkRateLimitWith_elapsed. }
  cbn [allowMany]. rewrite Hfirst.
  pose proof (allowMany_within 2 window [t2; t3] key
                (<[key := {| count := 1; resetTime := now + window |}]> store)
                {| count := 1; resetTime := now + window |}) as Hrest.
  rewrite lookup_insert_eq in Hrest. specialize (Hrest eq_refl).
  cbn [allowMany] in Hrest.
  destruct (checkRateLimitWith 2 window t2 key _) as [b2 store2].
  destruct (checkRateLimitWith 2 window t3 key _) as [b3 store3].
  simpl in *. rewrite Hrest; [reflexivity|]. by repeat constructor.
Qed.

Lemma checkRateLimit_contract_witness :
  (allowMany 2 60000 [0; 1; 2] "k" ∅).1 = [true; true; false].
Proof.
  refine (proj2 (proj2 (proj2 (proj2
            (checkRateLimit_contract 2 60000 0 "k" ∅)))) 1 2 _ _ _).
  - left. reflexivity.
  - vm_compute. discriminate.
  - vm_compute. discriminate.
Defined.
(** With the constants of the module, one window admits 100 calls. *)
Example checkRateLimit_default_budget :
  (allowMany RATE_LIMIT_REQUESTS RATE_LIMIT_WINDOW (List.repeat 0 101) "default" ∅).1
  = (List.repeat true 100 ++ [false])%list.
Proof. vm_compute. reflexivity. Qed.
End RateLimiterContract.

(** ** The batch lookup *)

Section Batch.
Import YahooFinance Statements Examples.

(** The promise of one symbol of a batch always resolves, with the entry of
    the symbol. *)
Lemma batch_entry_run env symbol useCache store :
  try_catch (getStockPrice env symbol useCache)
    (fun error => ret {| symbol := normalizeSymbol symbol; price := 0;
                         timestamp := t_error env;
                         error := Some (message error) |}) store
  = (Resolved (entryOf env symbol
                 (result_of (getStockPrice env symbol useCache store))),
     state_of (getStockPrice env symbol useCache store),
     trace_of (getStockPrice env symbol useCache store)).
Proof.
  unfold try_catch, result_of, state_of, trace_of.
  destruct (getStockPrice env symbol useCache store) as [[[sp|e] store'] t]; simpl;
    [reflexivity|].
  by rewrite app_nil_r.
Qed.

Lemma getMultipleStockPrices_cons envs symbol rest useCache store :
  result_of (getMultipleStockPrices envs (symbol :: rest) useCache store)
  = match result_of (getMultipleStockPrices (fun i => envs (S i)) rest useCache
                       (state_of (getStockPrice (envs 0%nat) symbol useCache store))) with
    | Resolved entries =>
        Resolved (entryOf (envs 0%nat) symbol
                    (result_of (getStockPrice (envs 0%nat) symbol useCache store))
                  :: entries)
    | Rejected e => Rejected e
    end.
Proof.
  unfold getMultipleStockPrices. rewrite imap_cons. cbn [promise_all].
  rewrite batch_entry_run. unfold compose.
  destruct (promise_all _ _) as [[[entries|e] store2] t2]; reflexivity.
Qed.

Lemma getMultipleStockPrices_run symbols : forall envs useCache store,
  result_of (getMultipleStockPrices envs symbols useCache store)
  = Resolved (perSymbolEntries envs symbols useCache store).
Proof.
  induction symbols as [|symbol rest IH]; intros envs useCache store; [reflexivity|].
  by rewrite getMultipleStockPrices_cons, IH.
Qed.

Lemma entryOf_symbol env s useCache store :
  symbol (entryOf env s (result_of (getStockPrice env s useCache store)))
  = normalizeSymbol s.
Proof.
  destruct (result_of (getStockPrice env s useCache store)) as [sp|e] eqn:Hrun;
    [|reflexivity].
  simpl. by apply getStockPrice_resolved in Hrun as [_ ->].
Qed.

Lemma perSymbolEntries_symbols symbols : forall envs useCache store,
  List.map symbol (perSymbolEntries envs symbols useCache store)
  = List.map normalizeSymbol symbols.
Proof.
  induction symbols as [|s rest IH]; intros envs useCache store; [reflexivity|].
  simpl. by rewrite entryOf_symbol, IH.
Qed.

(** Claim C4.  For every list of symbols, within the batch bound or not, the
    batch lookup resolves: its result has one entry per requested symbol, in
    order, each for the normalised symbol; the entry of a symbol is the
    price its own lookup resolved with, or, when that lookup was rejected
    (invalid format, symbol not found, upstream error, rate limit), an error
    entry for that symbol carrying the message, and the lookups of the
    symbols after it are made all the same. *)
Theorem getMultipleStockPrices_never_fails envs symbols useCache store :
  let entries := perSymbolEntries envs symbols useCache store in
  result_of (getMultipleStockPrices envs symbols useCache store) = Resolved entries
  /\ List.length entries = List.length symbols
  /\ List.map symbol entries = List.map normalizeSymbol symbols.
Proof.
  intros entries. subst entries.
  split; [apply getMultipleStockPrices_run|].
  pose proof (perSymbolEntries_symbols symbols envs useCache store) as Hsym.
  split; [|exact Hsym].
  apply (f_equal (@List.length _)) in Hsym. by rewrite !length_map in Hsym.
Qed.

(** Three symbols, one malformed: two prices and one error entry. *)
Example getMultipleStockPrices_one_malformed :
  result_of (getMultipleStockPrices (fun _ => env0) ["AAPL"; "ZZZZZZ"; "MSFT"] true ∅)
  = Resolved
      [ {| symbol := "AAPL"; price := 150 # 1; timestamp := 1000; error := None |};
        {| symbol := "ZZZZZZ"; price := 0; timestamp := 2004;
           error := Some "Invalid stock symbol format: ZZZZZZ" |};
        {| symbol := "MSFT"; price := 151 # 1; timestamp := 2002; error := None |} ].
Proof. vm_compute. reflexivity. Qed.
End Batch.

Section BatchBound.
Import YahooFinance PricesRoute Statements Examples.

Lemma multiplePricesSchema_oversized symbols :
  (20 < List.length symbols)%nat -> multiplePricesSchema symbols = false.
Proof.
  intros Hlen. unfold multiplePricesSchema.
  rewrite (proj2 (Nat.leb_gt _ _) Hlen). apply andb_false_r.
Qed.

(** Claim C5, amended.  A batch of more than 20 symbols is rejected by the
    schema of the price route, in the POST handler and in the GET handler
    alike, with status 400 and the error "Invalid symbols parameter", before
    the batch lookup is called: no rate-limiter consultation, cache read or
    upstream call occurs, and the rate limiter is left as it was. *)
Theorem oversized_batch_fails_fast envs store :
  (forall symbols, (20 < List.length symbols)%nat ->
     POST_symbols envs symbols store
     = (Resolved (failure 400 "Invalid symbols parameter"
                    (Some "Provide 1-20 valid symbols in an array")),
        store, []))
  /\ (forall query useCache, (20 < List.length (symbolArrayOf query))%nat ->
     GET_symbols envs query useCache store
     = (Resolved (failure 400 "Invalid symbols parameter"
                    (Some "Provide 1-20 valid symbols separated by commas")),
        store, [])).
Proof.
  split.
  - intros symbols Hlen. unfold POST_symbols, try_catch.
    by rewrite multiplePricesSchema_oversized.
  - intros query useCache Hlen. unfold GET_symbols, try_catch.
    by rewrite multiplePricesSchema_oversized.
Qed.

Lemma oversized_batch_fails_fast_witness :
  POST_symbols (fun _ => env0) symbols21 ∅
  = (Resolved (failure 400 "Invalid symbols parameter"
                 (Some "Provide 1-20 valid symbols in an array")), ∅, [])
  /\ GET_symbols (fun _ => env0) query21 true ∅
  = (Resolved (failure 400 "Invalid symbols parameter"
                 (Some "Provide 1-20 valid symbols separated by commas")), ∅, []).
Proof.
  split.
  - apply (proj1 (oversized_batch_fails_fast (fun _ => env0) ∅)).
    vm_compute. lia.
  - apply (proj2 (oversized_batch_fails_fast (fun _ => env0) ∅)).
    vm_compute. lia.
Defined.

(** Claim C5 fails as stated for the batch lookup itself, which has no bound:
    handed 21 symbols, it consults the rate limiter, reads the cache and calls
    the endpoint for each of them, and resolves with 21 prices. *)
Lemma oversized_batch_is_looked_up_counterexample :
  (20 < List.length symbols21)%nat
  /\ (exists entries,
        result_of (getMultipleStockPrices (fun _ => env0) symbols21 true ∅)
          = Resolved entries
        /\ List.length entries = 21%nat
        /\ List.map error entries = List.repeat None 21)
  /\ In (RateLimitCheck "default")
        (trace_of (getMultipleStockPrices (fun _ => env0) symbols21 true ∅))
  /\ In (DbFindUnique "A")
        (trace_of (getMultipleStockPrices (fun _ => env0) symbols21 true ∅))
  /\ In (HttpGet "A")
        (trace_of (getMultipleStockPrices (fun _ => env0) symbols21 true ∅))
  /\ state_of (getMultipleStockPrices (fun _ => env0) symbols21 true ∅) !! "default"
       = Some {| count := 21; resetTime := 62000 |}.
Proof.
  split; [vm_compute; lia|].
  split; [eexists; split; [vm_compute; reflexivity|split; reflexivity]|].
  vm_compute. repeat split; auto.
Qed.
End BatchBound.

(** ** The status of an alert *)

Section AlertStatus.
Import AlertCard Examples.

Lemma truthy_Some p : JsNumber.truthy (Some p) = true <-> ~ (p == 0)%Q.
Proof.
  unfold JsNumber.truthy. rewrite negb_true_iff, <- not_true_iff_false.
  by rewrite Qeq_bool_iff.
Qed.

Lemma crossed_inactive alert currentPrice :
  isActive alert = false -> crossed alert currentPrice = false.
Proof. unfold crossed, getStatusText. by intros ->. Qed.

Lemma crossed_no_price alert currentPrice :
  JsNumber.truthy currentPrice = false -> crossed alert currentPrice = false.
Proof.
  unfold crossed, getStatusText. intros Hfalsy.
  destruct (isActive alert); [|reflexivity].
  destruct currentPrice as [p|]; [|reflexivity].
  by rewrite Hfalsy.
Qed.

Lemma crossed_active alert p :
  isActive alert = true -> JsNumber.truthy (Some p) = true ->
  crossed alert (Some p)
  = match condition alert with
    | ABOVE => JsNumber.geq p (targetPrice alert)
    | BELOW => JsNumber.leq p (targetPrice alert)
    end.
Proof.
  unfold crossed, getStatusText, isAboveTarget. intros -> ->. simpl.
  destruct (condition alert).
  - by destruct (JsNumber.geq p (targetPrice alert)).
  - by destruct (JsNumber.leq p (targetPrice alert)).
Qed.

(** Claim C2, amended.  For every active alert and every current price that
    is present and not zero, the card shows the alert as crossed exactly
    when the condition is ABOVE and the price is at least the target, or
    the condition is BELOW and the price is at most the target, the two
    compared as the numbers they are; a price equal to the target fires in
    both directions.  For ABOVE no price below the target is crossed, for
    BELOW no price above the target is, however close to the target.  An
    inactive alert, and an alert whose price is missing or zero, is never
    shown as crossed. *)
Theorem crossed_closed_boundary (alert : Alert) (p : Q) :
  (isActive alert = true -> ~ (p == 0)%Q ->
     (crossed alert (Some p) = true
      <-> (condition alert = ABOVE /\ (targetPrice alert <= p)%Q)
          \/ (condition alert = BELOW /\ (p <= targetPrice alert)%Q)))
  /\ (isActive alert = true -> ~ (p == 0)%Q -> (p == targetPrice alert)%Q ->
      crossed alert (Some p) = true)
  /\ (condition alert = ABOVE -> (p < targetPrice alert)%Q ->
      crossed alert (Some p) = false)
  /\ (condition alert = BELOW -> (targetPrice alert < p)%Q ->
      crossed alert (Some p) = false)
  /\ (isActive alert = false -> crossed alert (Some p) = false)
  /\ ((p == 0)%Q -> crossed alert (Some p) = false)
  /\ crossed alert None = false.
Proof.
  assert (Hiff : isActive alert = true -> ~ (p == 0)%Q ->
            (crossed alert (Some p) = true
             <-> (condition alert = ABOVE /\ (targetPrice alert <= p)%Q)
                 \/ (condition alert = BELOW /\ (p <= targetPrice alert)%Q))).
  { intros Hactive Hprice. rewrite crossed_active by (done || by apply truthy_Some).
    unfold JsNumber.geq, JsNumber.leq.
    destruct (condition alert); rewrite Qle_bool_iff; split.
    - intros H. left. by split.
    - intros [[_ H]|[? _]]; [done|discriminate].
    - intros H. right. by split.
    - intros [[? _]|[_ H]]; [discriminate|done]. }
  split; [exact Hiff|].
  split.
  { intros Hactive Hprice Heq. apply Hiff; [done..|].
    destruct (condition alert); [left|right]; (split; [done|]);
      rewrite Heq; apply Qle_refl. }
  split.
  { intros Habove Hlt.
    destruct (isActive alert) eqn:Hactive; [|by apply crossed_inactive].
    destruct (JsNumber.truthy (Some p)) eqn:Htruthy; [|by apply crossed_no_price].
    rewrite crossed_active, Habove by done.
    unfold JsNumber.geq. apply not_true_iff_false. rewrite Qle_bool_iff.
    by apply Qlt_not_le. }
  split.
  { intros Hbelow Hlt.
    destruct (isActive alert) eqn:Hactive; [|by apply crossed_inactive].
    destruct (JsNumber.truthy (Some p)) eqn:Htruthy; [|by apply crossed_no_price].
    rewrite crossed_active, Hbelow by done.
    unfold JsNumber.leq. apply not_true_iff_false. rewrite Qle_bool_iff.
    by apply Qlt_not_le. }
  split; [apply crossed_inactive|].
  split; [|by apply crossed_no_price].
  intros Hzero. apply crossed_no_price.
  apply not_true_iff_false. rewrite truthy_Some. tauto.
Qed.

Lemma crossed_closed_boundary_witness :
  crossed (alert_above true) (Some (100 # 1)) = true
  /\ crossed (alert_above true) (Some (9999 # 100)) = false.
Proof.
  split.
  - apply (proj1 (proj2 (crossed_closed_boundary (alert_above true) (100 # 1)))).
    + reflexivity.
    + vm_compute. discriminate.
    + reflexivity.
  - apply (proj1 (proj2 (proj2 (crossed_closed_boundary (alert_above true)
                                  (9999 # 100))))).
    + reflexivity.
    + reflexivity.
Defined.

(** The colour of the card agrees with its text. *)
Lemma getStatusColor_crossed alert currentPrice :
  crossed alert currentPrice = true <->
  getStatusColor alert currentPrice
  = match condition alert with
    | ABOVE => "bg-green-50 border-green-200"
    | BELOW => "bg-red-50 border-red-200"
    end.
Proof.
  unfold crossed, getStatusText, getStatusColor, isAboveTarget.
  destruct (isActive alert); simpl.
  - destruct currentPrice as [p|].
    + destruct (JsNumber.truthy (Some p)); simpl.
      * destruct (condition alert).
        -- destruct (JsNumber.geq p (targetPrice alert)); simpl; split; done.
        -- destruct (JsNumber.leq p (targetPrice alert)); simpl; split; done.
      * destruct (condition alert); simpl; split; done.
    + destruct (condition alert); simpl; split; done.
  - destruct (condition alert); simpl; split; done.
Qed.

(** Claim C2 fails as stated, for every alert and every price: an inactive
    ABOVE alert with target 100 at price 150 is shown as inactive, and an
    active BELOW alert with target 5 at price 0 as still loading; neither is
    classified as crossed although the price is beyond the target. *)
Lemma crossed_every_alert_counterexample :
  (condition (alert_above false) = ABOVE
   /\ (targetPrice (alert_above false) <= 150 # 1)%Q
   /\ crossed (alert_above false) (Some (150 # 1)) = false
   /\ AlertCard.getStatusText (alert_above false) (Some (150 # 1)) = "Inactive")
  /\ (condition alert_below = BELOW
      /\ (0 <= targetPrice alert_below)%Q
      /\ crossed alert_below (Some 0%Q) = false
      /\ AlertCard.getStatusText alert_below (Some 0%Q) = "Loading price...").
Proof. repeat split; vm_compute; (reflexivity || discriminate). Qed.
End AlertStatus.

Section BinaryRounding.
Import PrimFloat Examples.

(** The numbers of the source are binary64.  There a cent is absorbed by a
    large target: 1e15 - 0.01 is 1e15 (the subtrahend is the binary64 number
    nearest to 0.01), so for an ABOVE alert with that target the price
    computed as the target minus 0.01 is the target itself, and is shown as
    crossed.  At a target of 100 the difference is a smaller number, and is
    not. *)
Example cent_below_a_large_target_is_the_target :
  PrimFloat.sub 1e15%float 0x1.47ae147ae147bp-7%float = 1e15%float
  /\ AlertCard.crossed alert_large (Some (targetPrice alert_large)) = true
  /\ PrimFloat.ltb (PrimFloat.sub 100%float 0x1.47ae147ae147bp-7%float) 100%float
     = true.
Proof. repeat split; vm_compute; reflexivity. Qed.
End BinaryRounding.

(** ** Bulk push dispatch *)

Section BulkDispatch.
Import Firebase Statements Examples.

Lemma getFirebaseAdmin_deviceTokens env w :
  deviceTokens (state_of (getFirebaseAdmin env w)) = deviceTokens w.
Proof.
  unfold getFirebaseAdmin, state_of, try_catch, bind, emit, throw.
  destruct (window_defined env); [reflexivity|].
  destruct (adminApp w); [reflexivity|].
  destruct (admin_init env); reflexivity.
Qed.

Lemma getFirebaseAdmin_available env w :
  window_defined env = false -> adminAvailable env w ->
  exists t, getFirebaseAdmin env w
            = (Resolved tt, {| adminApp := true; deviceTokens := deviceTokens w |}, t).
Proof.
  intros Hserver Havailable.
  unfold getFirebaseAdmin, try_catch, bind, emit, throw. rewrite Hserver.
  destruct (adminApp w) eqn:Happ.
  - exists []. destruct w as [app tokens]. simpl in *. by subst.
  - destruct Havailable as [?|Hinit]; [congruence|]. rewrite Hinit. by eexists.
Qed.

(** The count of the loop: the results without an error. *)
Lemma countSuccesses_from results : forall start,
  fold_left (fun successCount result =>
               match send_error result with
               | Some _ => successCount
               | None => successCount + 1
               end) results start
  = start + Z.of_nat (List.length results) - failures results.
Proof.
  unfold failures.
  induction results as [|r rest IH]; intros start; simpl; [lia|].
  rewrite IH. destruct (send_error r) as [err|]; simpl; lia.
Qed.

Lemma countSuccesses_failures results :
  countSuccesses results = Z.of_nat (List.length results) - failures results.
Proof. unfold countSuccesses. rewrite countSuccesses_from. lia. Qed.

(** Claim C6, amended.  A bulk dispatch changes no DeviceToken, whatever the
    gateway reports: a delivery failure of any class, token invalid or
    unregistered included, is left out of the success count and nothing
    more, so the tokens that failed and the tokens that succeeded all keep
    their active flag. *)
Theorem sendBulkPushNotifications_keeps_tokens env tokens payload w :
  deviceTokens (state_of (sendBulkPushNotifications env tokens payload w))
  = deviceTokens w.
Proof.
  unfold sendBulkPushNotifications.
  destruct (window_defined env) eqn:Hwindow; [reflexivity|].
  destruct (List.length tokens =? 0)%nat; [reflexivity|].
  unfold try_catch, bind at 1.
  pose proof (getFirebaseAdmin_deviceTokens env w) as Hadmin.
  destruct (getFirebaseAdmin env w) as [[[[]|e] w1] t1]; unfold state_of in *;
    simpl in *; [|exact Hadmin].
  unfold bind, messaging_sendToDevice, emit, ret, throw. simpl.
  destruct (sendToDevice env tokens _); simpl; exact Hadmin.
Qed.

(** Claim C6 fails as stated: a dispatch to three tokens whose second token
    the gateway reports as not registered returns 2 and leaves the second
    token active, as the whole table. *)
Lemma dispatch_deactivates_invalid_token_counterexample :
  let run := sendBulkPushNotifications gateway_second_invalid ["t1"; "t2"; "t3"]
               payload0 world3 in
  sendToDevice gateway_second_invalid ["t1"; "t2"; "t3"] (messageOf payload0)
    = Ok [ {| send_error := None |};
           {| send_error := Some "messaging/registration-token-not-registered" |};
           {| send_error := None |} ]
  /\ result_of run = Resolved 2
  /\ device_isActive <$> deviceOf (state_of run) "t2" = Some true
  /\ state_of run = world3.
Proof. vm_compute. repeat split; reflexivity. Qed.

Lemma sendBulkPushNotifications_run env tokens payload w results :
  window_defined env = false ->
  adminAvailable env w ->
  sendToDevice env tokens (messageOf payload) = Ok results ->
  tokens <> [] ->
  exists t,
    sendBulkPushNotifications env tokens payload w
    = (Resolved (countSuccesses results),
       {| adminApp := true; deviceTokens := deviceTokens w |},
       (t ++ [SendToDevice tokens (messageOf payload)])%list).
Proof.
  intros Hserver Havailable Hgateway Hne.
  unfold sendBulkPushNotifications. rewrite Hserver.
  destruct tokens as [|tok tokens']; [done|]. cbn [List.length Nat.eqb].
  destruct (getFirebaseAdmin_available env w Hserver Havailable) as [t Hadmin].
  exists t.
  unfold try_catch, bind at 1. rewrite Hadmin.
  unfold bind, messaging_sendToDevice, emit, ret, throw. simpl.
  fold (messageOf payload). by rewrite Hgateway.
Qed.

(** Claim C7.  On the server, with the Admin SDK at hand, a bulk dispatch to
    n tokens hands all of them to the gateway in one request and, when the
    gateway answers with one result per token of which k carry an error,
    resolves with n - k, whichever tokens failed: a partial failure never
    raises.  The dispatch is rejected only when it is called where the
    gateway cannot be reached at all, in a browser, which is a set-up error;
    then no delivery is attempted. *)
Theorem sendBulkPushNotifications_partial_failure env tokens payload w :
  (forall results,
     window_defined env = false ->
     adminAvailable env w ->
     sendToDevice env tokens (messageOf payload) = Ok results ->
     List.length results = List.length tokens ->
     result_of (sendBulkPushNotifications env tokens payload w)
     = Resolved (Z.of_nat (List.length tokens) - failures results)
     /\ (tokens <> [] ->
         In (SendToDevice tokens (messageOf payload))
            (trace_of (sendBulkPushNotifications env tokens payload w))))
  /\ (forall e,
     result_of (sendBulkPushNotifications env tokens payload w) = Rejected e ->
     window_defined env = true
     /\ trace_of (sendBulkPushNotifications env tokens payload w) = []).
Proof.
  split.
  - intros results Hserver Havailable Hgateway Hlen.
    destruct (decide (tokens = [])) as [->|Hne].
    { destruct results; [|discriminate].
      unfold sendBulkPushNotifications. rewrite Hserver. split; [reflexivity|done]. }
    destruct (sendBulkPushNotifications_run env tokens payload w results)
      as [t ->]; [done..|].
    unfold result_of, trace_of. simpl. split.
    + by rewrite countSuccesses_failures, Hlen.
    + intros _. apply in_or_app. right. by left.
  - intros e. unfold sendBulkPushNotifications.
    destruct (window_defined env); [by intros _|].
    destruct (List.length tokens =? 0)%nat; [discriminate|].
    unfold try_catch.
    destruct (bind _ _ w) as [[[n|e'] w1] t1]; discriminate.
Qed.

Lemma sendBulkPushNotifications_partial_failure_witness :
  result_of (sendBulkPushNotifications gateway_second_invalid ["t1"; "t2"; "t3"]
               payload0 world3)
  = Resolved (3 - 1).
Proof.
  refine (proj1 (proj1 (sendBulkPushNotifications_partial_failure
                   gateway_second_invalid ["t1"; "t2"; "t3"] payload0 world3)
                   [ {| send_error := None |};
                     {| send_error := Some "messaging/registration-token-not-registered" |};
                     {| send_error := None |} ] _ _ _ _)).
  - reflexivity.
  - left. reflexivity.
  - reflexivity.
  - reflexivity.
Defined.

(** When the gateway cannot be reached at all on the server, because the
    Admin SDK fails to initialise or the request itself fails, the error is
    swallowed and the dispatch reports 0 deliveries. *)
Lemma sendBulkPushNotifications_unreachable env tokens payload w e :
  window_defined env = false ->
  (adminApp w = false /\ admin_init env = Fails e)
  \/ sendToDevice env tokens (messageOf payload) = Fails e ->
  result_of (sendBulkPushNotifications env tokens payload w) = Resolved 0.
Proof.
  intros Hserver Hdown. unfold sendBulkPushNotifications. rewrite Hserver.
  destruct (List.length tokens =? 0)%nat; [reflexivity|].
  unfold try_catch, bind at 1, getFirebaseAdmin. rewrite Hserver.
  unfold try_catch, bind, messaging_sendToDevice, emit, ret, throw.
  fold (messageOf payload).
  destruct Hdown as [[Happ Hinit]|Hgateway].
  - by rewrite Happ, Hinit.
  - destruct (adminApp w); [by rewrite Hgateway|].
    destruct (admin_init env); simpl; [by rewrite Hgateway|reflexivity].
Qed.
End BulkDispatch.

(** ** Deleting an alert *)

Section CascadeDelete.
Import AlertsRoute Examples.

Lemma memberOf_In ids x : memberOf ids x = true <-> In x ids.
Proof.
  unfold memberOf. rewrite existsb_exists. split.
  - intros (y & Hin & Heq). apply String.eqb_eq in Heq. by subst.
  - intros Hin. exists x. split; [done|]. apply String.eqb_refl.
Qed.

(** A triggered alert survives [deleteMany] exactly when no deleted alert
    is the one it references. *)
Lemma deleteMany_triggered ids db t :
  In t (triggered_alerts (deleteMany ids db).2)
  <-> In t (triggered_alerts db)
      /\ ~ (In (alertId t) ids
            /\ exists a, In a (alerts db) /\ alert_id a = alertId t).
Proof.
  unfold deleteMany. simpl. rewrite filter_In, negb_true_iff.
  rewrite <- not_true_iff_false, existsb_exists.
  split; intros [Hin Hnot]; (split; [exact Hin|]).
  - intros [Hids (a & Ha & Hid)]. apply Hnot. exists a. split.
    + apply filter_In. split; [done|]. apply memberOf_In. by rewrite Hid.
    + rewrite Hid. apply String.eqb_refl.
  - intros (a & [Ha Hmem]%filter_In & Heq). apply String.eqb_eq in Heq.
    apply Hnot. split.
    + rewrite <- Heq. by apply memberOf_In.
    + by exists a.
Qed.

(** The surviving rows keep their order: the table afterwards is the table
    before with the rows of deleted alerts filtered out. *)
Lemma deleteMany_single_triggered id db :
  (exists a, In a (alerts db) /\ alert_id a = id) ->
  triggered_alerts (deleteMany [id] db).2
  = List.filter (fun t => negb (String.eqb (alertId t) id)) (triggered_alerts db).
Proof.
  intros (a & Ha & Hid). unfold deleteMany. cbn [snd triggered_alerts].
  apply filter_ext_in_iff. intros t _. f_equal.
  apply eq_true_iff_eq. rewrite existsb_exists, String.eqb_eq. split.
  - intros (a' & [_ Hmem]%filter_In & Heq). apply String.eqb_eq in Heq.
    apply memberOf_In in Hmem as [Hm|[]]. congruence.
  - intros Heq. exists a. split.
    + apply filter_In. split; [done|]. apply memberOf_In. left. congruence.
    + apply String.eqb_eq. congruence.
Qed.

Lemma DELETE_single_run id db :
  id <> "" ->
  DELETE (Ok tt) (Some id) None db
  = (Resolved {| status := 200; success := true;
                 deletedCount := Some (deleteMany [id] db).1;
                 api_error := None;
                 api_message := Some (decimal (deleteMany [id] db).1
                                      ++ " alert(s) deleted successfully") |},
     (deleteMany [id] db).2, [AlertDeleteMany [id]]).
Proof.
  intros Hid. unfold DELETE, try_catch, param_truthy.
  destruct id as [|c id']; [done|]. simpl.
  unfold bind, withDbErrorHandling, try_catch, prisma_alert_deleteMany, bind, emit, ret.
  reflexivity.
Qed.

(** Claim C8.  Deleting an alert A through the DELETE handler removes every
    TriggeredAlert row whose alertId references A and keeps every row of any
    other alert as it is: the table afterwards is the table before without
    the rows of A, in the same order.  A itself is gone. *)
Theorem DELETE_cascades (A : Alert) (db : Db)
    (Hexists : In A (alerts db)) (Hid : alert_id A <> "") :
  let db' := state_of (DELETE (Ok tt) (Some (alert_id A)) None db) in
  (forall t, In t (triggered_alerts db) -> alertId t = alert_id A ->
             ~ In t (triggered_alerts db'))
  /\ (forall t, In t (triggered_alerts db) -> alertId t <> alert_id A ->
                In t (triggered_alerts db'))
  /\ triggered_alerts db'
     = List.filter (fun t => negb (String.eqb (alertId t) (alert_id A)))
         (triggered_alerts db)
  /\ ~ In A (alerts db').
Proof.
  intros db'. subst db'. rewrite DELETE_single_run by done.
  unfold state_of. cbn [fst snd].
  assert (Hrows := deleteMany_single_triggered (alert_id A) db
                     (ex_intro _ A (conj Hexists eq_refl))).
  split; [|split; [|split]].
  - intros t Hin Href. rewrite Hrows, filter_In, negb_true_iff.
    intros [_ Hne]. apply String.eqb_neq in Hne. done.
  - intros t Hin Href. rewrite Hrows, filter_In, negb_true_iff. split; [done|].
    by apply String.eqb_neq.
  - exact Hrows.
  - unfold deleteMany. cbn [snd alerts]. rewrite filter_In, negb_true_iff.
    intros [_ Hmem].
    apply not_true_iff_false in Hmem. apply Hmem, memberOf_In. by left.
Qed.

Lemma DELETE_cascades_witness :
  triggered_alerts (state_of (DELETE (Ok tt) (Some "a1") None db2))
  = [triggered "t2" "a2"].
Proof.
  refine (proj1 (proj2 (proj2 (DELETE_cascades (alert_above true) db2 _ _)))).
  - left. reflexivity.
  - discriminate.
Defined.

(** When the database client raises, nothing is deleted and the handler
    answers 500. *)
Lemma DELETE_db_failure e singleId bulkIds db :
  state_of (DELETE (Fails e) singleId bulkIds db) = db.
Proof.
  unfold DELETE, try_catch, state_of.
  destruct (negb (param_truthy singleId) && negb (param_truthy bulkIds)); [reflexivity|].
  destruct (List.length _ =? 0)%nat; [reflexivity|].
  unfold bind, withDbErrorHandling, try_catch, prisma_alert_deleteMany, bind, emit,
    ret, throw. simpl.
  destruct (JsString.includes "P2002" (message e)); [reflexivity|].
  destruct (JsString.includes "P2025" (message e)); [reflexivity|].
  destruct (JsString.includes "P2003" (message e)); reflexivity.
Qed.
End CascadeDelete.

(** * Further properties of the price service and its route *)

Section IncludesFacts.
Import JsString Reference.

Lemma isUpper_notUpper_neq a b : isUpper a = true -> notUpper b = true -> b <> a.
Proof. unfold notUpper. intros Ha Hb ->. rewrite Ha in Hb. discriminate. Qed.

Lemma prefix_lower_upper n K :
  n <> "" -> all notUpper n = true -> all isUpper K = true -> String.prefix n K = false.
Proof.
  destruct n as [|a n]; [done|]. intros _ [Ha _]%andb_prop HK.
  destruct K as [|k K]; [reflexivity|]. simpl in *. apply andb_prop in HK as [Hk _].
  destruct (ascii_dec a k) as [->|]; [|reflexivity].
  unfold notUpper in Ha. rewrite Hk in Ha. discriminate.
Qed.

Lemma prefix_app_lower pre : forall n K,
  all notUpper n = true -> all isUpper K = true ->
  String.prefix n (pre ++ K) = String.prefix n pre.
Proof.
  induction pre as [|c pre IH]; intros n K Hn HK; simpl.
  - destruct n as [|a n]; [by destruct K|]. by apply prefix_lower_upper.
  - destruct n as [|a n]; [reflexivity|]. simpl in *. apply andb_prop in Hn as [_ Hn].
    destruct (ascii_dec a c); [by apply IH|reflexivity].
Qed.

Lemma prefix_app_upper a r pre K :
  r <> "" -> all notUpper r = true -> all isUpper K = true ->
  String.prefix (String a r) (pre ++ K) = String.prefix (String a r) pre.
Proof.
  intros Hr Hlow HK. destruct pre as [|c pre]; simpl.
  - destruct K as [|k K]; [reflexivity|]. simpl in *. apply andb_prop in HK as [_ HK].
    destruct (ascii_dec a k); [by apply prefix_lower_upper|reflexivity].
  - destruct (ascii_dec a c); [by apply prefix_app_lower|reflexivity].
Qed.

Lemma includes_upper a r K :
  r <> "" -> all notUpper r = true -> all isUpper K = true ->
  includes (String a r) K = false.
Proof.
  intros Hr Hlow HK. induction K as [|k K IH]; [reflexivity|].
  pose proof (prefix_app_upper a r "" (String k K) Hr Hlow HK) as Hprefix.
  simpl in HK. apply andb_prop in HK as [_ HK].
  cbn [includes]. rewrite IH by done.
  change ("" ++ String k K) with (String k K) in Hprefix.
  rewrite Hprefix. reflexivity.
Qed.

(** A needle whose characters after the first are not capital letters, and
    which has such characters, occurs in a text followed by capitals exactly
    when it occurs in the text. *)
Lemma includes_app_upper a r pre K :
  r <> "" -> all notUpper r = true -> all isUpper K = true ->
  includes (String a r) (pre ++ K) = includes (String a r) pre.
Proof.
  intros Hr Hlow HK. induction pre as [|c pre IH].
  - change ("" ++ K) with K. by rewrite includes_upper.
  - change (String c pre ++ K) with (String c (pre ++ K)). cbn [includes].
    rewrite IH.
    change (String c (pre ++ K)) with (String c pre ++ K).
    by rewrite prefix_app_upper.
Qed.
End IncludesFacts.

Section LookupReference.
Import YahooFinance Statements Reference.

Lemma fetchPriceFromAPI_run env k store :
  fetchPriceFromAPI env k store
  = (fetched env (normalizeSymbol k), store, fetchEvents env (normalizeSymbol k)).
Proof.
  unfold fetchPriceFromAPI, fetchEvents, fetched, quoted, upstreamMessage,
    try_catch, bind at 1.
  unfold axios_get, bind, emit, ret, throw.
  destruct (http env) as [data|e]; simpl.
  - destruct (chart_result0 data) as [result|]; simpl; [|reflexivity].
    destruct (meta result) as [m|]; simpl; [|reflexivity].
    destruct (JsNumber.or _ _) as [p|]; simpl; [|reflexivity].
    destruct (Qeq_bool p 0); simpl; [reflexivity|].
    rewrite updatePriceCache_run. simpl. by rewrite normalizeSymbol_idem.
  - destruct (isAxiosError e && bool_decide (response_status e = Some 404)); simpl;
      [reflexivity|].
    destruct (isAxiosError e && bool_decide (code e = Some "ECONNABORTED")); reflexivity.
Qed.

(** [getStockPrice], run to the end. *)
Lemma getStockPrice_run env symbol useCache store :
  let K := normalizeSymbol symbol in
  getStockPrice env symbol useCache store =
    if isValidStockSymbol K then
      let '(allowed, store') :=
        checkRateLimitWith RATE_LIMIT_REQUESTS RATE_LIMIT_WINDOW (t_limit env)
          "default" store in
      if allowed then
        match (if useCache then cacheLookup env K else None) with
        | Some sp =>
            (Resolved sp, store', [RateLimitCheck "default"; DbFindUnique K])
        | None =>
            (fetched env K, store',
             (RateLimitCheck "default"
                :: (if useCache then [DbFindUnique K] else []) ++ fetchEvents env K)%list)
        end
      else
        (Rejected (Error "Rate limit exceeded. Please try again later."), store',
         [RateLimitCheck "default"])
    else
      (Rejected (Error ("Invalid stock symbol format: " ++ symbol)), store, []).
Proof.
  intros K. subst K. unfold getStockPrice.
  destruct (isValidStockSymbol (normalizeSymbol symbol)); simpl; [|reflexivity].
  unfold bind at 1, checkRateLimit.
  destruct (checkRateLimitWith _ _ _ _ _) as [allowed store'].
  destruct allowed; simpl; [|reflexivity].
  unfold bind. destruct useCache.
  - rewrite getCachedPrice_run, normalizeSymbol_idem. fold (cacheLookup env (normalizeSymbol symbol)).
    destruct (cacheLookup env (normalizeSymbol symbol)) as [sp|]; [reflexivity|].
    by rewrite fetchPriceFromAPI_run, normalizeSymbol_idem.
  - unfold ret. by rewrite fetchPriceFromAPI_run, normalizeSymbol_idem.
Qed.
End LookupReference.

Section LookupProperties.
Import YahooFinance Statements Reference Examples.

(** Property X1. A price lookup charges the rate limiter exactly once, under
    the key "default", whenever the normalised symbol is well formed: whether
    the cache answers, the endpoint answers or the lookup is rejected, the
    store it leaves is the one [checkRateLimit] leaves.  A malformed symbol is
    rejected before the limiter is consulted and leaves the store as it was. *)
Theorem getStockPrice_charges_limiter env symbol useCache store :
  state_of (getStockPrice env symbol useCache store)
  = if isValidStockSymbol (normalizeSymbol symbol)
    then (checkRateLimitWith RATE_LIMIT_REQUESTS RATE_LIMIT_WINDOW (t_limit env)
            "default" store).2
    else store.
Proof.
  rewrite getStockPrice_run.
  destruct (isValidStockSymbol (normalizeSymbol symbol)); [|reflexivity].
  destruct (checkRateLimitWith _ _ _ _ _) as [[] store']; [|reflexivity].
  by destruct (if useCache then _ else _).
Qed.

Lemma upstreamMessage_cases e K :
  upstreamMessage e K = "Stock symbol not found: " ++ K
  \/ upstreamMessage e K = "Request timeout - Yahoo Finance API is not responding"
  \/ upstreamMessage e K = "Failed to fetch price for " ++ K.
Proof.
  unfold upstreamMessage.
  destruct (isAxiosError e && bool_decide (response_status e = Some 404)); [by left|].
  destruct (isAxiosError e && bool_decide (code e = Some "ECONNABORTED")); auto.
Qed.

Lemma fetched_rejected env K e :
  fetched env K = Rejected e ->
  exists msg, e = Error msg
    /\ (msg = "Stock symbol not found: " ++ K
        \/ msg = "Request timeout - Yahoo Finance API is not responding"
        \/ msg = "Failed to fetch price for " ++ K).
Proof.
  unfold fetched. destruct (http env) as [data|e'].
  - destruct (quoted data); [discriminate|]. intros [= <-]. eexists. split; [done|]. auto.
  - intros [= <-]. eexists. split; [done|]. apply upstreamMessage_cases.
Qed.

(** Property X3. A price lookup is rejected with one of five messages only:
    malformed symbol (quoting the symbol as given), rate limit exceeded,
    symbol not found, request timeout, or the generic fetch failure (the last
    three quoting the normalised symbol).  Failures of the cache never reach
    the caller. *)
Theorem getStockPrice_rejections env symbol useCache store e
    (Hrejected : result_of (getStockPrice env symbol useCache store) = Rejected e) :
  exists msg, e = Error msg
    /\ (msg = "Invalid stock symbol format: " ++ symbol
        \/ msg = "Rate limit exceeded. Please try again later."
        \/ msg = "Stock symbol not found: " ++ normalizeSymbol symbol
        \/ msg = "Request timeout - Yahoo Finance API is not responding"
        \/ msg = "Failed to fetch price for " ++ normalizeSymbol symbol).
Proof.
  rewrite getStockPrice_run in Hrejected. unfold result_of in Hrejected.
  destruct (isValidStockSymbol (normalizeSymbol symbol)).
  - destruct (checkRateLimitWith _ _ _ _ _) as [[] store'].
    + destruct (if useCache then _ else _); [discriminate|]. simpl in Hrejected.
      apply fetched_rejected in Hrejected as (msg & -> & Hmsg).
      exists msg. split; [done|]. tauto.
    + simpl in Hrejected. injection Hrejected as <-. eexists. split; [done|]. auto.
  - simpl in Hrejected. injection Hrejected as <-. eexists. split; [done|]. auto.
Qed.

Lemma getStockPrice_rejections_witness :
  exists msg, Error "Rate limit exceeded. Please try again later." = Error msg
    /\ (msg = "Invalid stock symbol format: " ++ "AAPL"
        \/ msg = "Rate limit exceeded. Please try again later."
        \/ msg = "Stock symbol not found: " ++ normalizeSymbol "AAPL"
        \/ msg = "Request timeout - Yahoo Finance API is not responding"
        \/ msg = "Failed to fetch price for " ++ normalizeSymbol "AAPL").
Proof.
  apply (getStockPrice_rejections env0 "AAPL" true exhausted). reflexivity.
Defined.
End LookupProperties.

Section Budgets.
Import YahooFinance YahooFinanceAux Statements Reference Examples.

Lemma checkRateLimitWith_decision requests window now key (s1 s2 : RateLimitStore) :
  s1 !! key = s2 !! key ->
  (checkRateLimitWith requests window now key s1).1
  = (checkRateLimitWith requests window now key s2).1.
Proof.
  unfold checkRateLimitWith. intros ->.
  destruct (s2 !! key) as [record|]; [|reflexivity].
  destruct (now >? resetTime record); [reflexivity|].
  by destruct (count record >=? requests).
Qed.

Lemma getStockPrice_reads_default env symbol useCache (s1 s2 : RateLimitStore) :
  s1 !! "default" = s2 !! "default" ->
  result_of (getStockPrice env symbol useCache s1)
  = result_of (getStockPrice env symbol useCache s2)
  /\ trace_of (getStockPrice env symbol useCache s1)
     = trace_of (getStockPrice env symbol useCache s2).
Proof.
  intros Heq. rewrite !getStockPrice_run.
  destruct (isValidStockSymbol (normalizeSymbol symbol)); [|done].
  pose proof (checkRateLimitWith_decision RATE_LIMIT_REQUESTS RATE_LIMIT_WINDOW
                (t_limit env) "default" s1 s2 Heq) as Hdec.
  destruct (checkRateLimitWith _ _ _ _ s1) as [a1 s1'].
  destruct (checkRateLimitWith _ _ _ _ s2) as [a2 s2']. simpl in Hdec. subst a2.
  destruct a1; [|done].
  by destruct (if useCache then _ else _).
Qed.

(** [searchStockSymbols], run to the end. *)
Lemma searchStockSymbols_run env query store :
  searchStockSymbols env query store =
    let '(allowed, store') :=
      checkRateLimitWith RATE_LIMIT_REQUESTS RATE_LIMIT_WINDOW (t_search env)
        "search" store in
    if allowed then
      (Resolved match search_http env with
                | Ok data =>
                    firstn 10
                      (List.map (fun quote => default "" (quote_symbol quote))
                         (List.filter isEquity (default [] (quotes data))))
                | Fails _ => []
                end,
       store', [Lookup (RateLimitCheck "search"); HttpSearch query])
    else (Resolved [], store', [Lookup (RateLimitCheck "search")]).
Proof.
  unfold searchStockSymbols, try_catch, bind at 1, mapEvents, checkRateLimit.
  destruct (checkRateLimitWith _ _ _ _ _) as [allowed store'].
  destruct allowed; simpl; [|reflexivity].
  unfold axios_search, bind, emit, ret, throw.
  destruct (search_http env); reflexivity.
Qed.

(** Property X2. Price lookups and symbol searches draw on separate budgets
    of the rate limiter: what a lookup returns does not depend on whether a
    search ran before it, nor what a search returns on whether a lookup ran
    before it. *)
Theorem lookup_and_search_budgets_are_separate env senv symbol useCache query store :
  result_of (getStockPrice env symbol useCache
               (state_of (searchStockSymbols senv query store)))
  = result_of (getStockPrice env symbol useCache store)
  /\ result_of (searchStockSymbols senv query
                  (state_of (getStockPrice env symbol useCache store)))
     = result_of (searchStockSymbols senv query store).
Proof.
  split.
  - apply getStockPrice_reads_default.
    rewrite searchStockSymbols_run.
    pose proof (checkRateLimitWith_other RATE_LIMIT_REQUESTS RATE_LIMIT_WINDOW
                  (t_search senv) "search" "default" store) as Hother.
    destruct (checkRateLimitWith _ _ _ _ _) as [[] store']; apply Hother; done.
  - rewrite !searchStockSymbols_run, getStockPrice_charges_limiter.
    set (st := if isValidStockSymbol (normalizeSymbol symbol)
               then (checkRateLimitWith RATE_LIMIT_REQUESTS RATE_LIMIT_WINDOW
                       (t_limit env) "default" store).2
               else store).
    assert (Hsame : st !! "search" = store !! "search").
    { subst st. destruct (isValidStockSymbol _); [|done].
      by apply checkRateLimitWith_other. }
    apply (checkRateLimitWith_decision RATE_LIMIT_REQUESTS RATE_LIMIT_WINDOW
             (t_search senv)) in Hsame as Hdec.
    destruct (checkRateLimitWith _ _ _ "search" st) as [a1 s1].
    destruct (checkRateLimitWith _ _ _ "search" store) as [a2 s2].
    simpl in Hdec. subst a2. by destruct a1.
Qed.
End Budgets.

Section SearchAndCleanup.
Import YahooFinance YahooFinanceAux Statements Reference Examples.

Lemma In_firstn {A} n : forall (l : list A) x, In x (firstn n l) -> In x l.
Proof.
  induction n as [|n IH]; intros [|y l] x; simpl; try tauto.
  intros [->|Hin]; [by left|right; by apply IH].
Qed.

(** Property X4. A symbol search never fails and returns at most ten
    symbols; each of them is the non-empty symbol of a quote of type "Equity"
    in the reply of the endpoint.  When the search budget is exhausted the
    result is empty and the endpoint is not contacted. *)
Theorem searchStockSymbols_contract env query store :
  exists results,
    result_of (searchStockSymbols env query store) = Resolved results
    /\ (List.length results <= 10)%nat
    /\ (forall s, In s results ->
          s <> ""
          /\ exists data quote,
               search_http env = Ok data
               /\ In quote (default [] (quotes data))
               /\ typeDisp quote = Some "Equity"
               /\ quote_symbol quote = Some s)
    /\ ((checkRateLimitWith RATE_LIMIT_REQUESTS RATE_LIMIT_WINDOW (t_search env)
           "search" store).1 = false ->
        results = []
        /\ ~ In (HttpSearch query) (trace_of (searchStockSymbols env query store))).
Proof.
  rewrite searchStockSymbols_run.
  destruct (checkRateLimitWith _ _ _ _ _) as [[] store']; simpl.
  - eexists. split; [reflexivity|]. split; [|split; [|discriminate]].
    + destruct (search_http env); [rewrite List.length_firstn; lia|simpl; lia].
    + intros s Hin. destruct (search_http env) as [data|e]; [|destruct Hin].
      apply In_firstn in Hin. apply in_map_iff in Hin as (quote & Hs & Hin).
      apply filter_In in Hin as [Hin Hequity].
      unfold isEquity in Hequity. apply andb_prop in Hequity as [Htype Hsym].
      apply bool_decide_eq_true_1 in Htype.
      destruct (quote_symbol quote) as [s'|] eqn:Hq; [|discriminate].
      simpl in Hs. subst s'. split.
      * intros ->. discriminate.
      * exists data, quote. by rewrite Hq.
  - exists []. repeat split; try done; try (simpl; lia).
    unfold trace_of. simpl. intros [Heq|[]]. discriminate.
Qed.

(** Property X5. Cleaning the cache never fails, never adds a row, and keeps
    every row that [isCacheValid] still accepts.  When the database answers,
    the rows left are exactly those at most one TTL old; when it fails the
    table is unchanged and the failure is swallowed. *)
Theorem clearExpiredCache_keeps_fresh_rows now db_reply table :
  result_of (clearExpiredCache now db_reply table) = Resolved tt
  /\ (forall row, In row (state_of (clearExpiredCache now db_reply table)) ->
                  In row table)
  /\ (forall row, In row table -> isCacheValid now (row_updatedAt row) = true ->
                  In row (state_of (clearExpiredCache now db_reply table)))
  /\ (forall u row, db_reply = Ok u ->
        (In row (state_of (clearExpiredCache now db_reply table))
         <-> In row table
             /\ now - row_updatedAt row <= CACHE_DURATION * 60 * 1000))
  /\ (forall e, db_reply = Fails e ->
        state_of (clearExpiredCache now db_reply table) = table).
Proof.
  unfold clearExpiredCache, try_catch, prisma_stockPrice_deleteMany, bind, emit, ret,
    throw, result_of, state_of, deleteExpired.
  destruct db_reply as [u|e]; simpl.
  - split; [reflexivity|]. split; [|split; [|split; [|discriminate]]].
    + intros row [Hin _]%filter_In. exact Hin.
    + intros row Hin Hvalid. apply filter_In. split; [done|].
      apply isCacheValid_iff in Hvalid. apply negb_true_iff, Z.ltb_ge. lia.
    + intros _ row _. rewrite filter_In, negb_true_iff, Z.ltb_ge. split.
      * intros [Hin Hle]. split; [done|lia].
      * intros [Hin Hle]. split; [done|lia].
  - split; [reflexivity|]. split; [done|]. split; [done|]. split; [discriminate|done].
Qed.

(** A row exactly one TTL old is no longer served and is not yet cleaned. *)
Example row_at_ttl_boundary :
  isCacheValid 301000 (row_updatedAt aapl_row) = false
  /\ state_of (clearExpiredCache 301000 (Ok tt) [aapl_row]) = [aapl_row]
  /\ state_of (clearExpiredCache 301001 (Ok tt) [aapl_row]) = [].
Proof. repeat split; reflexivity. Qed.
End SearchAndCleanup.

Section CacheRoundTrip.
Import YahooFinance Statements Reference Examples.

(** Property X6. Round trip through the cache: when a lookup fetched the
    price from the endpoint and returned it, and the database accepted the
    write of the price into the cache, a following lookup of the same
    symbol, made with the cache on, within the TTL of the write and within the
    rate limit, answers from the cache with the same price, stamped with the
    time of the write, and makes no request to the endpoint.  (When the
    database refused the write, the failure is swallowed, the table is as
    before and nothing is promised of the following lookup.) *)
Theorem lookup_after_fetch_hits_cache env symbol useCache store table tl tc sp
    (Hfetched : In (HttpGet (normalizeSymbol symbol))
                   (trace_of (getStockPrice env symbol useCache store)))
    (Hresolved : result_of (getStockPrice env symbol useCache store) = Resolved sp)
    (Hwritten : db_upsert env = Ok tt)
    (Hfresh : tc - t_upsert env < CACHE_DURATION * 60 * 1000)
    (Hallowed : (checkRateLimitWith RATE_LIMIT_REQUESTS RATE_LIMIT_WINDOW tl "default"
                   (state_of (getStockPrice env symbol useCache store))).1 = true) :
  let first := getStockPrice env symbol useCache store in
  let second := getStockPrice (later (applyEvents env table (trace_of first)) tl tc env)
                  symbol true (state_of first) in
  result_of second
  = Resolved {| symbol := normalizeSymbol symbol; price := price sp;
                timestamp := t_upsert env; error := None |}
  /\ trace_of second
     = [RateLimitCheck "default"; DbFindUnique (normalizeSymbol symbol)].
Proof.
  intros first second. subst first second.
  set (K := normalizeSymbol symbol) in *.
  assert (Hfirst : isValidStockSymbol K = true
            /\ applyEvents env table (trace_of (getStockPrice env symbol useCache store))
               = upsert table K (price sp) (t_upsert env)).
  { revert Hfetched Hresolved. rewrite getStockPrice_run. fold K.
    unfold result_of, trace_of.
    destruct (isValidStockSymbol K); [|simpl; intros []].
    destruct (checkRateLimitWith _ _ (t_limit env) _ store) as [[] store'];
      [|simpl; intros [Heq|[]]; discriminate].
    destruct (if useCache then _ else _) as [hit|].
    { simpl. intros [Heq|[Heq|[]]]; discriminate. }
    unfold fetchEvents. simpl. intros _ Hr. rewrite Hr.
    split; [done|]. unfold applyEvents, applyEvent.
    destruct useCache; simpl; by rewrite Hwritten. }
  destruct Hfirst as [Hvalid ->].
  destruct (checkRateLimitWith _ _ tl _ _) as [allowed store2] eqn:Hlimit.
  simpl in Hallowed. subst allowed.
  rewrite (getStockPrice_hit_after_upsert
             (later (upsert table K (price sp) (t_upsert env)) tl tc env)
             symbol _ store2 table (price sp) (t_upsert env)); try done.
Qed.

Lemma lookup_after_fetch_hits_cache_witness :
  result_of (getStockPrice
               (later (applyEvents env0 [] (trace_of (getStockPrice env0 "MSFT" true ∅)))
                  3000 3001 env0)
               "MSFT" true (state_of (getStockPrice env0 "MSFT" true ∅)))
  = Resolved {| symbol := "MSFT"; price := 151 # 1; timestamp := 2003; error := None |}.
Proof.
  refine (proj1 (lookup_after_fetch_hits_cache env0 "MSFT" true ∅ [] 3000 3001
                   {| symbol := "MSFT"; price := 151 # 1; timestamp := 2002;
                      error := None |} _ _ _ _ _)).
  - vm_compute. auto.
  - reflexivity.
  - reflexivity.
  - reflexivity.
  - reflexivity.
Defined.

(** When the database refuses the write, the lookup still returns the price
    and the table is as before: the next lookup finds no row to serve. *)
Example refused_write_leaves_no_row :
  let env := with_db_upsert (Fails db_down) env0 in
  result_of (getStockPrice env "MSFT" true ∅)
  = Resolved {| symbol := "MSFT"; price := 151 # 1; timestamp := 2002; error := None |}
  /\ applyEvents env [] (trace_of (getStockPrice env "MSFT" true ∅)) = [].
Proof. split; reflexivity. Qed.

(** Property X7. A cached row that is one TTL old or older is not served:
    the lookup reads it, then goes to the endpoint, and its outcome is the
    outcome of the fetch. *)
Theorem stale_row_is_refetched env symbol store store' table row
    (Hvalid : isValidStockSymbol (normalizeSymbol symbol) = true)
    (Hlimit : checkRateLimitWith RATE_LIMIT_REQUESTS RATE_LIMIT_WINDOW (t_limit env)
                "default" store = (true, store'))
    (Hdb : db_read env = Ok table)
    (Hrow : findUnique table (normalizeSymbol symbol) = Some row)
    (Hstale : CACHE_DURATION * 60 * 1000 <= t_cache env - row_updatedAt row) :
  getStockPrice env symbol true store
  = (fetched env (normalizeSymbol symbol), store',
     (RateLimitCheck "default" :: DbFindUnique (normalizeSymbol symbol)
        :: fetchEvents env (normalizeSymbol symbol))).
Proof.
  assert (Hinvalid : isCacheValid (t_cache env) (row_updatedAt row) = false).
  { apply not_true_iff_false. rewrite isCacheValid_iff. lia. }
  rewrite getStockPrice_run, Hvalid, Hlimit. unfold cacheLookup.
  by rewrite Hdb, Hrow, Hinvalid.
Qed.

Lemma stale_row_is_refetched_witness :
  getStockPrice (later [aapl_row] 400000 301000 env0) "AAPL" true ∅
  = (Resolved {| symbol := "AAPL"; price := 151 # 1; timestamp := 2002; error := None |},
     <["default" := {| count := 1; resetTime := 460000 |}]> ∅,
     [RateLimitCheck "default"; DbFindUnique "AAPL"; HttpGet "AAPL";
      DbUpsert "AAPL" (151 # 1) 2003]).
Proof.
  apply (stale_row_is_refetched (later [aapl_row] 400000 301000 env0) "AAPL" ∅
           (<["default" := {| count := 1; resetTime := 460000 |}]> ∅)
           [aapl_row] aapl_row); vm_compute; (reflexivity || discriminate).
Defined.
End CacheRoundTrip.

Section PriceRouteStatus.
Import YahooFinance YahooFinanceAux Statements Reference Examples PricesApi.

Lemma valid_symbol_upper symbol :
  isValidStockSymbol (normalizeSymbol symbol) = true ->
  JsString.all JsString.isUpper (normalizeSymbol symbol) = true.
Proof.
  rewrite isValidStockSymbol_regex. unfold symbolRegex_test.
  by intros [_ H]%andb_prop.
Qed.

(** The status the catch block gives a rejected lookup of a well-formed
    symbol. *)
Lemma onError_status_lookup K msg :
  JsString.all JsString.isUpper K = true ->
  msg = "Rate limit exceeded. Please try again later."
  \/ msg = "Stock symbol not found: " ++ K
  \/ msg = "Request timeout - Yahoo Finance API is not responding"
  \/ msg = "Failed to fetch price for " ++ K ->
  PricesRoute.status (PricesRoute.onError (Error msg))
  = if bool_decide (msg = "Rate limit exceeded. Please try again later.") then 429
    else if bool_decide (msg = "Stock symbol not found: " ++ K) then 404
    else 500.
Proof.
  intros HK [-> | [-> | [-> | ->]]]; unfold PricesRoute.onError; cbn [message Error].
  - reflexivity.
  - rewrite (bool_decide_eq_false_2 (_ = "Rate limit exceeded. Please try again later."))
      by discriminate.
    rewrite bool_decide_eq_true_2 by done.
    rewrite !includes_app_upper by done. reflexivity.
  - rewrite (bool_decide_eq_false_2 (_ = "Rate limit exceeded. Please try again later."))
      by discriminate.
    rewrite bool_decide_eq_false_2 by discriminate. reflexivity.
  - rewrite (bool_decide_eq_false_2 (_ = "Rate limit exceeded. Please try again later."))
      by discriminate.
    rewrite bool_decide_eq_false_2 by discriminate.
    rewrite !includes_app_upper by done. reflexivity.
Qed.

Lemma getStockPrice_valid_rejections env symbol useCache store e :
  isValidStockSymbol (normalizeSymbol symbol) = true ->
  result_of (getStockPrice env symbol useCache store) = Rejected e ->
  exists msg, e = Error msg
    /\ (msg = "Rate limit exceeded. Please try again later."
        \/ msg = "Stock symbol not found: " ++ normalizeSymbol symbol
        \/ msg = "Request timeout - Yahoo Finance API is not responding"
        \/ msg = "Failed to fetch price for " ++ normalizeSymbol symbol).
Proof.
  intros Hvalid. rewrite getStockPrice_run, Hvalid. unfold result_of.
  destruct (checkRateLimitWith _ _ _ _ _) as [[] store'].
  - destruct (if useCache then _ else _); [discriminate|]. simpl. intros Hr.
    apply fetched_rejected in Hr as (msg & -> & Hmsg).
    exists msg. split; [done|]. tauto.
  - simpl. intros [= <-]. eexists. split; [done|]. auto.
Qed.

Lemma singleSymbol_run env symbol useCache msg store :
  let K := normalizeSymbol symbol in
  let lookup := getStockPrice (lookups env 0%nat) K useCache store in
  singleSymbol env symbol useCache msg store =
    if singlePriceSchema symbol then
      if isValidStockSymbol K then
        (match result_of lookup with
         | Resolved sp => Resolved (succeed (OnePrice sp) msg)
         | Rejected e => Rejected e
         end, state_of lookup, List.map Lookup (trace_of lookup))
      else (Resolved (failure 400 ("Invalid stock symbol format: " ++ symbol) None),
            store, [])
    else (Resolved (failure 400 "Invalid symbol parameter" None), store, []).
Proof.
  intros K lookup. subst K lookup. unfold singleSymbol.
  destruct (singlePriceSchema symbol); [|reflexivity]. simpl.
  destruct (isValidStockSymbol (normalizeSymbol symbol)); [|reflexivity]. simpl.
  unfold bind, mapEvents, result_of, state_of, trace_of.
  destruct (getStockPrice _ _ _ _) as [[[sp|e] store'] t]; simpl; [|reflexivity].
  by rewrite app_nil_r.
Qed.

Lemma GET_symbol_run env symbol symbols useCache store :
  symbol <> "" ->
  let K := normalizeSymbol symbol in
  let lookup := getStockPrice (lookups env 0%nat) K
                  (negb (bool_decide (useCache = Some "false"))) store in
  GET env None (Some symbol) symbols useCache store =
    if singlePriceSchema symbol && isValidStockSymbol K then
      (Resolved match result_of lookup with
                | Resolved sp => succeed (OnePrice sp) None
                | Rejected e => ofBatch (PricesRoute.onError e)
                end,
       state_of lookup, List.map Lookup (trace_of lookup))
    else
      (Resolved (failure 400
                   (if singlePriceSchema symbol
                    then "Invalid stock symbol format: " ++ symbol
                    else "Invalid symbol parameter") None),
       store, []).
Proof.
  intros Hsymbol K lookup.
  assert (Htruthy : param_truthy (Some symbol) = true) by (by destruct symbol).
  unfold GET. rewrite Htruthy. cbn [param_truthy].
  change (default "" (Some symbol)) with symbol.
  unfold try_catch. rewrite singleSymbol_run. fold K. fold lookup.
  destruct (singlePriceSchema symbol); [|reflexivity].
  destruct (isValidStockSymbol K); [|reflexivity]. cbn [andb].
  destruct (result_of lookup); [reflexivity|].
  unfold ret. by rewrite app_nil_r.
Qed.

(** Property X8. The single-symbol branch of GET /api/prices always answers.
    A symbol longer than ten characters or malformed once normalised gives 400
    with no lookup and no charge to the rate limiter.  Otherwise the answer
    follows the lookup of the normalised symbol: 200 with its entry, 429 when
    the rate limit is exceeded, 404 when the symbol is not found, and 500 for
    every other failure, the message of the failure being the error text. *)
Theorem GET_single_symbol_status env symbol symbols useCache store
    (Hsymbol : symbol <> "") :
  let K := normalizeSymbol symbol in
  let lookup := getStockPrice (lookups env 0%nat) K
                  (negb (bool_decide (useCache = Some "false"))) store in
  exists r,
    result_of (GET env None (Some symbol) symbols useCache store) = Resolved r
    /\ (singlePriceSchema symbol && isValidStockSymbol K = false ->
        status r = 400
        /\ GET env None (Some symbol) symbols useCache store = (Resolved r, store, []))
    /\ (singlePriceSchema symbol && isValidStockSymbol K = true ->
        match result_of lookup with
        | Resolved sp =>
            status r = 200 /\ data (body r) = Some (OnePrice sp)
            /\ YahooFinance.symbol sp = K
        | Rejected e =>
            api_error (body r) = Some (message e)
            /\ status r
               = if bool_decide (message e = "Rate limit exceeded. Please try again later.")
                 then 429
                 else if bool_decide (message e = "Stock symbol not found: " ++ K)
                      then 404
                      else 500
        end).
Proof.
  intros K lookup. rewrite (GET_symbol_run env symbol symbols useCache store Hsymbol).
  fold K. fold lookup.
  destruct (singlePriceSchema symbol && isValidStockSymbol K) eqn:Hok.
  2:{ eexists. split; [reflexivity|]. split; [done|discriminate]. }
  apply andb_prop in Hok as [_ Hvalid].
  eexists. split; [reflexivity|]. split; [discriminate|]. intros _.
  destruct (result_of lookup) as [sp|e] eqn:Hlookup.
  - repeat split. subst lookup.
    apply getStockPrice_resolved in Hlookup as [_ ->]. subst K.
    apply normalizeSymbol_idem.
  - split; [reflexivity|]. subst lookup K.
    apply getStockPrice_valid_rejections in Hlookup;
      [|by rewrite normalizeSymbol_idem].
    destruct Hlookup as (msg & -> & Hmsg).
    rewrite normalizeSymbol_idem in Hmsg.
    unfold ofBatch, status.
    rewrite (onError_status_lookup (normalizeSymbol symbol) msg);
      [reflexivity|by apply valid_symbol_upper|done].
Qed.

Lemma GET_single_symbol_status_witness :
  exists r,
    result_of (GET {| lookups := fun _ => env0; search := {| t_search := 0; search_http := Fails db_down |} |}
                 None (Some "aapl") None None exhausted) = Resolved r
    /\ status r = 429.
Proof.
  destruct (GET_single_symbol_status
              {| lookups := fun _ => env0;
                 search := {| t_search := 0; search_http := Fails db_down |} |}
              "aapl" None None exhausted) as (r & Hr & _ & Hstatus);
    [discriminate|].
  exists r. split; [exact Hr|]. apply Hstatus. reflexivity.
Defined.
End PriceRouteStatus.

Section BatchRoute.
Import YahooFinance YahooFinanceAux Statements Reference Examples PricesRoute.

Lemma invalidSymbols_nil symbols :
  invalidSymbols symbols = [] <-> allValid symbols = true.
Proof.
  unfold invalidSymbols, allValid.
  induction symbols as [|s rest IH]; simpl; [done|].
  destruct (isValidStockSymbol (normalizeSymbol s)); simpl; [exact IH|].
  split; discriminate.
Qed.

Lemma batch_branch_run (envs : nat -> Env) symbols useCache store err400 msg200 :
  try_catch
    (if negb (multiplePricesSchema symbols) then
       ret (failure 400 "Invalid symbols parameter" (Some err400))
     else
       match invalidSymbols symbols with
       | (_ :: _) as invalid =>
           ret (failure 400
                  ("Invalid stock symbol format: " ++ JsString.join ", " invalid) None)
       | [] =>
           let* stockPrices := getMultipleStockPrices envs symbols useCache in
           ret {| status := 200;
                  body := {| success := true; data := Some stockPrices;
                             api_error := None; api_message := msg200 |} |}
       end)
    (fun error => ret (onError error)) store
  = if multiplePricesSchema symbols && allValid symbols then
      (Resolved {| status := 200;
                   body := {| success := true;
                              data := Some (perSymbolEntries envs symbols useCache store);
                              api_error := None; api_message := msg200 |} |},
       state_of (getMultipleStockPrices envs symbols useCache store),
       trace_of (getMultipleStockPrices envs symbols useCache store))
    else
      (Resolved (if multiplePricesSchema symbols
                 then failure 400 ("Invalid stock symbol format: "
                                   ++ JsString.join ", " (invalidSymbols symbols)) None
                 else failure 400 "Invalid symbols parameter" (Some err400)),
       store, []).
Proof.
  unfold try_catch.
  destruct (multiplePricesSchema symbols); simpl; [|reflexivity].
  destruct (allValid symbols) eqn:Hvalid.
  - apply invalidSymbols_nil in Hvalid. rewrite Hvalid.
    pose proof (getMultipleStockPrices_run symbols envs useCache store) as Hrun.
    unfold bind, ret, result_of, state_of, trace_of in *.
    destruct (getMultipleStockPrices envs symbols useCache store) as [[r st] t].
    simpl in *. subst r. by rewrite app_nil_r.
  - destruct (invalidSymbols symbols) eqn:Hinv; [|reflexivity].
    apply invalidSymbols_nil in Hinv. congruence.
Qed.

(** Property X9. The batch branches of GET and POST /api/prices are all or
    nothing: the request is answered 200 with one entry per symbol exactly
    when the list has 1 to 20 symbols of 1 to 10 characters each, all well
    formed once normalised; otherwise it is answered 400 and no lookup is
    made and the rate limiter is not charged. *)
Theorem batch_route_is_all_or_nothing envs store :
  (forall query useCache,
     let symbols := symbolArrayOf query in
     exists r,
       result_of (GET_symbols envs query useCache store) = Resolved r
       /\ (multiplePricesSchema symbols && allValid symbols = true ->
           status r = 200
           /\ data (body r) = Some (perSymbolEntries envs symbols useCache store))
       /\ (multiplePricesSchema symbols && allValid symbols = false ->
           status r = 400
           /\ GET_symbols envs query useCache store = (Resolved r, store, [])))
  /\ (forall symbols,
     exists r,
       result_of (POST_symbols envs symbols store) = Resolved r
       /\ (multiplePricesSchema symbols && allValid symbols = true ->
           status r = 200
           /\ data (body r) = Some (perSymbolEntries envs symbols false store))
       /\ (multiplePricesSchema symbols && allValid symbols = false ->
           status r = 400
           /\ POST_symbols envs symbols store = (Resolved r, store, []))).
Proof.
  split.
  - intros query useCache symbols. unfold GET_symbols. fold symbols.
    rewrite batch_branch_run.
    destruct (multiplePricesSchema symbols && allValid symbols) eqn:Hok.
    + eexists. split; [reflexivity|]. split; [done|discriminate].
    + eexists. split; [reflexivity|]. split; [discriminate|]. intros _.
      split; [|reflexivity]. by destruct (multiplePricesSchema symbols).
  - intros symbols. unfold POST_symbols. rewrite batch_branch_run.
    destruct (multiplePricesSchema symbols && allValid symbols) eqn:Hok.
    + eexists. split; [reflexivity|]. split; [done|discriminate].
    + eexists. split; [reflexivity|]. split; [discriminate|]. intros _.
      split; [|reflexivity]. by destruct (multiplePricesSchema symbols).
Qed.

(** One malformed symbol fails the whole request, before any lookup. *)
Example batch_route_one_malformed :
  GET_symbols (fun _ => env0) "AAPL,ZZZZZZ,MSFT" true ∅
  = (Resolved (failure 400 "Invalid stock symbol format: ZZZZZZ" None), ∅, []).
Proof. vm_compute. reflexivity. Qed.
End BatchRoute.

Section RefreshBypassesCache.
Import YahooFinance YahooFinanceAux Statements Reference Examples PricesApi.

Lemma getStockPrice_refresh_trace env symbol store :
  forallb (fun ev => negb (isCacheRead ev))
    (trace_of (getStockPrice env symbol false store)) = true.
Proof.
  rewrite getStockPrice_run. unfold trace_of, fetchEvents.
  destruct (isValidStockSymbol _); [|reflexivity].
  destruct (checkRateLimitWith _ _ _ _ _) as [[] store']; [|reflexivity].
  simpl. by destruct (fetched _ _).
Qed.

Lemma getMultipleStockPrices_trace envs symbol rest useCache store :
  trace_of (getMultipleStockPrices envs (symbol :: rest) useCache store)
  = (trace_of (getStockPrice (envs 0%nat) symbol useCache store)
     ++ trace_of (getMultipleStockPrices (fun i => envs (S i)) rest useCache
                    (state_of (getStockPrice (envs 0%nat) symbol useCache store))))%list.
Proof.
  unfold getMultipleStockPrices. rewrite imap_cons. cbn [promise_all].
  rewrite batch_entry_run. unfold compose.
  by destruct (promise_all _ _) as [[r store2] t2].
Qed.

Lemma getMultipleStockPrices_refresh_trace symbols : forall envs store,
  forallb (fun ev => negb (isCacheRead ev))
    (trace_of (getMultipleStockPrices envs symbols false store)) = true.
Proof.
  induction symbols as [|s rest IH]; intros envs store; [reflexivity|].
  rewrite getMultipleStockPrices_trace, forallb_app.
  by rewrite getStockPrice_refresh_trace, IH.
Qed.

(** Property X10. POST /api/prices never reads the price cache, whatever the
    body: a refresh is always served by the endpoint or fails. *)
Theorem POST_never_reads_cache env body store k :
  ~ In (Lookup (DbFindUnique k)) (trace_of (POST env body store)).
Proof.
  assert (Hmap : forall t, forallb (fun ev => negb (isCacheRead ev)) t = true ->
                           ~ In (Lookup (DbFindUnique k)) (List.map Lookup t)).
  { intros t Hall [ev [Hev Hin]]%in_map_iff. injection Hev as ->.
    rewrite forallb_forall in Hall. by apply Hall in Hin. }
  unfold POST, try_catch.
  destruct (param_truthy (body_symbol body)).
  - rewrite singleSymbol_run.
    destruct (singlePriceSchema _); [|by intros []].
    destruct (isValidStockSymbol _); [|by intros []].
    destruct (result_of _); unfold trace_of; simpl; rewrite ?app_nil_r;
      apply Hmap, getStockPrice_refresh_trace.
  - destruct (body_symbols body) as [symbols|]; [|by intros []].
    unfold bind, mapEvents, PricesRoute.POST_symbols.
    rewrite batch_branch_run.
    destruct (PricesRoute.multiplePricesSchema symbols && allValid symbols);
      unfold trace_of; simpl; [|by intros []].
    rewrite !app_nil_r. apply Hmap, getMultipleStockPrices_refresh_trace.
Qed.
End RefreshBypassesCache.

Section SearchRoute.
Import YahooFinance YahooFinanceAux Statements Reference Examples PricesApi.

(** Property X11. The search branch of GET /api/prices takes precedence over
    the other parameters and always answers.  For a query of the ASCII range
    of 1 to 50 characters it answers 200 with the result of the search, at
    most ten symbols; it charges the "search" budget exactly once and then
    sends one request to the search endpoint when the charge is allowed and
    none when it is refused, and the rate limiter is left as that one
    charge leaves it.  For a longer query it answers 400 with no operation
    at all and the rate limiter unchanged. *)
Theorem GET_search_never_fails env query symbol symbols useCache store
    (Hquery : query <> "") (Hascii : JsString.all isAscii query = true) :
  let run := GET env (Some query) symbol symbols useCache store in
  let charge := checkRateLimitWith RATE_LIMIT_REQUESTS RATE_LIMIT_WINDOW
                  (t_search (search env)) "search" store in
  exists r,
    result_of run = Resolved r
    /\ ((String.length query <= 50)%nat ->
        status r = 200
        /\ (exists results,
              data (body r) = Some (Symbols results)
              /\ result_of (searchStockSymbols (search env) query store)
                 = Resolved results
              /\ (List.length results <= 10)%nat
              /\ (charge.1 = false -> results = []))
        /\ state_of run = charge.2
        /\ trace_of run
           = if charge.1
             then [Lookup (RateLimitCheck "search"); HttpSearch query]
             else [Lookup (RateLimitCheck "search")])
    /\ ((50 < String.length query)%nat ->
        status r = 400 /\ run = (Resolved r, store, [])).
Proof.
  intros run charge. subst run charge.
  assert (Htruthy : param_truthy (Some query) = true) by (by destruct query).
  assert (Hschema : searchSchema query = (String.length query <=? 50)%nat).
  { unfold searchSchema. destruct query; [done|reflexivity]. }
  unfold GET. rewrite Htruthy. change (default "" (Some query)) with query.
  unfold try_catch. rewrite Hschema.
  destruct (String.length query <=? 50)%nat eqn:Hlen; simpl.
  2:{ apply Nat.leb_gt in Hlen. eexists. split; [reflexivity|]. split; [lia|done]. }
  apply Nat.leb_le in Hlen.
  unfold bind. rewrite searchStockSymbols_run.
  destruct (checkRateLimitWith _ _ _ _ _) as [[] store']; simpl.
  - eexists. split; [reflexivity|]. split; [|lia]. intros _.
    split; [reflexivity|]. split; [|done].
    eexists. split; [reflexivity|]. split; [reflexivity|]. split; [|discriminate].
    destruct (search_http _); [rewrite List.length_firstn; lia|simpl; lia].
  - eexists. split; [reflexivity|]. split; [|lia]. intros _.
    split; [reflexivity|]. split; [|done].
    exists []. split; [reflexivity|]. split; [reflexivity|]. split; [simpl; lia|done].
Qed.

Lemma GET_search_never_fails_witness :
  exists r,
    result_of (GET {| lookups := fun _ => env0;
                      search := {| t_search := 0; search_http := Fails db_down |} |}
                 (Some "apple") (Some "AAPL") None None ∅) = Resolved r
    /\ status r = 200.
Proof.
  destruct (GET_search_never_fails
              {| lookups := fun _ => env0;
                 search := {| t_search := 0; search_http := Fails db_down |} |}
              "apple" (Some "AAPL") None None ∅) as (r & Hr & Hok & _);
    [discriminate|reflexivity|].
  exists r. split; [exact Hr|]. apply Hok. simpl. lia.
Defined.
End SearchRoute.

(** * Further properties of the symbols, the rate limiter and the alerts route *)

Section SymbolAcceptance.
Import JsString Reference.

Lemma length_toUpperCase s : String.length (toUpperCase s) = String.length s.
Proof. induction s as [|c s IH]; simpl; [reflexivity|by rewrite IH]. Qed.

Lemma isUpper_upperChar_letter c : isUpper (upperChar c) = isLetter c.
Proof.
  destruct c as [[] [] [] [] [] [] [] []]; vm_compute; reflexivity.
Qed.

Lemma all_isUpper_toUpperCase_letters s :
  all isUpper (toUpperCase s) = all isLetter s.
Proof.
  induction s as [|c s IH]; simpl; [reflexivity|].
  by rewrite isUpper_upperChar_letter, IH.
Qed.

(** Property X12.  A symbol of the ASCII range is accepted, once normalised,
    exactly when it is one to five letters between blanks at its ends: case
    does not matter, and blanks inside, digits and punctuation are refused.
    The normalised form of an accepted symbol is all capitals, of the same
    length as the trimmed input. *)
Theorem symbol_acceptance (s : string) (Hascii : all isAscii s = true) :
  (isValidStockSymbol (normalizeSymbol s) = true
   <-> (1 <= String.length (trim s) <= 5)%nat /\ all isLetter (trim s) = true)
  /\ (isValidStockSymbol (normalizeSymbol s) = true ->
      all isUpper (normalizeSymbol s) = true
      /\ String.length (normalizeSymbol s) = String.length (trim s)).
Proof.
  unfold isValidStockSymbol, normalizeSymbol.
  rewrite toUpperCase_idem. unfold symbolRegex_test.
  rewrite length_toUpperCase, all_isUpper_toUpperCase_letters.
  rewrite !andb_true_iff, !Nat.leb_le. split.
  - tauto.
  - intros [_ Hall]. split; [|reflexivity].
    exact Hall.
Qed.

Lemma symbol_acceptance_witness :
  isValidStockSymbol (normalizeSymbol "  aapl ") = true
  <-> (1 <= String.length (trim "  aapl ") <= 5)%nat
      /\ all isLetter (trim "  aapl ") = true.
Proof.
  apply (symbol_acceptance "  aapl "). reflexivity.
Defined.

(** Blanks inside a symbol, digits and dots are not accepted. *)
Example symbols_not_accepted :
  List.map (fun s => isValidStockSymbol (normalizeSymbol s))
    ["BRK.B"; "A B"; "GOOGLE"; "X1"; ""; "   "]
  = [false; false; false; false; false; false].
Proof. reflexivity. Qed.
End SymbolAcceptance.

Section RateLimiterBudget.
Import YahooFinance.

Lemma budget_pattern times : forall (c requests : Z),
  c <= requests ->
  imap (fun i (_ : Z) => bool_decide (c + Z.of_nat i < requests)) times
  = (List.repeat true (Nat.min (List.length times) (Z.to_nat (requests - c)))
     ++ List.repeat false (List.length times - Z.to_nat (requests - c)))%list.
Proof.
  induction times as [|t rest IH]; intros c requests Hle; [reflexivity|].
  rewrite imap_cons. cbn [List.length].
  destruct (decide (c < requests)) as [Hlt|Hge].
  - rewrite bool_decide_eq_true_2 by lia.
    replace (Z.to_nat (requests - c)) with (S (Z.to_nat (requests - (c + 1)))) by lia.
    cbn [Nat.min Nat.sub List.repeat app]. f_equal.
    rewrite <- IH by lia. apply imap_ext. intros i x _. simpl.
    apply bool_decide_ext. lia.
  - replace (Z.to_nat (requests - c)) with 0%nat by lia.
    rewrite bool_decide_eq_false_2 by lia.
    rewrite Nat.min_0_r. cbn [List.repeat app Nat.sub]. f_equal.
    specialize (IH c requests Hle).
    replace (Z.to_nat (requests - c)) with 0%nat in IH by lia.
    rewrite Nat.min_0_r, Nat.sub_0_r in IH. cbn [List.repeat app] in IH.
    rewrite <- IH. apply imap_ext. intros i x _. simpl.
    rewrite !bool_decide_eq_false_2; [done|lia|lia].
Qed.

(** Property X13.  For every budget of at least one call: of the calls
    of one key made from the start of a window to its reset time, the first
    [requests] are allowed and all the later ones refused, however many there
    are and however they are spread over the window. *)
Theorem window_admits_exactly_the_budget (requests window now : Z) (times : list Z)
    (key : string) (store : RateLimitStore)
    (Hbudget : 1 <= requests)
    (Hstart : store !! key = None
              \/ exists record, store !! key = Some record /\ resetTime record < now)
    (Hwithin : Forall (fun t => t <= now + window) times) :
  (allowMany requests window (now :: times) key store).1
  = (List.repeat true (Nat.min (S (List.length times)) (Z.to_nat requests))
     ++ List.repeat false (S (List.length times) - Z.to_nat requests))%list.
Proof.
  assert (Hfirst : checkRateLimitWith requests window now key store
                   = (true, <[key := {| count := 1; resetTime := now + window |}]> store)).
  { destruct Hstart as [Hnone|(record & Hsome & Hlt)].
    - by apply checkRateLimitWith_first.
    - by eapply checkRateLimitWith_elapsed. }
  cbn [allowMany]. rewrite Hfirst.
  pose proof (allowMany_within requests window times key
                (<[key := {| count := 1; resetTime := now + window |}]> store)
                {| count := 1; resetTime := now + window |}) as Hrest.
  rewrite lookup_insert_eq in Hrest. specialize (Hrest eq_refl Hwithin).
  destruct (allowMany _ _ times _ _) as [bs store2]. simpl in *.
  rewrite Hrest, budget_pattern by lia.
  replace (Z.to_nat requests) with (S (Z.to_nat (requests - 1))) by lia.
  reflexivity.
Qed.

Lemma window_admits_exactly_the_budget_witness :
  (allowMany 3 60000 [1000; 1001; 1500; 61000; 61000] "k"
     (<["k" := {| count := 99; resetTime := 999 |}]> ∅)).1
  = [true; true; true; false; false].
Proof.
  apply (window_admits_exactly_the_budget 3 60000 1000 [1001; 1500; 61000; 61000]).
  - lia.
  - right. eexists. split; [reflexivity|]. simpl. lia.
  - repeat constructor; simpl; lia.
Defined.

Lemma checkRateLimitWith_count requests window now key (store : RateLimitStore) :
  1 <= requests ->
  (forall record, store !! key = Some record -> 1 <= count record <= requests) ->
  forall record, (checkRateLimitWith requests window now key store).2 !! key = Some record ->
                 1 <= count record <= requests.
Proof.
  intros Hbudget Hinv record. unfold checkRateLimitWith.
  destruct (store !! key) as [old|] eqn:Hold; simpl.
  - specialize (Hinv old eq_refl).
    destruct (now >? resetTime old); simpl.
    { rewrite lookup_insert_eq. intros [= <-]. simpl. lia. }
    destruct (count old >=? requests) eqn:Hge; simpl.
    + rewrite Hold. intros [= <-]. done.
    + rewrite lookup_insert_eq. intros [= <-]. simpl.
      rewrite Z.geb_leb in Hge. apply Z.leb_gt in Hge. lia.
  - rewrite lookup_insert_eq. intros [= <-]. simpl. lia.
Qed.

(** Property X14.  Whatever the times of the calls of a key, the count
    the limiter keeps for it stays between one and the budget, the records of
    the other keys are not touched, and the key has a record after its
    first call. *)
Theorem count_stays_within_budget (requests window : Z) (times : list Z)
    (key : string) (store : RateLimitStore)
    (Hbudget : 1 <= requests)
    (Hinv : forall record, store !! key = Some record -> 1 <= count record <= requests) :
  let store' := (allowMany requests window times key store).2 in
  (forall record, store' !! key = Some record -> 1 <= count record <= requests)
  /\ (forall key', key' <> key -> store' !! key' = store !! key')
  /\ (times <> [] -> is_Some (store' !! key)).
Proof.
  revert store Hinv. induction times as [|now rest IH]; intros store Hinv; simpl.
  { split; [exact Hinv|]. split; [done|done]. }
  pose proof (checkRateLimitWith_count requests window now key store Hbudget Hinv) as Hstep.
  assert (Hother : forall key', key' <> key ->
            (checkRateLimitWith requests window now key store).2 !! key' = store !! key').
  { intros key' Hne. by apply checkRateLimitWith_other. }
  assert (Hsome : is_Some ((checkRateLimitWith requests window now key store).2 !! key)).
  { unfold checkRateLimitWith. destruct (store !! key) as [old|] eqn:Hold; simpl.
    - destruct (now >? resetTime old); simpl; [by rewrite lookup_insert_eq|].
      destruct (count old >=? requests); simpl; [by rewrite Hold|by rewrite lookup_insert_eq].
    - by rewrite lookup_insert_eq. }
  destruct (checkRateLimitWith requests window now key store) as [b store1].
  simpl in *. specialize (IH store1 Hstep).
  destruct (allowMany requests window rest key store1) as [bs store2] eqn:Hrest.
  simpl in *.
  destruct IH as (IH1 & IH2 & IH3).
  split; [exact IH1|]. split.
  - intros key' Hne. rewrite IH2 by done. by apply Hother.
  - intros _. destruct (decide (rest = [])) as [->|Hne]; [|by apply IH3].
    simpl in *. by injection Hrest as _ <-.
Qed.

Lemma count_stays_within_budget_witness :
  1 <= count {| count := 2; resetTime := 60000 |} <= 2.
Proof.
  apply (proj1 (count_stays_within_budget 2 60000 [0; 1; 2; 3] "k" ∅
                  ltac:(lia)
                  ltac:(intros record; rewrite lookup_empty; discriminate))
           {| count := 2; resetTime := 60000 |}).
  reflexivity.
Defined.
End RateLimiterBudget.


Section DeleteRoute.
Import AlertsRoute Reference Examples.

Lemma DELETE_run db_reply singleId bulkIds db :
  DELETE db_reply singleId bulkIds db
  = match requestedIds singleId bulkIds with
    | [] => (Resolved (failure 400
                         (if negb (param_truthy singleId) && negb (param_truthy bulkIds)
                          then "Either id or ids parameter is required"
                          else "No valid alert IDs provided")), db, [])
    | (_ :: _) as ids =>
        match db_reply with
        | Ok _ =>
            (Resolved {| status := 200; success := true;
                         deletedCount := Some (deleteMany ids db).1;
                         api_error := None;
                         api_message := Some (decimal (deleteMany ids db).1
                                              ++ " alert(s) deleted successfully") |},
             (deleteMany ids db).2, [AlertDeleteMany ids])
        | Fails e =>
            (Resolved (failure 500
                         (if JsString.includes "P2002" (message e)
                          then "A record with this data already exists"
                          else if JsString.includes "P2025" (message e)
                               then "Record not found"
                               else if JsString.includes "P2003" (message e)
                                    then "Foreign key constraint failed"
                                    else "Database operation failed")),
             db, [AlertDeleteMany ids])
        end
    end.
Proof.
  unfold DELETE, requestedIds, try_catch.
  destruct (param_truthy singleId) eqn:Hsingle; cbn [negb andb].
  - cbn [List.length Nat.eqb].
    unfold bind, withDbErrorHandling, try_catch, prisma_alert_deleteMany, bind, emit,
      ret, throw.
    destruct db_reply as [u|e]; cbn [fst snd app].
    + by destruct (deleteMany _ db).
    + destruct (JsString.includes "P2002" (message e)); [reflexivity|].
      destruct (JsString.includes "P2025" (message e)); [reflexivity|].
      destruct (JsString.includes "P2003" (message e)); reflexivity.
  - destruct (param_truthy bulkIds) eqn:Hbulk; cbn [negb andb]; [|reflexivity].
    destruct (List.filter _ _) as [|i ids] eqn:Hids; [reflexivity|].
    cbn [List.length Nat.eqb].
    unfold bind, withDbErrorHandling, try_catch, prisma_alert_deleteMany, bind, emit,
      ret, throw.
    destruct db_reply as [u|e]; cbn [fst snd app].
    + by destruct (deleteMany _ db).
    + destruct (JsString.includes "P2002" (message e)); [reflexivity|].
      destruct (JsString.includes "P2025" (message e)); [reflexivity|].
      destruct (JsString.includes "P2003" (message e)); reflexivity.
Qed.

Lemma deleteMany_integrity ids db :
  referentialIntegrity db -> referentialIntegrity (deleteMany ids db).2.
Proof.
  intros Hint t Ht. apply deleteMany_triggered in Ht as [Hin Hnot].
  destruct (Hint t Hin) as (a & Ha & Hid). exists a. split; [|done].
  unfold deleteMany. cbn [snd alerts]. apply filter_In. split; [done|].
  apply negb_true_iff, not_true_iff_false. intros Hmem%memberOf_In.
  apply Hnot. split; [by rewrite <- Hid|by exists a].
Qed.

(** Property X15.  DELETE keeps the tables consistent: when every
    triggered alert references an alert of the table before the request, so
    does every triggered alert after it, whatever the parameters and
    whatever the database answers. *)
Theorem DELETE_preserves_referential_integrity db_reply singleId bulkIds db
    (Hintegrity : referentialIntegrity db) :
  referentialIntegrity (state_of (DELETE db_reply singleId bulkIds db)).
Proof.
  rewrite DELETE_run.
  destruct (requestedIds singleId bulkIds) as [|i ids]; [exact Hintegrity|].
  destruct db_reply as [u|e]; [|exact Hintegrity].
  by apply deleteMany_integrity.
Qed.

Lemma DELETE_preserves_referential_integrity_witness :
  referentialIntegrity (state_of (DELETE (Ok tt) None (Some "a2, a7") db2)).
Proof.
  apply DELETE_preserves_referential_integrity.
  intros t [<-|[<-|[<-|[]]]]; simpl.
  - exists (alert_above true). auto.
  - exists alert_below. auto.
  - exists (alert_above true). auto.
Defined.

Lemma length_filter_split {A} (p : A -> bool) (l : list A) :
  List.length l
  = (List.length (List.filter p l) + List.length (List.filter (fun x => negb (p x)) l))%nat.
Proof.
  induction l as [|x l IH]; simpl; [reflexivity|].
  destruct (p x); simpl; lia.
Qed.

(** Property X16.  When the request names at least one id and the
    database answers, DELETE issues one statement for exactly the ids named
    and answers 200; the alerts left are those whose id was not named, in
    their order, the count reported is the number of alerts that went
    (0 when no id is known), and a triggered alert goes exactly when the
    alert it references went. *)
Theorem DELETE_deletes_the_named_alerts singleId bulkIds db
    (Hnamed : requestedIds singleId bulkIds <> []) :
  let ids := requestedIds singleId bulkIds in
  let run := DELETE (Ok tt) singleId bulkIds db in
  exists r,
    result_of run = Resolved r
    /\ status r = 200
    /\ deletedCount r
       = Some (Z.of_nat (List.length (alerts db))
               - Z.of_nat (List.length (alerts (state_of run))))
    /\ alerts (state_of run)
       = List.filter (fun a => negb (memberOf ids (alert_id a))) (alerts db)
    /\ (forall t, In t (triggered_alerts (state_of run))
                  <-> In t (triggered_alerts db)
                      /\ ~ (In (alertId t) ids
                            /\ exists a, In a (alerts db) /\ alert_id a = alertId t))
    /\ trace_of run = [AlertDeleteMany ids].
Proof.
  intros ids run. subst run. rewrite DELETE_run. fold ids.
  destruct ids as [|i ids'] eqn:Hids; [done|]. rewrite <- Hids.
  eexists. split; [reflexivity|]. unfold state_of, trace_of. cbn [fst snd status deletedCount].
  split; [reflexivity|]. split.
  - f_equal. unfold deleteMany. cbn [fst snd alerts].
    rewrite (length_filter_split (fun a => memberOf ids (alert_id a)) (alerts db)). lia.
  - split; [reflexivity|]. split; [|reflexivity].
    intros t. apply deleteMany_triggered.
Qed.

Lemma DELETE_deletes_the_named_alerts_witness :
  exists r,
    result_of (DELETE (Ok tt) None (Some " a1 ,,missing") db2) = Resolved r
    /\ status r = 200
    /\ deletedCount r = Some (2 - 1).
Proof.
  destruct (DELETE_deletes_the_named_alerts None (Some " a1 ,,missing") db2)
    as (r & Hr & Hstatus & Hcount & _); [discriminate|].
  exists r. split; [exact Hr|]. split; [exact Hstatus|exact Hcount].
Defined.

(** Property X17.  A DELETE request that names no id (no parameter, an
    empty one, or an [ids] list of blanks and commas only) is answered 400
    without any statement being sent to the database. *)
Theorem DELETE_without_ids_changes_nothing db_reply singleId bulkIds db
    (Hnone : requestedIds singleId bulkIds = []) :
  exists r,
    DELETE db_reply singleId bulkIds db = (Resolved r, db, [])
    /\ status r = 400 /\ success r = false /\ deletedCount r = None.
Proof.
  rewrite DELETE_run, Hnone. eexists. split; [reflexivity|]. by repeat split.
Qed.

Lemma DELETE_without_ids_changes_nothing_witness :
  exists r,
    DELETE (Ok tt) (Some "") (Some " , ,") db2 = (Resolved r, db2, [])
    /\ status r = 400 /\ success r = false /\ deletedCount r = None.
Proof.
  apply DELETE_without_ids_changes_nothing. reflexivity.
Defined.

(** Property X18.  When the database fails, DELETE answers 500, deletes
    nothing, and reports one of the four fixed messages of
    [withDbErrorHandling]: the message of the database client never reaches
    the response. *)
Theorem DELETE_database_failure_is_sanitised e singleId bulkIds db
    (Hnamed : requestedIds singleId bulkIds <> []) :
  exists r msg,
    DELETE (Fails e) singleId bulkIds db
    = (Resolved r, db, [AlertDeleteMany (requestedIds singleId bulkIds)])
    /\ status r = 500 /\ success r = false
    /\ api_error r = Some msg /\ In msg dbMessages.
Proof.
  rewrite DELETE_run.
  destruct (requestedIds singleId bulkIds) as [|i ids]; [done|].
  eexists. eexists. split; [reflexivity|]. split; [reflexivity|]. split; [reflexivity|].
  split; [reflexivity|]. unfold dbMessages.
  destruct (JsString.includes "P2002" (message e)); [simpl; auto|].
  destruct (JsString.includes "P2025" (message e)); [simpl; auto|].
  destruct (JsString.includes "P2003" (message e)); simpl; auto.
Qed.

Lemma DELETE_database_failure_is_sanitised_witness :
  exists r msg,
    DELETE (Fails db_down) (Some "a1") None db2
    = (Resolved r, db2, [AlertDeleteMany (requestedIds (Some "a1") None)])
    /\ status r = 500 /\ success r = false
    /\ api_error r = Some msg /\ In msg dbMessages.
Proof.
  apply DELETE_database_failure_is_sanitised. discriminate.
Defined.
End DeleteRoute.

(** * Further properties: the database helpers, alerts, device tokens and
    notifications *)

Section DbErrorHandling.
Import Reference.
Context {S E A : Type}.

(** Property X19.  [withDbErrorHandling] is transparent for an operation
    that succeeds, and changes neither the state nor the operations issued
    in any case.  A failure is replaced by an error whose message is one of
    four fixed texts: the one for a duplicate when the original message
    mentions P2002, and the generic one when it mentions none of the three
    codes. *)
Theorem withDbErrorHandling_contract (operation : M S E A) (s : S) :
  let plain := operation s in
  let run := DbLib.withDbErrorHandling operation s in
  state_of run = state_of plain
  /\ trace_of run = trace_of plain
  /\ match result_of plain with
     | Resolved a => result_of run = Resolved a
     | Rejected e =>
         exists msg,
           result_of run = Rejected (Error msg)
           /\ In msg dbMessages
           /\ (JsString.includes "P2002" (message e) = true ->
               msg = "A record with this data already exists")
           /\ (JsString.includes "P2002" (message e) = false ->
               JsString.includes "P2025" (message e) = false ->
               JsString.includes "P2003" (message e) = false ->
               msg = "Database operation failed")
     end.
Proof.
  unfold DbLib.withDbErrorHandling, try_catch, throw, result_of, state_of, trace_of,
    dbMessages.
  destruct (operation s) as [[[a|e] s1] t1]; cbn [fst snd]; [done|].
  destruct (JsString.includes "P2002" (message e)); cbn [fst snd].
  { rewrite app_nil_r. repeat split. eexists. split; [reflexivity|].
    split; [simpl; auto|]. split; [done|discriminate]. }
  destruct (JsString.includes "P2025" (message e)); cbn [fst snd].
  { rewrite app_nil_r. repeat split. eexists. split; [reflexivity|].
    split; [simpl; auto|]. split; [discriminate|]. intros _ [=]. }
  destruct (JsString.includes "P2003" (message e)); cbn [fst snd].
  { rewrite app_nil_r. repeat split. eexists. split; [reflexivity|].
    split; [simpl; auto|]. split; [discriminate|]. intros _ _ [=]. }
  rewrite app_nil_r. repeat split. eexists. split; [reflexivity|].
  split; [simpl; auto|]. split; [discriminate|done].
Qed.
End DbErrorHandling.

Section DbHelpers.
Import DbLib.

(** The wrapper of the alerts route is the helper of [src/lib/db.ts]. *)
Lemma withDbErrorHandling_instance {A} (operation : AlertsRoute.Handler A) :
  AlertsRoute.withDbErrorHandling operation = DbLib.withDbErrorHandling operation.
Proof. reflexivity. Qed.

(** Property X20.  The three probes of the database issue exactly one
    query each.  [testDbConnection] and [getDbHealth] never fail: they
    report whether the query succeeded, the health report carrying the
    elapsed time or the message of the failure.  [initializeDatabase]
    fails exactly when the query fails, and then always with "Cannot connect
    to database", not with the cause. *)
Theorem database_probes env :
  testDbConnection env tt
  = (Resolved (match select1 env with Ok _ => true | Fails _ => false end), tt, [QueryRaw])
  /\ initializeDatabase env tt
     = (match select1 env with
        | Ok _ => Resolved tt
        | Fails _ => Rejected (Error "Cannot connect to database")
        end, tt, [QueryRaw])
  /\ exists h,
       getDbHealth env tt = (Resolved h, tt, [QueryRaw])
       /\ health_timestamp h = t_stamp env
       /\ match select1 env with
          | Ok _ => health_status h = "healthy"
                    /\ responseTime h = Some (t_end env - t_start env)
                    /\ health_error h = None
          | Fails e => health_status h = "unhealthy"
                       /\ responseTime h = None
                       /\ health_error h = Some (message e)
          end.
Proof.
  unfold testDbConnection, initializeDatabase, getDbHealth, testDbConnection,
    try_catch, bind, prisma_queryRaw, bind, emit, ret, throw.
  destruct (select1 env) as [u|e]; cbn.
  - split; [reflexivity|]. split; [reflexivity|]. eexists. split; [reflexivity|]. done.
  - split; [reflexivity|]. split; [reflexivity|]. eexists. split; [reflexivity|]. done.
Qed.
End DbHelpers.

Section AlertCreation.
Import AlertsRoute AlertsApi Reference.

Lemma POST_run env body db :
  POST env body db
  = match body with
    | Fails e => (Resolved (failure 500 (message e) None), db, [])
    | Ok b =>
        match createAlertSchema b with
        | None => (Resolved (failure 400 "Invalid request data" (Some ValidationIssues)),
                   db, [])
        | Some form =>
            let K := normalizeSymbol (form_symbol form) in
            let p := form_targetPrice form in
            let c := form_condition form in
            if isValidStockSymbol K then
              match find_reply env with
              | Fails e => (Resolved (failure 500 (message e) None), db,
                            [AlertFindFirst K p c])
              | Ok _ =>
                  match findFirst K p c db with
                  | Some _ =>
                      (Resolved (failure 409
                         "An active alert with the same parameters already exists" None),
                       db, [AlertFindFirst K p c])
                  | None =>
                      match write_reply env with
                      | Ok _ =>
                          (Resolved {| status := 201; success := true;
                                       data := Some (created env K p c);
                                       api_error := None;
                                       api_message := Some (Text "Alert created successfully") |},
                           {| alerts := (alerts db ++ [created env K p c])%list;
                              triggered_alerts := triggered_alerts db |},
                           [AlertFindFirst K p c; AlertCreate K p c])
                      | Fails e =>
                          (Resolved (failure 500
                             (if JsString.includes "P2002" (message e)
                              then "A record with this data already exists"
                              else if JsString.includes "P2025" (message e)
                                   then "Record not found"
                                   else if JsString.includes "P2003" (message e)
                                        then "Foreign key constraint failed"
                                        else "Database operation failed") None),
                           db, [AlertFindFirst K p c; AlertCreate K p c])
                      end
                  end
              end
            else (Resolved (failure 400 ("Invalid stock symbol format: "
                                         ++ form_symbol form) None), db, [])
        end
    end.
Proof.
  unfold POST, try_catch, request_json.
  destruct body as [b|e]; [|reflexivity].
  unfold bind at 1. unfold ret at 1. cbn [fst snd app].
  destruct (createAlertSchema b) as [form|]; [|reflexivity].
  cbn zeta. destruct (isValidStockSymbol _); cbn [negb]; [|reflexivity].
  unfold bind at 1, prisma_alert_findFirst, bind, emit. cbn [fst snd app].
  destruct (find_reply env) as [u|e]; [|reflexivity]. cbn [fst snd app].
  destruct (findFirst _ _ _ db) as [a|]; [reflexivity|].
  unfold DbLib.withDbErrorHandling, try_catch, prisma_alert_create, bind, emit, ret, throw.
  cbn [fst snd app].
  destruct (write_reply env) as [u'|e]; [reflexivity|]. cbn [fst snd app].
  destruct (JsString.includes "P2002" (message e)); [reflexivity|].
  destruct (JsString.includes "P2025" (message e)); [reflexivity|].
  destruct (JsString.includes "P2003" (message e)); reflexivity.
Qed.

Lemma createAlertSchema_Some b form :
  createAlertSchema b = Some form ->
  b = Some form /\ PricesRoute.symbolSchema (form_symbol form) = true
  /\ (0 < form_targetPrice form)%Q.
Proof.
  unfold createAlertSchema. destruct b as [f|]; [|discriminate].
  destruct (PricesRoute.symbolSchema (form_symbol f)) eqn:Hs; [|discriminate].
  destruct (Qle_bool (form_targetPrice f) 0) eqn:Hp; [discriminate|].
  intros [= <-]. split; [done|]. split; [done|].
  apply Qnot_le_lt. rewrite <- Qle_bool_iff, Hp. discriminate.
Qed.

(** Property X21.  POST /api/alerts always answers, with 201, 400, 409 or
    500, and never touches the triggered alerts.  Unless it answers 201 the
    database is unchanged.  When it answers 201 exactly one alert was added,
    the one returned: its symbol is the normalised symbol of the request and
    well formed, its target price that of the request and positive, it is
    active, and no active alert with the same symbol, price and condition
    existed before. *)
Theorem POST_creates_one_alert_or_nothing env body db :
  let run := POST env body db in
  exists r,
    result_of run = Resolved r
    /\ In (status r) [201; 400; 409; 500]
    /\ triggered_alerts (state_of run) = triggered_alerts db
    /\ (status r <> 201 -> state_of run = db /\ data r = None /\ success r = false)
    /\ (status r = 201 ->
        exists form a,
          body = Ok (Some form) /\ data r = Some a
          /\ alerts (state_of run) = (alerts db ++ [a])%list
          /\ alert_symbol a = normalizeSymbol (form_symbol form)
          /\ isValidStockSymbol (alert_symbol a) = true
          /\ targetPrice a = form_targetPrice form
          /\ (0 < targetPrice a)%Q
          /\ condition a = form_condition form
          /\ isActive a = true
          /\ findFirst (alert_symbol a) (targetPrice a) (condition a) db = None).
Proof.
  intros run. subst run. rewrite POST_run. unfold result_of, state_of.
  destruct body as [b|e].
  2:{ eexists. split; [reflexivity|]. cbn. split; [auto|]. split; [done|].
      split; [done|discriminate]. }
  destruct (createAlertSchema b) as [form|] eqn:Hschema.
  2:{ eexists. split; [reflexivity|]. cbn. split; [auto|]. split; [done|].
      split; [done|discriminate]. }
  apply createAlertSchema_Some in Hschema as (-> & Hsym & Hpos).
  cbn zeta. destruct (isValidStockSymbol _) eqn:Hvalid.
  2:{ eexists. split; [reflexivity|]. cbn. split; [auto|]. split; [done|].
      split; [done|discriminate]. }
  destruct (find_reply env) as [u|e].
  2:{ eexists. split; [reflexivity|]. cbn. split; [auto 6|]. split; [done|].
      split; [done|discriminate]. }
  destruct (findFirst _ _ _ db) as [a|] eqn:Hfind.
  { eexists. split; [reflexivity|]. cbn. split; [auto|]. split; [done|].
    split; [done|discriminate]. }
  destruct (write_reply env) as [u'|e].
  2:{ eexists. split; [reflexivity|]. cbn. split; [auto 6|]. split; [done|].
      split; [done|discriminate]. }
  eexists. split; [reflexivity|]. cbn [fst snd status data success triggered_alerts alerts].
  split; [simpl; auto|]. split; [done|]. split; [done|]. intros _.
  exists form, (created env (normalizeSymbol (form_symbol form)) (form_targetPrice form)
                  (form_condition form)).
  cbn. done.
Qed.


End AlertCreation.

Section AlertCreationWitness.
Import AlertsRoute AlertsApi Reference Examples MoreExamples.

End AlertCreationWitness.

Section AlertUpdate.
Import AlertsRoute AlertsApi Reference Examples MoreExamples.

Lemma updateAlertSchema_Some b form :
  updateAlertSchema b = Some form ->
  b = Some form
  /\ (forall s, update_symbol form = Some s -> PricesRoute.symbolSchema s = true)
  /\ (forall p, update_targetPrice form = Some p -> (0 < p)%Q).
Proof.
  unfold updateAlertSchema. destruct b as [f|]; [|discriminate].
  destruct (update_symbol f) as [s|] eqn:Hs;
    destruct (update_targetPrice f) as [p|] eqn:Hp; cbn [andb].
  - destruct (PricesRoute.symbolSchema s) eqn:Hss; [|discriminate]. cbn [andb].
    destruct (Qle_bool p 0) eqn:Hle; [discriminate|]. intros [= <-].
    rewrite Hs, Hp. split; [done|]. split; [by intros ? [= <-]|].
    intros ? [= <-]. apply Qnot_le_lt. rewrite <- Qle_bool_iff, Hle. discriminate.
  - destruct (PricesRoute.symbolSchema s) eqn:Hss; [|discriminate]. cbn [andb].
    intros [= <-]. rewrite Hs, Hp. split; [done|]. split; [by intros ? [= <-]|discriminate].
  - destruct (Qle_bool p 0) eqn:Hle; [discriminate|]. intros [= <-].
    rewrite Hs, Hp. split; [done|]. split; [discriminate|].
    intros ? [= <-]. apply Qnot_le_lt. rewrite <- Qle_bool_iff, Hle. discriminate.
  - intros [= <-]. rewrite Hs, Hp. split; [done|]. split; discriminate.
Qed.

Lemma symbolSchema_truthy s : PricesRoute.symbolSchema s = true -> JsString.truthy s = true.
Proof. by destruct s. Qed.

Lemma PUT_run env body db :
  PUT env body db
  = match body with
    | Fails e => (Resolved (failure 500 (message e) None), db, [])
    | Ok b =>
        match updateAlertSchema b with
        | None => (Resolved (failure 400 "Invalid request data" (Some ValidationIssues)),
                   db, [])
        | Some form =>
            let id := update_id form in
            let updateData := updateDataOf form in
            if match update_symbol updateData with
               | Some K => isValidStockSymbol K
               | None => true
               end
            then
              match find_reply env with
              | Fails e => (Resolved (failure 500 (message e) None), db,
                            [AlertFindUnique id])
              | Ok _ =>
                  match findUnique id db with
                  | None => (Resolved (failure 404 "Alert not found" None), db,
                             [AlertFindUnique id])
                  | Some a =>
                      match write_reply env with
                      | Ok _ =>
                          (Resolved {| status := 200; success := true;
                                       data := Some (updated env updateData a);
                                       api_error := None;
                                       api_message := Some (Text "Alert updated successfully") |},
                           {| alerts := updateRow env updateData (alerts db);
                              triggered_alerts := triggered_alerts db |},
                           [AlertFindUnique id; AlertUpdate updateData])
                      | Fails e =>
                          (Resolved (failure 500
                             (if JsString.includes "P2002" (message e)
                              then "A record with this data already exists"
                              else if JsString.includes "P2025" (message e)
                                   then "Record not found"
                                   else if JsString.includes "P2003" (message e)
                                        then "Foreign key constraint failed"
                                        else "Database operation failed") None),
                           db, [AlertFindUnique id; AlertUpdate updateData])
                      end
                  end
              end
            else (Resolved (failure 400 ("Invalid stock symbol format: "
                                         ++ default "" (update_symbol updateData)) None),
                  db, [])
        end
    end.
Proof.
  unfold PUT, try_catch, request_json.
  destruct body as [b|e]; [|reflexivity].
  unfold bind at 1. unfold ret at 1. cbn [fst snd app].
  destruct (updateAlertSchema b) as [form|] eqn:Hschema; [|reflexivity].
  apply updateAlertSchema_Some in Hschema as (_ & Hsym & _).
  cbn zeta.
  assert (Hdata : match update_symbol form with
                  | Some s => if JsString.truthy s
                              then with_symbol (Some (normalizeSymbol s)) form
                              else form
                  | None => form
                  end = updateDataOf form).
  { unfold updateDataOf. destruct (update_symbol form) as [s|] eqn:Hs.
    - by rewrite (symbolSchema_truthy s (Hsym s eq_refl)).
    - destruct form. simpl in *. by subst. }
  rewrite Hdata.
  assert (Hguard : match update_symbol form with
                   | Some s => JsString.truthy s
                               && negb (isValidStockSymbol (normalizeSymbol s))
                   | None => false
                   end
                   = negb match update_symbol (updateDataOf form) with
                          | Some K => isValidStockSymbol K
                          | None => true
                          end).
  { unfold updateDataOf. cbn. destruct (update_symbol form) as [s|] eqn:Hs; [|done].
    cbn. by rewrite (symbolSchema_truthy s (Hsym s eq_refl)). }
  rewrite Hguard.
  destruct (match update_symbol (updateDataOf form) with
            | Some K => isValidStockSymbol K | None => true end); cbn [negb];
    [|reflexivity].
  unfold bind at 1, prisma_alert_findUnique, bind, emit. cbn [fst snd app].
  destruct (find_reply env) as [u|e]; [|reflexivity]. cbn [fst snd app].
  change (update_id (updateDataOf form)) with (update_id form).
  destruct (findUnique (update_id form) db) as [a|] eqn:Hfind; [|reflexivity].
  unfold DbLib.withDbErrorHandling, try_catch, prisma_alert_update, bind, emit, ret, throw.
  cbn [fst snd app].
  destruct (write_reply env) as [u'|e]; cbn [fst snd app].
  - change (update_id (updateDataOf form)) with (update_id form). by rewrite Hfind.
  - destruct (JsString.includes "P2002" (message e)); [reflexivity|].
    destruct (JsString.includes "P2025" (message e)); [reflexivity|].
    destruct (JsString.includes "P2003" (message e)); reflexivity.
Qed.

Lemma updateRow_ids env data rows :
  List.map alert_id (updateRow env data rows) = List.map alert_id rows.
Proof.
  induction rows as [|a rest IH]; simpl; [reflexivity|].
  destruct (String.eqb (alert_id a) (update_id data)); simpl; [reflexivity|by rewrite IH].
Qed.

Lemma updateRow_createdAt env data rows :
  List.map alert_createdAt (updateRow env data rows) = List.map alert_createdAt rows.
Proof.
  induction rows as [|a rest IH]; simpl; [reflexivity|].
  destruct (String.eqb (alert_id a) (update_id data)); simpl; [reflexivity|by rewrite IH].
Qed.

Lemma updateRow_others env data rows b :
  In b rows -> alert_id b <> update_id data -> In b (updateRow env data rows).
Proof.
  induction rows as [|a rest IH]; simpl; [done|].
  intros [->|Hin] Hne.
  - apply String.eqb_neq in Hne. rewrite Hne. by left.
  - destruct (String.eqb (alert_id a) (update_id data)); [by right|].
    right. by apply IH.
Qed.

Lemma updateRow_found env data rows a :
  List.find (fun a => String.eqb (alert_id a) (update_id data)) rows = Some a ->
  In (updated env data a) (updateRow env data rows).
Proof.
  induction rows as [|x rest IH]; simpl; [discriminate|].
  destruct (String.eqb (alert_id x) (update_id data)).
  - intros [= ->]. by left.
  - intros Hfind. right. by apply IH.
Qed.

(** Property X23.  PUT /api/alerts always answers, with 200, 400, 404 or
    500; it never adds or removes an alert, never changes an id or a creation
    time, and never touches the triggered alerts.  Unless it answers 200 the
    database is unchanged.  When it answers 200 the alert of the given id has
    the fields of the request (the symbol normalised and well formed) and
    keeps its other fields, and every alert of another id is as before. *)
Theorem PUT_updates_one_alert_or_nothing env body db :
  let run := PUT env body db in
  exists r,
    result_of run = Resolved r
    /\ In (status r) [200; 400; 404; 500]
    /\ triggered_alerts (state_of run) = triggered_alerts db
    /\ List.map alert_id (alerts (state_of run)) = List.map alert_id (alerts db)
    /\ List.map alert_createdAt (alerts (state_of run))
       = List.map alert_createdAt (alerts db)
    /\ (status r <> 200 -> state_of run = db /\ data r = None /\ success r = false)
    /\ (status r = 200 ->
        exists form old new,
          body = Ok (Some form)
          /\ findUnique (update_id form) db = Some old
          /\ data r = Some new
          /\ In new (alerts (state_of run))
          /\ alert_id new = update_id form
          /\ alert_symbol new
             = match update_symbol form with
               | Some s => normalizeSymbol s
               | None => alert_symbol old
               end
          /\ (is_Some (update_symbol form) -> isValidStockSymbol (alert_symbol new) = true)
          /\ targetPrice new = default (targetPrice old) (update_targetPrice form)
          /\ condition new = default (condition old) (update_condition form)
          /\ isActive new = default (isActive old) (update_isActive form)
          /\ (forall b, In b (alerts db) -> alert_id b <> update_id form ->
                        In b (alerts (state_of run)))).
Proof.
  intros run. subst run. rewrite PUT_run. unfold result_of, state_of.
  destruct body as [b|e].
  2:{ eexists. split; [reflexivity|]. cbn. split; [auto 6|]. repeat (split; [done|]).
      discriminate. }
  destruct (updateAlertSchema b) as [form|] eqn:Hschema.
  2:{ eexists. split; [reflexivity|]. cbn. split; [auto 6|]. repeat (split; [done|]).
      discriminate. }
  apply updateAlertSchema_Some in Hschema as (-> & Hsym & Hpos).
  cbn zeta.
  destruct (match update_symbol (updateDataOf form) with
            | Some K => isValidStockSymbol K | None => true end) eqn:Hvalid.
  2:{ eexists. split; [reflexivity|]. cbn. split; [auto 6|]. repeat (split; [done|]).
      discriminate. }
  destruct (find_reply env) as [u|e].
  2:{ eexists. split; [reflexivity|]. cbn. split; [auto 6|]. repeat (split; [done|]).
      discriminate. }
  destruct (findUnique (update_id form) db) as [old|] eqn:Hfind.
  2:{ eexists. split; [reflexivity|]. cbn. split; [auto 6|]. repeat (split; [done|]).
      discriminate. }
  destruct (write_reply env) as [u'|e].
  2:{ eexists. split; [reflexivity|]. cbn. split; [auto 6|]. repeat (split; [done|]).
      discriminate. }
  eexists. split; [reflexivity|].
  cbn [fst snd status data success triggered_alerts alerts].
  split; [simpl; auto|]. split; [done|].
  split; [apply updateRow_ids|]. split; [apply updateRow_createdAt|].
  split; [done|]. intros _.
  exists form, old, (updated env (updateDataOf form) old).
  split; [done|]. split; [done|]. split; [done|].
  split; [by apply updateRow_found|]. split.
  { unfold findUnique in Hfind. apply find_some in Hfind as [_ Heq].
    by apply String.eqb_eq in Heq. }
  split; [cbn; by destruct (update_symbol form)|].
  split.
  { intros [s Hs]. revert Hvalid. cbn. rewrite Hs. cbn. done. }
  split; [done|]. split; [done|]. split; [done|].
  intros b Hin Hne. by apply updateRow_others.
Qed.

(** Property X24.  An update that passes validation but names an id no
    alert has is answered 404 "Alert not found" after one read, and changes
    nothing. *)
Theorem PUT_unknown_id_changes_nothing env form db
    (Hschema : updateAlertSchema (Some form) = Some form)
    (Hvalid : forall s, update_symbol form = Some s ->
                        isValidStockSymbol (normalizeSymbol s) = true)
    (Hdb : find_reply env = Ok tt)
    (Hmissing : forall a, In a (alerts db) -> alert_id a <> update_id form) :
  PUT env (Ok (Some form)) db
  = (Resolved (failure 404 "Alert not found" None), db,
     [AlertFindUnique (update_id form)]).
Proof.
  rewrite PUT_run, Hschema. cbn zeta.
  assert (Hok : match update_symbol (updateDataOf form) with
                | Some K => isValidStockSymbol K | None => true end = true).
  { cbn. destruct (update_symbol form) as [s|] eqn:Hs; [|done]. cbn. by apply Hvalid. }
  rewrite Hok, Hdb.
  destruct (findUnique (update_id form) db) as [a|] eqn:Hfind; [|reflexivity].
  unfold findUnique in Hfind. apply find_some in Hfind as [Hin Heq].
  apply String.eqb_eq in Heq. by apply Hmissing in Hin.
Qed.

Lemma PUT_unknown_id_changes_nothing_witness :
  PUT alerts_env (Ok (Some (update_of "a9" (Some "msft") (Some false)))) db2
  = (Resolved (failure 404 "Alert not found" None), db2, [AlertFindUnique "a9"]).
Proof.
  apply (PUT_unknown_id_changes_nothing alerts_env
           (update_of "a9" (Some "msft") (Some false)) db2).
  - reflexivity.
  - intros s [= <-]. reflexivity.
  - reflexivity.
  - intros a [<-|[<-|[]]]; discriminate.
Defined.

(** An update is not checked against the other alerts: it can make an alert
    the double of another active one, which a creation would refuse. *)
Example PUT_can_duplicate :
  let db := {| alerts := [alert_above true;
                          {| alert_id := "a2"; alert_symbol := "MSFT";
                             targetPrice := 100 # 1; condition := ABOVE;
                             isActive := true;
                             alert_createdAt := 0; alert_updatedAt := 0 |}];
               triggered_alerts := [] |} in
  List.map (fun a => (alert_symbol a, isActive a))
    (alerts (state_of (PUT alerts_env (Ok (Some (update_of "a2" (Some "aapl") None))) db)))
  = [("AAPL", true); ("AAPL", true)].
Proof. reflexivity. Qed.
End AlertUpdate.

Section TokenRegistration.
Import NotificationsApi Reference Examples MoreExamples.

Lemma POST_token_run env body rows :
  POST env body rows
  = match body with
    | Fails e => (Resolved (failure 500 (message e) None), rows, [])
    | Ok b =>
        match tokenSchema b with
        | None => (Resolved (failure 400 "Invalid request data"
                               (Some AlertsApi.ValidationIssues)), rows, [])
        | Some form =>
            let ev := DeviceTokenUpsert (form_token form) (form_userId form) in
            match upsert_reply env with
            | Ok _ =>
                (Resolved {| status := 200; success := true;
                             data_id := Some (device_id (deviceToken (upsert env form rows).1));
                             api_error := None;
                             api_message :=
                               Some (AlertsApi.Text "Device token registered successfully") |},
                 (upsert env form rows).2, [ev])
            | Fails e =>
                (Resolved (failure 500
                   (if JsString.includes "P2002" (message e)
                    then "A record with this data already exists"
                    else if JsString.includes "P2025" (message e)
                         then "Record not found"
                         else if JsString.includes "P2003" (message e)
                              then "Foreign key constraint failed"
                              else "Database operation failed") None),
                 rows, [ev])
            end
        end
    end.
Proof.
  unfold POST, try_catch, request_json.
  destruct body as [b|e]; [|reflexivity].
  unfold bind at 1. unfold ret at 1. cbn [fst snd app].
  destruct (tokenSchema b) as [form|]; [|reflexivity].
  unfold DbLib.withDbErrorHandling, try_catch, prisma_deviceToken_upsert, bind, emit,
    ret, throw. cbn [fst snd app].
  destruct (upsert_reply env) as [u|e]; cbn [fst snd app].
  - by destruct (upsert env form rows).
  - destruct (JsString.includes "P2002" (message e)); [reflexivity|].
    destruct (JsString.includes "P2025" (message e)); [reflexivity|].
    destruct (JsString.includes "P2003" (message e)); reflexivity.
Qed.

Lemma upsert_row env form rows :
  let row := (upsert env form rows).1 in
  In row (upsert env form rows).2
  /\ token (deviceToken row) = form_token form
  /\ device_isActive (deviceToken row) = true
  /\ device_updatedAt row = t_updated env
  /\ match registered (form_token form) rows with
     | Some old =>
         device_id (deviceToken row) = device_id (deviceToken old)
         /\ userId (deviceToken row) = match form_userId form with
                                  | Some u => Some u
                                  | None => userId (deviceToken old)
                                  end
         /\ device_createdAt row = device_createdAt old
         /\ List.length (upsert env form rows).2 = List.length rows
     | None =>
         (upsert env form rows).2
         = (rows ++ [{| deviceToken := {| device_id := new_id env; token := form_token form;
                                     userId := form_userId form;
                                     device_isActive := true |};
                        device_createdAt := t_created env;
                        device_updatedAt := t_updated env |}])%list
         /\ row = {| deviceToken := {| device_id := new_id env; token := form_token form;
                                  userId := form_userId form;
                                  device_isActive := true |};
                     device_createdAt := t_created env;
                     device_updatedAt := t_updated env |}
     end.
Proof.
  unfold registered, tokenOf.
  induction rows as [|d rest IH]; cbn [upsert List.find].
  - cbn. repeat split; auto.
  - destruct (String.eqb (token (deviceToken d)) (form_token form)) eqn:Heq.
    + apply String.eqb_eq in Heq. cbn. repeat split; auto.
    + destruct (upsert env form rest) as [row rest'] eqn:Hrec. cbn [fst snd] in *.
      destruct IH as (Hin & Htok & Hact & Hup & Hcase).
      split; [by right|]. split; [done|]. split; [done|]. split; [done|].
      destruct (List.find _ rest) as [old|].
      * destruct Hcase as (? & ? & ? & Hlen). cbn. by rewrite Hlen.
      * destruct Hcase as [-> ->]. done.
Qed.

Lemma upsert_others env form rows d :
  In d rows -> tokenOf d <> form_token form -> In d (upsert env form rows).2.
Proof.
  unfold tokenOf.
  induction rows as [|x rest IH]; cbn [upsert]; [done|].
  intros [->|Hin] Hne.
  - apply String.eqb_neq in Hne. rewrite Hne.
    destruct (upsert env form rest). by left.
  - destruct (String.eqb (token (deviceToken x)) (form_token form)); [by right|].
    specialize (IH Hin Hne). destruct (upsert env form rest). by right.
Qed.

Lemma upsert_tokens env form rows :
  List.map tokenOf (upsert env form rows).2
  = match registered (form_token form) rows with
    | Some _ => List.map tokenOf rows
    | None => (List.map tokenOf rows ++ [form_token form])%list
    end.
Proof.
  unfold registered, tokenOf.
  induction rows as [|d rest IH]; cbn [upsert List.find]; [reflexivity|].
  destruct (String.eqb (token (deviceToken d)) (form_token form)) eqn:Heq; [reflexivity|].
  destruct (upsert env form rest) as [row rest'] eqn:Hrec. cbn [fst snd] in *.
  cbn [List.map]. rewrite IH. by destruct (List.find _ rest).
Qed.

Lemma registered_None tok rows :
  registered tok rows = None -> ~ In tok (List.map tokenOf rows).
Proof.
  unfold registered. intros Hnone [d [Htok Hin]]%in_map_iff.
  pose proof (find_none _ _ Hnone d Hin) as Hneq. cbn in Hneq.
  apply String.eqb_neq in Hneq. done.
Qed.

Lemma upsert_keeps_distinct env form rows :
  NoDup (List.map tokenOf rows) -> NoDup (List.map tokenOf (upsert env form rows).2).
Proof.
  intros Hunique. rewrite upsert_tokens.
  destruct (registered (form_token form) rows) eqn:Hreg; [done|].
  apply NoDup_app. split; [done|]. split; [|apply NoDup_singleton].
  intros tok Hin Htok. apply list_elem_of_singleton in Htok. subst tok.
  apply list_elem_of_In in Hin. by apply registered_None in Hreg.
Qed.

Lemma restamped_others tok t rows :
  ~ In tok (List.map tokenOf rows) -> List.map (restamped tok t) rows = rows.
Proof.
  induction rows as [|d rest IH]; cbn [List.map]; [done|].
  intros Hnot. rewrite IH by (intros Hin; apply Hnot; by right).
  unfold restamped. destruct (String.eqb (tokenOf d) tok) eqn:Heq; [|done].
  apply String.eqb_eq in Heq. exfalso. apply Hnot. by left.
Qed.

(** A second upsert of the same request finds the row the first one wrote
    and changes its update time only. *)
Lemma upsert_again env1 env2 form rows :
  NoDup (List.map tokenOf rows) ->
  upsert env2 form (upsert env1 form rows).2
  = (restamped (form_token form) (t_updated env2) (upsert env1 form rows).1,
     List.map (restamped (form_token form) (t_updated env2)) (upsert env1 form rows).2).
Proof.
  induction rows as [|d rest IH]; intros Hunique; cbn [upsert fst snd].
  - cbn [upsert List.map deviceToken token]. unfold restamped, tokenOf. cbn [deviceToken token].
    rewrite String.eqb_refl. cbn. by destruct (form_userId form).
  - apply NoDup_cons in Hunique as [Hd Hrest].
    destruct (String.eqb (token (deviceToken d)) (form_token form)) eqn:Heq.
    + cbn [upsert fst snd deviceToken token List.map]. rewrite Heq.
      unfold restamped at 1 2, tokenOf. cbn [deviceToken token]. rewrite ?Heq.
      apply String.eqb_eq in Heq.
      rewrite restamped_others.
      * cbn. by destruct (form_userId form).
      * intros Hin. apply Hd. apply list_elem_of_In. unfold tokenOf at 1.
        by rewrite Heq.
    + specialize (IH Hrest).
      destruct (upsert env1 form rest) as [row rest'] eqn:Hrec. cbn [fst snd] in *.
      cbn [upsert List.map]. rewrite Heq, IH.
      assert (Hsame : restamped (form_token form) (t_updated env2) d = d).
      { unfold restamped, tokenOf. by rewrite Heq. }
      by rewrite Hsame.
Qed.

(** Property X25.  Registering a device token always answers, with 200,
    400 or 500, and changes nothing unless it answers 200.  After a 200 the
    table holds an active row for the token, stamped with the time of the
    request, whose id is the one returned.  A token already registered
    keeps its row id and its creation time, keeps its user when the request
    names none, and the table keeps its size; a new token adds one row at
    the end.  The rows of the other tokens are as before. *)
Theorem token_registration env body rows :
  let run := POST env body rows in
  exists r,
    result_of run = Resolved r
    /\ In (status r) [200; 400; 500]
    /\ (status r <> 200 -> state_of run = rows /\ data_id r = None)
    /\ (status r = 200 ->
        exists form d,
          body = Ok (Some form) /\ form_token form <> ""
          /\ In d (state_of run)
          /\ token (deviceToken d) = form_token form
          /\ device_isActive (deviceToken d) = true
          /\ device_updatedAt d = t_updated env
          /\ data_id r = Some (device_id (deviceToken d))
          /\ match registered (form_token form) rows with
             | Some old =>
                 device_id (deviceToken d) = device_id (deviceToken old)
                 /\ userId (deviceToken d) = match form_userId form with
                                        | Some u => Some u
                                        | None => userId (deviceToken old)
                                        end
                 /\ device_createdAt d = device_createdAt old
                 /\ List.length (state_of run) = List.length rows
             | None => state_of run = (rows ++ [d])%list
                       /\ device_id (deviceToken d) = new_id env
                       /\ userId (deviceToken d) = form_userId form
                       /\ device_createdAt d = t_created env
             end
          /\ (forall o, In o rows -> token (deviceToken o) <> form_token form ->
                        In o (state_of run))).
Proof.
  intros run. subst run. rewrite POST_token_run. unfold result_of, state_of.
  destruct body as [b|e].
  2:{ eexists. split; [reflexivity|]. cbn. split; [auto|]. split; [done|discriminate]. }
  destruct (tokenSchema b) as [form|] eqn:Hschema.
  2:{ eexists. split; [reflexivity|]. cbn. split; [auto|]. split; [done|discriminate]. }
  cbn zeta. destruct (upsert_reply env) as [u|e].
  2:{ eexists. split; [reflexivity|]. cbn. split; [auto|]. split; [done|discriminate]. }
  eexists. split; [reflexivity|]. cbn [fst snd status data_id].
  split; [simpl; auto|]. split; [done|]. intros _.
  exists form, (upsert env form rows).1.
  assert (b = Some form /\ form_token form <> "") as [-> Hne].
  { unfold tokenSchema in Hschema. destruct b as [f|]; [|discriminate].
    destruct (1 <=? String.length (form_token f))%nat eqn:Hlen; [|discriminate].
    injection Hschema as <-. split; [done|]. intros Heq. by rewrite Heq in Hlen. }
  destruct (upsert_row env form rows) as (Hin & Htok & Hact & Hup & Hcase).
  split; [done|]. split; [done|]. split; [done|]. split; [done|]. split; [done|].
  split; [done|]. split; [done|]. split.
  - destruct (registered (form_token form) rows) as [old|]; [done|].
    destruct Hcase as [Hrows Hrow]. by rewrite Hrows, Hrow.
  - intros o Ho Hne'. by apply upsert_others.
Qed.

(** Property X26.  Registering the same token twice is the same as
    registering it once, but for the update time: the second request
    returns the same answer and leaves the table as the first left it,
    except that the row of the token is stamped with the time of the second
    request; no row is added, and the tokens of the table stay pairwise
    distinct. *)
Theorem token_registration_is_idempotent env1 env2 form rows
    (Htoken : form_token form <> "")
    (Hdb1 : upsert_reply env1 = Ok tt) (Hdb2 : upsert_reply env2 = Ok tt)
    (Hunique : NoDup (List.map tokenOf rows)) :
  let first := POST env1 (Ok (Some form)) rows in
  let second := POST env2 (Ok (Some form)) (state_of first) in
  state_of second
  = List.map (restamped (form_token form) (t_updated env2)) (state_of first)
  /\ List.map deviceToken (state_of second) = List.map deviceToken (state_of first)
  /\ List.map device_createdAt (state_of second)
     = List.map device_createdAt (state_of first)
  /\ result_of second = result_of first
  /\ NoDup (List.map tokenOf (state_of first))
  /\ NoDup (List.map tokenOf (state_of second)).
Proof.
  intros first second. subst first second. rewrite !POST_token_run.
  assert (Hschema : tokenSchema (Some form) = Some form).
  { unfold tokenSchema. destruct (form_token form); [done|reflexivity]. }
  rewrite Hschema. cbn zeta. rewrite Hdb1, Hdb2. unfold state_of, result_of.
  cbn [fst snd]. rewrite upsert_again by done. cbn [fst snd].
  assert (Hdevice : forall d, deviceToken (restamped (form_token form) (t_updated env2) d)
                              = deviceToken d).
  { intros d. unfold restamped. by destruct (String.eqb _ _). }
  assert (Hcreated : forall d,
            device_createdAt (restamped (form_token form) (t_updated env2) d)
            = device_createdAt d).
  { intros d. unfold restamped. by destruct (String.eqb _ _). }
  split; [reflexivity|]. split.
  { rewrite List.map_map. apply List.map_ext. exact Hdevice. }
  split.
  { rewrite List.map_map. apply List.map_ext. exact Hcreated. }
  split; [by rewrite Hdevice|].
  split; [by apply upsert_keeps_distinct|].
  rewrite List.map_map.
  rewrite (List.map_ext (fun d => tokenOf (restamped (form_token form) (t_updated env2) d))
             tokenOf).
  - by apply upsert_keeps_distinct.
  - intros d. unfold tokenOf. by rewrite Hdevice.
Qed.

Lemma token_registration_is_idempotent_witness :
  state_of (POST (tokens_env 9) (Ok (Some (token_form "t2" None)))
              (state_of (POST (tokens_env 5) (Ok (Some (token_form "t2" None)))
                           token_rows)))
  = List.map (restamped "t2" 9)
      (state_of (POST (tokens_env 5) (Ok (Some (token_form "t2" None))) token_rows)).
Proof.
  refine (proj1 (token_registration_is_idempotent (tokens_env 5) (tokens_env 9)
                   (token_form "t2" None) token_rows _ _ _ _)).
  - discriminate.
  - reflexivity.
  - reflexivity.
  - cbn. repeat constructor; cbn; intros Hin;
      repeat (apply elem_of_cons in Hin as [Hin|Hin]; [discriminate|]);
      by apply elem_of_nil in Hin.
Defined.

(** The second registration moves the update time of the row, and of that
    row only. *)
Example second_registration_restamps :
  List.map device_updatedAt
    (state_of (POST (tokens_env 9) (Ok (Some (token_form "t2" None)))
                 (state_of (POST (tokens_env 5) (Ok (Some (token_form "t2" None)))
                              token_rows))))
  = [0; 9; 0].
Proof. reflexivity. Qed.
End TokenRegistration.

Section TimeAgo.
Import TriggeredAlertCard.

(** Property X27.  For a date that is not in the future, [getTimeAgo]
    shows the whole minutes elapsed: below one hour as minutes alone, from
    one hour on as hours and the remaining minutes, which are below 60. *)
Theorem getTimeAgo_whole_minutes (now date : Z) (Hpast : date <= now) :
  let total := (now - date) / (1000 * 60) in
  getTimeAgo now date
  = if total <? 60 then AlertsRoute.decimal total ++ "m ago"
    else AlertsRoute.decimal (total / 60) ++ "h "
         ++ AlertsRoute.decimal (total mod 60) ++ "m ago".
Proof.
  intros total. subst total. unfold getTimeAgo.
  set (diff := now - date). assert (Hdiff : 0 <= diff) by (subst diff; lia).
  change (1000 * 60 * 60) with (60000 * 60). change (1000 * 60) with 60000.
  rewrite Z.rem_mod_nonneg by lia.
  rewrite <- Z.div_div by lia.
  assert (Hmin : diff mod (60000 * 60) / 60000 = (diff / 60000) mod 60).
  { rewrite Z.rem_mul_r by lia.
    rewrite (Z.mul_comm 60000), Z.div_add by lia.
    rewrite (Z.div_small (diff mod 60000)); [lia|]. apply Z.mod_pos_bound. lia. }
  rewrite Hmin.
  destruct (diff / 60000 <? 60) eqn:Hlt.
  - apply Z.ltb_lt in Hlt.
    assert (0 <= diff / 60000) by (apply Z.div_pos; lia).
    rewrite (Z.div_small (diff / 60000) 60) by lia.
    rewrite (Z.mod_small (diff / 60000) 60) by lia. reflexivity.
  - apply Z.ltb_ge in Hlt.
    assert (Hh : 0 < diff / 60000 / 60).
    { apply Z.div_str_pos. lia. }
    by rewrite (proj2 (Z.gtb_lt _ _) Hh).
Qed.

Lemma getTimeAgo_whole_minutes_witness :
  getTimeAgo 9000000 0 = "2h 30m ago".
Proof.
  apply (getTimeAgo_whole_minutes 9000000 0). lia.
Defined.

(** A date in the future loses its hours and shows minutes that are zero or
    negative. *)
Example getTimeAgo_future :
  getTimeAgo 0 7200000 = "0m ago" /\ getTimeAgo 0 5400000 = "-30m ago".
Proof. split; reflexivity. Qed.
End TimeAgo.

Section StatusAgreement.
Import AlertCard.

(** Property X28.  The colour and the text of an alert card always
    agree: gray with "Inactive", yellow with "Loading price...", blue with
    "Monitoring...", green with "Target Reached!" of an ABOVE alert and red
    with "Target Reached!" of a BELOW alert; and the text is one of these
    four. *)
Theorem status_color_matches_text (alert : Alert) (currentPrice : option Q) :
  (getStatusText alert currentPrice = "Inactive"
   <-> getStatusColor alert currentPrice = "bg-gray-100 border-gray-300")
  /\ (getStatusText alert currentPrice = "Loading price..."
      <-> getStatusColor alert currentPrice = "bg-yellow-50 border-yellow-200")
  /\ (getStatusText alert currentPrice = "Monitoring..."
      <-> getStatusColor alert currentPrice = "bg-blue-50 border-blue-200")
  /\ (getStatusText alert currentPrice = "Target Reached!" /\ condition alert = ABOVE
      <-> getStatusColor alert currentPrice = "bg-green-50 border-green-200")
  /\ (getStatusText alert currentPrice = "Target Reached!" /\ condition alert = BELOW
      <-> getStatusColor alert currentPrice = "bg-red-50 border-red-200")
  /\ In (getStatusText alert currentPrice)
        ["Inactive"; "Loading price..."; "Monitoring..."; "Target Reached!"].
Proof.
  unfold getStatusText, getStatusColor, isAboveTarget.
  destruct (isActive alert); cbn [negb].
  2:{ repeat split; try discriminate; try (intros [? ?]; discriminate); simpl; auto. }
  destruct currentPrice as [p|].
  2:{ repeat split; try discriminate; try (intros [? ?]; discriminate); simpl; auto. }
  destruct (JsNumber.truthy (Some p)); cbn [negb].
  2:{ repeat split; try discriminate; try (intros [? ?]; discriminate); simpl; auto. }
  destruct (condition alert).
  - destruct (JsNumber.geq p (targetPrice alert));
      repeat split; try discriminate; try (intros [? ?]; discriminate); simpl; auto 6.
  - destruct (JsNumber.leq p (targetPrice alert));
      repeat split; try discriminate; try (intros [? ?]; discriminate); simpl; auto 6.
Qed.
End StatusAgreement.

Section AdminSingleton.
Import Firebase Statements Examples.

Lemma sendBulkPushNotifications_trace env tokens payload w :
  let run := sendBulkPushNotifications env tokens payload w in
  let send := SendToDevice tokens (messageOf payload) in
  (trace_of run = [] /\ adminApp (state_of run) = adminApp w)
  \/ (trace_of run = [AdminInit] /\ adminApp w = false /\ adminApp (state_of run) = false)
  \/ (trace_of run = [send] /\ adminApp w = true /\ adminApp (state_of run) = true)
  \/ (trace_of run = [AdminInit; send] /\ adminApp w = false
      /\ adminApp (state_of run) = true).
Proof.
  unfold sendBulkPushNotifications.
  destruct (window_defined env) eqn:Hserver; [by left|].
  destruct (List.length tokens =? 0)%nat; [by left|].
  unfold try_catch, bind at 1, getFirebaseAdmin. rewrite Hserver.
  unfold try_catch, bind, messaging_sendToDevice, emit, ret, throw.
  fold (messageOf payload). unfold trace_of, state_of.
  destruct (adminApp w) eqn:Happ.
  - destruct (sendToDevice env tokens _); cbn; rewrite Happ; right; right; left; done.
  - destruct (admin_init env); cbn.
    + destruct (sendToDevice env tokens _); cbn; right; right; right; done.
    + right; left. done.
Qed.

(** Property X29.  A bulk dispatch initialises the Admin SDK at most
    once, before its one request to the gateway, and not at all when the SDK
    is already initialised.  Once a dispatch has reached the gateway the SDK
    stays initialised, and the next dispatch, whatever its tokens, does not
    initialise it again. *)
Theorem admin_is_initialised_once env1 env2 tokens1 tokens2 payload1 payload2 w :
  let first := sendBulkPushNotifications env1 tokens1 payload1 w in
  let second := sendBulkPushNotifications env2 tokens2 payload2 (state_of first) in
  In (trace_of first)
     [[]; [AdminInit]; [SendToDevice tokens1 (messageOf payload1)];
      [AdminInit; SendToDevice tokens1 (messageOf payload1)]]
  /\ (adminApp w = true -> adminApp (state_of first) = true
                           /\ ~ In AdminInit (trace_of first))
  /\ (In (SendToDevice tokens1 (messageOf payload1)) (trace_of first) ->
      adminApp (state_of first) = true /\ ~ In AdminInit (trace_of second)).
Proof.
  intros first second.
  assert (Hquiet : forall env tokens payload w',
            adminApp w' = true ->
            adminApp (state_of (sendBulkPushNotifications env tokens payload w')) = true
            /\ ~ In AdminInit (trace_of (sendBulkPushNotifications env tokens payload w'))).
  { intros env tokens payload w' Happ.
    destruct (sendBulkPushNotifications_trace env tokens payload w')
      as [[-> Hs]|[(-> & Hw & Hs)|[(-> & Hw & Hs)|(-> & Hw & Hs)]]]; try congruence.
    - split; [congruence|]. intros Hin. exact Hin.
    - split; [done|]. intros [Heq|Hin]; [discriminate|exact Hin]. }
  split; [|split].
  - subst first.
    destruct (sendBulkPushNotifications_trace env1 tokens1 payload1 w)
      as [[-> _]|[(-> & _)|[(-> & _)|(-> & _)]]]; simpl; auto.
  - intros Happ. by apply Hquiet.
  - intros Hsent.
    assert (Happ : adminApp (state_of first) = true).
    { subst first.
      destruct (sendBulkPushNotifications_trace env1 tokens1 payload1 w)
        as [[Ht Hs]|[(Ht & Hw & Hs)|[(Ht & Hw & Hs)|(Ht & Hw & Hs)]]];
        rewrite Ht in Hsent; try done.
      destruct Hsent as [Heq|[]]. discriminate. }
    split; [done|]. subst second. by apply Hquiet.
Qed.
End AdminSingleton.

Section SingleSend.
Import Firebase FirebaseAux Statements Examples.

(** Property X30.  On the server a single send never fails: it
    reports true exactly when the Admin SDK is at hand and the gateway
    accepts the message, false in every other case.  It leaves the device
    tokens as they are and addresses the gateway for the given token only,
    with the message built from the payload. *)
Theorem sendPushNotification_contract env token payload w
    (Hserver : window_defined (base env) = false) :
  let run := sendPushNotification env token payload w in
  exists delivered,
    result_of run = Resolved delivered
    /\ (delivered = true
        <-> adminAvailable (base env) w
            /\ send env token (messageOf payload) = Ok tt)
    /\ deviceTokens (state_of run) = deviceTokens w
    /\ (forall tok m, In (Send tok m) (trace_of run) ->
                      tok = token /\ m = messageOf payload)
    /\ (delivered = true -> In (Send token (messageOf payload)) (trace_of run)).
Proof.
  intros run. subst run. unfold sendPushNotification. rewrite Hserver.
  unfold try_catch, bind at 1, mapEvents, getFirebaseAdmin. rewrite Hserver.
  unfold try_catch, bind, messaging_send, emit, ret, throw, adminAvailable.
  fold (messageOf payload). unfold result_of, state_of, trace_of.
  destruct (adminApp w) eqn:Happ.
  - destruct (send env token (messageOf payload)) as [[]|e] eqn:Hsend; cbn.
    + exists true. split; [done|]. split; [split; [intros _; split; [auto|done]|done]|]. split; [done|]. split; [|intros _; simpl; auto].
      intros tok m [[= <- <-]|[]]. done.
    + exists false. split; [done|]. split; [split; [done|by intros [_ ?]]|].
      split; [done|]. split; [|done]. intros tok m [[= <- <-]|[]]. done.
  - destruct (admin_init (base env)) as [[]|e0] eqn:Hinit; cbn.
    + destruct (send env token (messageOf payload)) as [[]|e] eqn:Hsend; cbn.
      * exists true. split; [done|]. split; [split; [intros _; split; [auto|done]|done]|]. split; [done|]. split; [|intros _; simpl; auto].
        intros tok m [?|[[= <- <-]|[]]]; done.
      * exists false. split; [done|]. split; [split; [done|by intros [_ ?]]|].
        split; [done|]. split; [|done]. intros tok m [?|[[= <- <-]|[]]]; done.
    + exists false. split; [done|]. split.
      { split; [done|]. intros [[?|?] _]; congruence. }
      split; [done|]. split; [|done]. intros tok m [?|[]]. done.
Qed.

Lemma sendPushNotification_contract_witness :
  exists delivered,
    result_of (sendPushNotification
                 {| base := gateway_second_invalid;
                    send := fun _ _ => Fails db_down |} "t1" payload0 world3)
    = Resolved delivered
    /\ (delivered = true
        <-> adminAvailable gateway_second_invalid world3
            /\ @Fails unit db_down = Ok tt).
Proof.
  destruct (sendPushNotification_contract
              {| base := gateway_second_invalid; send := fun _ _ => Fails db_down |}
              "t1" payload0 world3) as (delivered & Hr & Hiff & _); [reflexivity|].
  exists delivered. split; [exact Hr|exact Hiff].
Defined.
End SingleSend.
